(** * The sales clean/transform pipeline of [src/data_processing.py]

    A shallow embedding of the cleaner ([clean_data] and the field cleaners
    it dispatches to), the cross-field validator ([validate_data]) and the
    dimensional transformer ([transform_data]), followed by the properties
    the specification states about them.

    Conventions of the embedding.
    - A Python [str] is a [string]; the character [ascii] of code [n]
      stands for the code point [n], so the strings covered are those over
      U+0000..U+00FF.  On that range [str.isdigit], [str.isspace] and the
      blanks skipped by [int()] are the tables given below.
    - A Python [dict] keyed by column name is a [gmap string _].  A raw
      row maps column names to strings, as the annotations of [clean_data]
      say; a cleaned row maps them to [None], a string, an integer or a
      float, the values the cleaners produce.
    - A Python [float] is an IEEE-754 binary64 value ([spec_float] with
      precision 53 and maximal exponent 1024).
    - An exception is a value of [exn]; code that may raise returns a
      [result].  Log lines are not modelled: they do not influence any
      returned value. *)

From Stdlib Require Import ZArith Lia Bool Ascii String List.
From Stdlib Require Import Floats.SpecFloat.
From stdpp Require Import base option list gmap strings fin_maps sorting.

Local Open Scope string_scope.
Local Open Scope Z_scope.

(** ** Exceptions *)

Inductive exn : Type :=
| KeyError (key : string)
| ValueError
| TypeError
| AttributeError
| IndexError
| OverflowError.

Inductive result (A : Type) : Type :=
| Ok (a : A)
| Raise (e : exn).
Arguments Ok {A} a.
Arguments Raise {A} e.

Definition result_bind {A B} (f : A → result B) (m : result A) : result B :=
  match m with
  | Ok a => f a
  | Raise e => Raise e
  end.

Definition result_map {A B} (f : A → B) (m : result A) : result B :=
  match m with
  | Ok a => Ok (f a)
  | Raise e => Raise e
  end.

#[global] Instance result_ret : MRet result := @Ok.
#[global] Instance result_mbind : MBind result := @result_bind.
#[global] Instance result_fmap : FMap result := @result_map.

Definition is_ok {A} (m : result A) : bool :=
  match m with Ok _ => true | Raise _ => false end.

(** ** Characters and strings *)

Definition code (c : ascii) : Z := Z.of_N (N_of_ascii c).

(** [c.isdigit()]: the decimal digits and the superscript digits
    U+00B2, U+00B3 and U+00B9 (Numeric_Type=Digit). *)
Definition isdigit_char (c : ascii) : bool :=
  ((48 <=? code c) && (code c <=? 57))
  || (code c =? 178) || (code c =? 179) || (code c =? 185).

(** The decimal digits ['0'..'9'], the only digits [int()], [float()] and
    [strptime] accept. *)
Definition isdecimal_char (c : ascii) : bool :=
  (48 <=? code c) && (code c <=? 57).

Definition digit_value (c : ascii) : Z := code c - 48.

(** [c.isspace()], the characters [str.strip()] removes. *)
Definition isspace_char (c : ascii) : bool :=
  ((9 <=? code c) && (code c <=? 13))
  || ((28 <=? code c) && (code c <=? 32))
  || (code c =? 133) || (code c =? 160).

(** The blanks [int()] skips around a literal: as [isspace] without the
    separators U+001C..U+001F. *)
Definition int_space_char (c : ascii) : bool :=
  ((9 <=? code c) && (code c <=? 13))
  || (code c =? 32) || (code c =? 133) || (code c =? 160).

Fixpoint string_forall (p : ascii → bool) (s : string) : bool :=
  match s with
  | EmptyString => true
  | String c s' => p c && string_forall p s'
  end.

Fixpoint string_filter (p : ascii → bool) (s : string) : string :=
  match s with
  | EmptyString => EmptyString
  | String c s' => if p c then String c (string_filter p s') else string_filter p s'
  end.

Fixpoint string_map (f : ascii → ascii) (s : string) : string :=
  match s with
  | EmptyString => EmptyString
  | String c s' => String (f c) (string_map f s')
  end.

Fixpoint string_mem (c : ascii) (s : string) : bool :=
  match s with
  | EmptyString => false
  | String d s' => Ascii.eqb c d || string_mem c s'
  end.

Definition is_empty (s : string) : bool :=
  match s with EmptyString => true | String _ _ => false end.

(** [s.isdigit()]: at least one character, all of them digits. *)
Definition isdigit (s : string) : bool :=
  negb (is_empty s) && string_forall isdigit_char s.

Fixpoint lstrip_with (p : ascii → bool) (s : string) : string :=
  match s with
  | EmptyString => EmptyString
  | String c s' => if p c then lstrip_with p s' else s
  end.

Fixpoint rstrip_with (p : ascii → bool) (s : string) : string :=
  match s with
  | EmptyString => EmptyString
  | String c s' =>
      let r := rstrip_with p s' in
      if is_empty r && p c then EmptyString else String c r
  end.

(** [s.strip()] *)
Definition strip (s : string) : string :=
  rstrip_with isspace_char (lstrip_with isspace_char s).

(** [s.split(sep)] for a one-character separator. *)
Fixpoint split (sep : ascii) (s : string) : list string :=
  match s with
  | EmptyString => [EmptyString]
  | String c s' =>
      if Ascii.eqb c sep then EmptyString :: split sep s'
      else match split sep s' with
           | h :: t => String c h :: t
           | [] => [String c EmptyString]
           end
  end.

(** ** Numbers *)

(** Digits of a base-10 literal in which single underscores may separate
    digits.  [prev] tells whether the previous character was a digit. *)
Fixpoint int_digits (s : string) (prev : bool) (acc : Z) : option Z :=
  match s with
  | EmptyString => if prev then Some acc else None
  | String c s' =>
      if isdecimal_char c then int_digits s' true (10 * acc + digit_value c)
      else if Ascii.eqb c "_" && prev then int_digits s' false acc
      else None
  end.

(** [int(s)] for a string [s], base 10. The interpreter's optional cap on
    the number of digits is not modelled. *)
Definition int_of_str (s : string) : result Z :=
  let t := rstrip_with int_space_char (lstrip_with int_space_char s) in
  let '(neg, body) :=
    match t with
    | String c r =>
        if Ascii.eqb c "-" then (true, r)
        else if Ascii.eqb c "+" then (false, r)
        else (false, t)
    | EmptyString => (false, t)
    end in
  match int_digits body false 0 with
  | Some n => Ok (if neg : bool then - n else n)
  | None => Raise ValueError
  end.

Definition prec64 : Z := 53.
Definition emax64 : Z := 1024.

(** The binary64 value nearest to [m / 10^k] (ties to even; overflow gives
    infinity), for [0 <= m] and [0 <= k]. *)
Definition round_decimal (m k : Z) : spec_float :=
  let '(q, e, l) := SFdiv_core_binary prec64 emax64 m 0 (10 ^ k) 0 in
  binary_round_aux prec64 emax64 false q e l.

(** Scanner of [digits [. digits]]: the digits read so far as an integer,
    how many of them follow the point, and whether any digit was read. *)
Fixpoint scan_decimal (s : string) (dot : bool) (m k : Z) (any : bool)
  : option (Z * Z) :=
  match s with
  | EmptyString => if any then Some (m, k) else None
  | String c s' =>
      if isdecimal_char c
      then scan_decimal s' dot (10 * m + digit_value c) (if dot then k + 1 else k) true
      else if Ascii.eqb c "." && negb dot then scan_decimal s' true m k any
      else None
  end.

(** [float(s)] for a string made of digit characters and ['.'] only, which
    is all [clean_price] hands to it: signs, exponents, blanks and the
    words [inf] and [nan] cannot occur there. *)
Definition float_of_str (s : string) : result spec_float :=
  match scan_decimal s false 0 0 false with
  | Some (m, k) => Ok (round_decimal m k)
  | None => Raise ValueError
  end.

(** [int(f)] for a float: truncation towards zero. *)
Definition int_of_float (f : spec_float) : result Z :=
  match f with
  | S754_zero _ => Ok 0
  | S754_infinity _ => Raise OverflowError
  | S754_nan => Raise ValueError
  | S754_finite s m e =>
      let a := if 0 <=? e then Z.pos m * 2 ^ e else Z.pos m / 2 ^ (- e) in
      Ok (if s then - a else a)
  end.

(** ** Values held by a cleaned record *)

Inductive value : Type :=
| VNone
| VStr (s : string)
| VInt (n : Z)
| VFloat (f : spec_float).

#[global] Instance spec_float_eq_dec : EqDecision spec_float.
Proof. solve_decision. Defined.

#[global] Instance value_eq_dec : EqDecision value.
Proof. solve_decision. Defined.

#[global] Instance exn_eq_dec : EqDecision exn.
Proof. solve_decision. Defined.

#[global] Instance result_eq_dec {A} `{EqDecision A} : EqDecision (result A).
Proof. solve_decision. Defined.

(** Truth value of an object, as [if x], [not x] and [all] take it. *)
Definition truthy (v : value) : bool :=
  match v with
  | VNone => false
  | VStr s => negb (is_empty s)
  | VInt n => negb (n =? 0)
  | VFloat (S754_zero _) => false
  | VFloat _ => true
  end.

(** [f == n] for a float and an integer: exact numeric comparison. *)
Definition float_eq_int (f : spec_float) (n : Z) : bool :=
  match f with
  | S754_zero _ => n =? 0
  | S754_finite s m e =>
      let a := if s then Z.neg m else Z.pos m in
      if 0 <=? e then n =? a * 2 ^ e else a =? n * 2 ^ (- e)
  | _ => false
  end.

(** [x == y] *)
Definition py_eq (x y : value) : bool :=
  match x, y with
  | VNone, VNone => true
  | VStr s, VStr t => String.eqb s t
  | VInt n, VInt m => n =? m
  | VFloat f, VFloat g => SFeqb f g
  | VInt n, VFloat f | VFloat f, VInt n => float_eq_int f n
  | _, _ => false
  end.

(** [x in l] *)
Definition py_in (x : value) (l : list value) : bool := existsb (py_eq x) l.

(** [int(x)] *)
Definition py_int (v : value) : result Z :=
  match v with
  | VNone => Raise TypeError
  | VStr s => int_of_str s
  | VInt n => Ok n
  | VFloat f => int_of_float f
  end.

(** [row[key]] *)
Definition getitem {A} (row : gmap string A) (key : string) : result A :=
  match row !! key with
  | Some v => Ok v
  | None => Raise (KeyError key)
  end.

(** A dictionary built from the items [(key, f(key, value))], evaluated in
    order. *)
Fixpoint comprehension_items {A B} (f : string → A → result B)
    (items : list (string * A)) : result (gmap string B) :=
  match items with
  | [] => mret ∅
  | (key, v) :: items' =>
      b ← f key v; r ← comprehension_items f items'; mret (<[key := b]> r)
  end.

(** [{key: f(key, value) for key, value in row.items()}] *)
Definition dict_comprehension {A B} (f : string → A → result B)
    (row : gmap string A) : result (gmap string B) :=
  comprehension_items f (map_to_list row).

(** ** Field cleaners *)

Definition clean_location (v : string) : value :=
  if is_empty v then VNone else VStr v.

Definition clean_price (v : string) : result value :=
  let cleaned_value :=
    string_filter (λ c, isdigit_char c || Ascii.eqb c ".") v in
  if negb (is_empty cleaned_value)
  then f ← float_of_str cleaned_value; mret (VFloat f)
  else mret (VFloat (S754_zero false)).

Definition clean_date (v : string) : value :=
  if string_mem "/" v
  then VStr (string_map (λ c, if Ascii.eqb c "/" then "-"%char else c) v)
  else VStr v.

Definition clean_quantity (v : string) : value :=
  match int_of_str v with
  | Ok n => if 0 <=? n then VInt n else VInt 0
  | Raise _ => VInt 0
  end.

Definition clean_value (key v : string) : result value :=
  if String.eqb key "Location" then mret (clean_location v)
  else if String.eqb key "Price" then clean_price v
  else if String.eqb key "Date" then mret (clean_date v)
  else if String.eqb key "Quantity" then mret (clean_quantity v)
  else mret (VStr v).

(** ** The cleaner *)

Definition default_id_fields : list string :=
  ["ProductID"; "SaleID"; "RetailerID"].

(** The inner loop of the structural filter over the fields still to be
    checked; [id_fields] is the whole list, which the second test
    consults. *)
Fixpoint check_fields (id_fields : list string) (row : gmap string string)
    (todo : list string) : bool :=
  match todo with
  | [] => true
  | field :: todo' =>
      match row !! field with
      | None => false
      | Some v =>
          if is_empty v then false
          else if existsb (String.eqb field) id_fields && negb (isdigit v) then false
          else check_fields id_fields row todo'
      end
  end.

Definition valid_row (id_fields : list string) (row : gmap string string) : bool :=
  check_fields id_fields row id_fields.

(** The first loop of [clean_data]; [cleaned_data] is the list built so
    far. *)
Fixpoint filter_loop (id_fields : list string)
    (data cleaned_data : list (gmap string string))
  : list (gmap string string) :=
  match data with
  | [] => cleaned_data
  | row :: data' =>
      if valid_row id_fields row
      then filter_loop id_fields data' (cleaned_data ++ [row])%list
      else filter_loop id_fields data' cleaned_data
  end.

Definition structural_filter (id_fields : list string)
    (data : list (gmap string string)) : list (gmap string string) :=
  filter_loop id_fields data [].

(** The two dictionary comprehensions applied to a kept row. *)
Definition clean_row (row : gmap string string) : result (gmap string value) :=
  let cleaned_strip_row := strip <$> row in
  dict_comprehension clean_value cleaned_strip_row.

(** An identity tuple: the field-value pairs of a record. *)
Definition identifier : Type := list (string * value).

Definition item_le (a b : string * value) : Prop := String.leb a.1 b.1 = true.

#[global] Instance item_le_dec a b : Decision (item_le a b).
Proof. unfold item_le. apply _. Defined.

(** [tuple(sorted(row.items()))]; the keys of a dictionary differ, so the
    pairs are ordered by key and no two values are ever compared. *)
Definition sorted_items (row : gmap string value) : identifier :=
  merge_sort item_le (map_to_list row).

(** Equality of two identity tuples. *)
Fixpoint ident_eqb (a b : identifier) : bool :=
  match a, b with
  | [], [] => true
  | (k1, v1) :: a', (k2, v2) :: b' => String.eqb k1 k2 && py_eq v1 v2 && ident_eqb a' b'
  | _, _ => false
  end.

(** A [set] of identity tuples: buckets by hash value. *)
Abbreviation pyset := (gmap Z (list identifier)).

Section Cleaner.

(** The hash of an identity tuple.  It changes from one interpreter run
    to the next (string hashing is salted); all the language promises is
    that equal objects have equal hashes. *)
Variable hash : identifier → Z.


Definition bucket (s : pyset) (h : Z) : list identifier :=
  default [] (s !! h).

(** [x in s] *)
Definition pyset_mem (x : identifier) (s : pyset) : bool :=
  existsb (ident_eqb x) (bucket s (hash x)).

(** [s.add(x)] *)
Definition pyset_add (x : identifier) (s : pyset) : pyset :=
  if pyset_mem x s then s
  else <[hash x := (bucket s (hash x) ++ [x])%list]> s.

(** The second loop of [clean_data]. *)
Fixpoint dedup_loop (rows : list (gmap string string)) (seen : pyset)
    (final_cleaned_data : list (gmap string value))
  : result (list (gmap string value)) :=
  match rows with
  | [] => mret final_cleaned_data
  | row :: rows' =>
      cleaned_clean_value_row ← clean_row row;
      let ident := sorted_items cleaned_clean_value_row in
      if negb (pyset_mem ident seen)
      then dedup_loop rows' (pyset_add ident seen)
                      (final_cleaned_data ++ [cleaned_clean_value_row])%list
      else dedup_loop rows' seen final_cleaned_data
  end.

Definition clean_data (data : list (gmap string string))
    (id_fields : list string) : result (list (gmap string value)) :=
  let cleaned_data := structural_filter id_fields data in
  dedup_loop cleaned_data ∅ [].

End Cleaner.

(** ** The cross-field validator *)

Fixpoint has_fields (row : gmap string value) (fields : list string) : bool :=
  match fields with
  | [] => true
  | field :: fields' =>
      match row !! field with
      | None => false
      | Some v => if negb (truthy v) then false else has_fields row fields'
      end
  end.

Fixpoint validate_loop (data validated_data : list (gmap string value))
  : list (gmap string value) :=
  match data with
  | [] => validated_data
  | row :: data' =>
      if has_fields row ["ProductID"; "SaleID"; "RetailerID"]
      then validate_loop data' (validated_data ++ [row])%list
      else validate_loop data' validated_data
  end.

Definition validate_data (data : list (gmap string value))
  : list (gmap string value) :=
  validate_loop data [].

(** ** Calendar dates *)

Definition is_leap (y : Z) : bool :=
  (y mod 4 =? 0) && (negb (y mod 100 =? 0) || (y mod 400 =? 0)).

Definition days_in_month (y m : Z) : Z :=
  if m =? 2 then (if is_leap y then 29 else 28)
  else if (m =? 4) || (m =? 6) || (m =? 9) || (m =? 11) then 30
  else 31.

Definition days_before_year (y : Z) : Z :=
  let y' := y - 1 in y' * 365 + y' / 4 - y' / 100 + y' / 400.

(** Days in the first [n] months of year [y]. *)
Fixpoint days_in_months (y : Z) (n : nat) : Z :=
  match n with
  | O => 0
  | S n' => days_in_months y n' + days_in_month y (Z.of_nat n)
  end.

Definition days_before_month (y m : Z) : Z :=
  days_in_months y (Z.to_nat (m - 1)).

(** Proleptic Gregorian ordinal; 1 January of year 1 is day 1. *)
Definition ymd2ord (y m d : Z) : Z :=
  days_before_year y + days_before_month y m + d.

(** Monday is 0. *)
Definition weekday (y m d : Z) : Z := (ymd2ord y m d + 6) mod 7.

Definition isoweek1monday (y : Z) : Z :=
  let firstday := ymd2ord y 1 1 in
  let firstweekday := (firstday + 6) mod 7 in
  let week1monday := firstday - firstweekday in
  if 3 <? firstweekday then week1monday + 7 else week1monday.

(** [date.isocalendar()[1]] *)
Definition iso_week (y m d : Z) : Z :=
  let today := ymd2ord y m d in
  let week := (today - isoweek1monday y) / 7 in
  if week <? 0 then (today - isoweek1monday (y - 1)) / 7 + 1
  else if (52 <=? week) && (isoweek1monday (y + 1) <=? today) then 1
  else week + 1.

(** [date.strftime('%A')] *)
Definition weekday_name (y m d : Z) : string :=
  match weekday y m d with
  | 0 => "Monday" | 1 => "Tuesday" | 2 => "Wednesday" | 3 => "Thursday"
  | 4 => "Friday" | 5 => "Saturday" | _ => "Sunday"
  end.

Fixpoint decimal_value (s : string) (acc : Z) : Z :=
  match s with
  | EmptyString => acc
  | String c s' => decimal_value s' (10 * acc + digit_value c)
  end.

(** The directive [%Y]: four decimal digits. *)
Definition year_text (s : string) : bool :=
  (String.length s =? 4)%nat && string_forall isdecimal_char s.

(** The directive [%m]: [1[0-2]|0[1-9]|[1-9]]. *)
Definition month_text (s : string) : bool :=
  match s with
  | String a EmptyString => (49 <=? code a) && (code a <=? 57)
  | String a (String b EmptyString) =>
      ((code a =? 49) && (48 <=? code b) && (code b <=? 50))
      || ((code a =? 48) && (49 <=? code b) && (code b <=? 57))
  | _ => false
  end.

(** The directive [%d]: [3[01]|[12]\d|0[1-9]|[1-9]| [1-9]]. *)
Definition day_text (s : string) : bool :=
  match s with
  | String a EmptyString => (49 <=? code a) && (code a <=? 57)
  | String a (String b EmptyString) =>
      ((code a =? 51) && (48 <=? code b) && (code b <=? 49))
      || (((code a =? 49) || (code a =? 50)) && isdecimal_char b)
      || (((code a =? 48) || (code a =? 32)) && (49 <=? code b) && (code b <=? 57))
  | _ => false
  end.

(** [datetime.strptime(s, '%Y-%m-%d')], giving year, month and day.  The
    three directives contain no ['-'], so the string matches the format
    exactly when it splits on ['-'] into three matching parts; the date
    must then exist in the calendar, whose first year is 1. *)
Definition strptime (s : string) : result (Z * Z * Z) :=
  match split "-" s with
  | [ys; ms; ds] =>
      if year_text ys && month_text ms && day_text ds then
        let y := decimal_value ys 0 in
        let m := decimal_value ms 0 in
        let d := decimal_value (lstrip_with (Ascii.eqb " ") ds) 0 in
        if (1 <=? y) && (d <=? days_in_month y m) then Ok (y, m, d)
        else Raise ValueError
      else Raise ValueError
  | _ => Raise ValueError
  end.

(** [l[i]] *)
Definition list_item {A} (l : list A) (i : nat) : result A :=
  match l !! i with
  | Some x => Ok x
  | None => Raise IndexError
  end.

(** ** The dimensional transformer *)

Record ProductDimRecord : Type := {
  pd_ProductID : Z;
  pd_Name : value;
  pd_Brand : value;
  pd_Category : value
}.

Record RetailerDimRecord : Type := {
  rd_RetailerID : Z;
  rd_Name : value;
  rd_Channel : value;
  rd_Location : value
}.

Record DateDimRecord : Type := {
  dd_Date : value;
  dd_Day : Z;
  dd_Month : Z;
  dd_Year : Z;
  dd_Quarter : Z;
  dd_DayOfWeek : string;
  dd_WeekOfYear : Z
}.

Record SalesFactRecord : Type := {
  sf_SaleID : Z;
  sf_ProductID : Z;
  sf_RetailerID : Z;
  sf_Date : value;
  sf_Quantity : Z;
  sf_Price : value
}.

#[global] Instance ProductDimRecord_eq_dec : EqDecision ProductDimRecord.
Proof. solve_decision. Defined.

#[global] Instance RetailerDimRecord_eq_dec : EqDecision RetailerDimRecord.
Proof. solve_decision. Defined.

#[global] Instance DateDimRecord_eq_dec : EqDecision DateDimRecord.
Proof. solve_decision. Defined.

#[global] Instance SalesFactRecord_eq_dec : EqDecision SalesFactRecord.
Proof. solve_decision. Defined.

(** The four accumulating lists. *)
Record tables : Type := {
  product_dim : list ProductDimRecord;
  retailer_dim : list RetailerDimRecord;
  date_dim : list DateDimRecord;
  sales_fact : list SalesFactRecord
}.

Definition no_tables : tables :=
  {| product_dim := []; retailer_dim := []; date_dim := []; sales_fact := [] |}.

(** [x if x else None] *)
Definition or_none (v : value) : value := if truthy v then v else VNone.

Definition product_step (row : gmap string value)
    (product_dim : list ProductDimRecord) : result (list ProductDimRecord) :=
  pid ← getitem row "ProductID";
  let unseen := negb (py_in pid (map (λ p, VInt (pd_ProductID p)) product_dim)) in
  name ← getitem row "ProductName";
  if unseen && truthy name then
    id ← py_int pid;
    brand ← getitem row "Brand";
    category ← getitem row "Category";
    mret (product_dim ++
          [{| pd_ProductID := id; pd_Name := name;
              pd_Brand := or_none brand; pd_Category := or_none category |}])%list
  else mret product_dim.

Definition retailer_step (row : gmap string value)
    (retailer_dim : list RetailerDimRecord) : result (list RetailerDimRecord) :=
  rid ← getitem row "RetailerID";
  let unseen := negb (py_in rid (map (λ r, VInt (rd_RetailerID r)) retailer_dim)) in
  name ← getitem row "RetailerName";
  if unseen && truthy name then
    id ← py_int rid;
    channel ← getitem row "Channel";
    location ← getitem row "Location";
    mret (retailer_dim ++
          [{| rd_RetailerID := id; rd_Name := name;
              rd_Channel := or_none channel; rd_Location := or_none location |}])%list
  else mret retailer_dim.

Definition date_step (row : gmap string value)
    (date_dim : list DateDimRecord) : result (list DateDimRecord) :=
  date ← getitem row "Date";
  if negb (py_in date (map dd_Date date_dim)) then
    text ← match date with VStr s => Ok s | _ => Raise AttributeError end;
    let date_parts := split "-" text in
    year ← list_item date_parts 0 ≫= int_of_str;
    month ← list_item date_parts 1 ≫= int_of_str;
    day ← list_item date_parts 2 ≫= int_of_str;
    date_obj ← strptime text;
    let '(y, m, d) := date_obj in
    let quarter := (month - 1) / 3 + 1 in
    let day_of_week := weekday_name y m d in
    let week_of_year := iso_week y m d in
    if negb (year =? 0) && negb (month =? 0) && negb (day =? 0)
       && negb (quarter =? 0) && negb (is_empty day_of_week)
       && negb (week_of_year =? 0)
    then mret (date_dim ++
               [{| dd_Date := date; dd_Day := day; dd_Month := month;
                   dd_Year := year; dd_Quarter := quarter;
                   dd_DayOfWeek := day_of_week;
                   dd_WeekOfYear := week_of_year |}])%list
    else mret date_dim
  else mret date_dim.

Definition sales_step (row : gmap string value)
    (sales_fact : list SalesFactRecord) : result (list SalesFactRecord) :=
  sid ← getitem row "SaleID";
  if negb (py_in sid (map (λ r, VInt (sf_SaleID r)) sales_fact)) then
    sale ← py_int sid;
    product ← getitem row "ProductID" ≫= py_int;
    retailer ← getitem row "RetailerID" ≫= py_int;
    date ← getitem row "Date";
    quantity ← getitem row "Quantity" ≫= py_int;
    price ← getitem row "Price";
    mret (sales_fact ++
          [{| sf_SaleID := sale; sf_ProductID := product;
              sf_RetailerID := retailer; sf_Date := date;
              sf_Quantity := quantity; sf_Price := price |}])%list
  else mret sales_fact.

(** The body of the loop of [transform_data]. *)
Definition transform_row (t : tables) (row : gmap string value) : result tables :=
  p ← product_step row (product_dim t);
  r ← retailer_step row (retailer_dim t);
  d ← date_step row (date_dim t);
  s ← sales_step row (sales_fact t);
  mret {| product_dim := p; retailer_dim := r; date_dim := d; sales_fact := s |}.

Fixpoint transform_loop (rows : list (gmap string value)) (t : tables)
  : result tables :=
  match rows with
  | [] => mret t
  | row :: rows' => t' ← transform_row t row; transform_loop rows' t'
  end.

Definition transform_data (cleaned_data : list (gmap string value))
  : result (list ProductDimRecord * list RetailerDimRecord
            * list DateDimRecord * list SalesFactRecord) :=
  t ← transform_loop cleaned_data no_tables;
  mret (product_dim t, retailer_dim t, date_dim t, sales_fact t).

(** The three stages applied in sequence, from raw rows to the four record
    sets; the file leaves this wiring to its caller. *)
Definition pipeline (hash : identifier → Z) (data : list (gmap string string))
  : result (list ProductDimRecord * list RetailerDimRecord
            * list DateDimRecord * list SalesFactRecord) :=
  cleaned ← clean_data hash data default_id_fields;
  transform_data (validate_data cleaned).

(** ** Notions used to state the properties of the transformer *)

(** The strict shape [YYYY-MM-DD]: four digits, a hyphen, two digits, a
    hyphen, two digits. *)
Definition yyyy_mm_dd_shape (s : string) : bool :=
  match list_ascii_of_string s with
  | [y1; y2; y3; y4; h1; m1; m2; h2; d1; d2] =>
      forallb isdecimal_char [y1; y2; y3; y4; m1; m2; d1; d2]
      && Ascii.eqb h1 "-" && Ascii.eqb h2 "-"
  | _ => false
  end.

(** The Date value is text that [strptime] parses. *)
Definition date_accepted (v : value) : bool :=
  match v with
  | VStr s => is_ok (strptime s)
  | _ => false
  end.

Definition int_field (row : gmap string value) (field : string) : bool :=
  match row !! field with
  | Some v => is_ok (py_int v)
  | None => false
  end.

Definition has_column (row : gmap string value) (field : string) : bool :=
  match row !! field with
  | Some _ => true
  | None => false
  end.

(** The row has every column the transformer reads, and [int] accepts its
    ProductID, RetailerID, SaleID and Quantity. *)
Definition complete_row (row : gmap string value) : bool :=
  forallb (int_field row) ["ProductID"; "RetailerID"; "SaleID"; "Quantity"]
  && forallb (has_column row)
       ["ProductName"; "Brand"; "Category"; "RetailerName"; "Channel";
        "Location"; "Date"; "Price"].

(** ** Notions used to state the properties of the cleaner and validator *)

(** A field is present and not empty: the row has a value for it and that
    value is not one Python counts as empty ([None], [''], a zero). *)
Definition present_nonempty (row : gmap string value) (field : string) : Prop :=
  ∃ v, row !! field = Some v ∧ truthy v = true.

#[global] Instance present_nonempty_dec row field : Decision (present_nonempty row field).
Proof.
  unfold present_nonempty. destruct (row !! field) as [v|] eqn:Hv.
  - destruct (truthy v) eqn:Ht.
    + left. exists v. split; [reflexivity | exact Ht].
    + right. intros (w & Hw & Htw). inversion Hw; subst. congruence.
  - right. intros (w & Hw & _). discriminate Hw.
Defined.

(** A field is present and non-empty as the specification words it: the
    row has a value for it, and the value is neither the absent-value marker
    nor the empty string.  A number is never empty in this reading. *)
Definition present_filled (row : gmap string value) (field : string) : Prop :=
  ∃ v, row !! field = Some v ∧ v ≠ VNone ∧ v ≠ VStr "".

#[global] Instance present_filled_dec row field : Decision (present_filled row field).
Proof.
  unfold present_filled. destruct (row !! field) as [v|] eqn:Hv.
  - destruct (decide (v = VNone)) as [Hn|Hn];
      [right; intros (w & Hw & Hwn & _); inversion Hw; subst; contradiction|].
    destruct (decide (v = VStr "")) as [He|He];
      [right; intros (w & Hw & _ & Hwe); inversion Hw; subst; contradiction|].
    left. exists v. auto.
  - right. intros (w & Hw & _). discriminate Hw.
Defined.

(** The value is a numeric zero: [0], [0.0] or [-0.0]. *)
Definition numeric_zero (v : value) : Prop :=
  match v with
  | VInt 0 => True
  | VFloat (S754_zero _) => True
  | _ => False
  end.

(** No identifier of the row is a numeric zero. *)
Definition no_zero_identifier (row : gmap string value) : Prop :=
  ∀ field v, field ∈ ["ProductID"; "SaleID"; "RetailerID"] →
             row !! field = Some v → ¬ numeric_zero v.

(** A float with a clear sign bit that is a number: [+0.0], a positive
    finite value or [+inf]. *)
Definition plain_float (f : spec_float) : bool :=
  match f with
  | S754_zero false | S754_finite false _ _ | S754_infinity false => true
  | _ => false
  end.

(** The shape of a cleaned value, by column. *)
Inductive cleaned_for : string → value → Prop :=
| cleaned_location_none : cleaned_for "Location" VNone
| cleaned_location s : cleaned_for "Location" (VStr s)
| cleaned_price f : plain_float f = true → cleaned_for "Price" (VFloat f)
| cleaned_date s : cleaned_for "Date" (VStr s)
| cleaned_quantity n : 0 <= n → cleaned_for "Quantity" (VInt n)
| cleaned_other k s :
    k ≠ "Location" → k ≠ "Price" → k ≠ "Date" → k ≠ "Quantity" →
    cleaned_for k (VStr s).

(** Every field-value pair of the identity tuple of a cleaned row. *)
Definition cleaned_items (x : identifier) : Prop :=
  Forall (λ kv, cleaned_for kv.1 kv.2) x.

(** Two records have the same canonical identity. *)
Definition same_identity (a b : gmap string value) : bool :=
  ident_eqb (sorted_items a) (sorted_items b).

(** The records of [l] that are the first of their identity: the record
    at position [i] stays exactly when no record at an earlier position has
    the same canonical identity. *)
Definition first_occurrences (l : list (gmap string value))
  : list (gmap string value) :=
  omap id (imap (λ i r, if existsb (same_identity r) (take i l)
                        then None else Some r) l).

(** The same, for the part [rest] of a list that starts with [pre]. *)
Definition firsts_from (pre rest : list (gmap string value))
  : list (gmap string value) :=
  omap id (imap (λ i r, if existsb (same_identity r)
                             (take (length pre + i) (pre ++ rest)%list)
                        then None else Some r) rest).

(** A record whose identity tuple holds cleaned values only. *)
Definition cleaned_record (c : gmap string value) : Prop :=
  cleaned_items (sorted_items c).

(** The set [seen] holds exactly the identities of the records [done]
    processed so far, each in the bucket of its hash. *)
Definition seen_tracks (hash : identifier → Z) (seen : pyset)
    (done : list (gmap string value)) : Prop :=
  ∀ h y, y ∈ bucket seen h ↔ hash y = h ∧ y ∈ sorted_items <$> done.

(** The field holds a non-negative integer. *)
Definition integer_field (r : gmap string value) (field : string) : Prop :=
  ∃ n, r !! field = Some (VInt n) ∧ 0 <= n.

(** Every date of the date dimension was accepted by [strptime]. *)
Definition dates_accepted (dd : list DateDimRecord) : Prop :=
  Forall (λ d, date_accepted (dd_Date d) = true) dd.

(** ** Sample rows *)

(** A raw row with the twelve columns of the input file. *)
Definition raw_row (sale product retailer product_name retailer_name
                    date quantity price : string) : gmap string string :=
  list_to_map
    [("SaleID", sale); ("ProductID", product); ("RetailerID", retailer);
     ("ProductName", product_name); ("Brand", "Acme"); ("Category", "");
     ("RetailerName", retailer_name); ("Channel", "Online"); ("Location", "");
     ("Date", date); ("Quantity", quantity); ("Price", price)].

(** The hash of a run in which every tuple collides, and one that spreads
    tuples by their number of fields. *)
Definition hash_zero : identifier → Z := λ _, 0.
Definition hash_size : identifier → Z := λ x, Z.of_nat (length x).

(** The one-character string [U+00B2], superscript two. *)
Definition superscript_two : string := String (ascii_of_nat 178) EmptyString.

(** A cleaned record with the same twelve columns. *)
Definition cleaned_row (sale product retailer product_name retailer_name
                        date : string) (quantity : Z) (price : spec_float)
  : gmap string value :=
  list_to_map
    [("SaleID", VStr sale); ("ProductID", VStr product);
     ("RetailerID", VStr retailer); ("ProductName", VStr product_name);
     ("Brand", VStr "Acme"); ("Category", VStr "");
     ("RetailerName", VStr retailer_name); ("Channel", VStr "Online");
     ("Location", VNone); ("Date", VStr date); ("Quantity", VInt quantity);
     ("Price", VFloat price)].

(** The floats 1.0, 5.5 and 9.0. *)
Definition float_1 : spec_float := S754_finite false 4503599627370496 (-52).
Definition float_5_5 : spec_float := S754_finite false 6192449487634432 (-50).
Definition float_9 : spec_float := S754_finite false 5066549580791808 (-49).

(** ** Notions used to state further properties of the cleaner *)

Fixpoint count_char (c : ascii) (s : string) : nat :=
  match s with
  | EmptyString => O
  | String d s' => if Ascii.eqb d c then S (count_char c s') else count_char c s'
  end.

Fixpoint string_exists (p : ascii → bool) (s : string) : bool :=
  match s with
  | EmptyString => false
  | String c s' => p c || string_exists p s'
  end.

(** Decimal digits with at most one point among them, and at least one
    digit. *)
Definition number_text (s : string) : bool :=
  string_forall (λ c, isdecimal_char c || Ascii.eqb c ".") s
  && (count_char "." s <=? 1)%nat
  && string_exists isdecimal_char s.

(** The characters [clean_price] keeps. *)
Definition price_char (c : ascii) : bool := isdigit_char c || Ascii.eqb c ".".

(** Text made of white space only (possibly empty). *)
Definition blank (s : string) : bool := string_forall isspace_char s.

(** The columns of a row. *)
Definition columns {A} (row : gmap string A) : gset string := dom row.

(** ** Notions used to state further properties of the transformer *)

(** The seven names [strftime('%A')] gives. *)
Definition weekday_names : list string :=
  ["Monday"; "Tuesday"; "Wednesday"; "Thursday"; "Friday"; "Saturday"; "Sunday"].

(** An attribute that was passed through [x if x else None]: it is [None]
    or a value that counts as non-empty. *)
Definition null_or_nonempty (v : value) : Prop := v = VNone ∨ truthy v = true.

(** The record the date step derives from the text [s] parsed as
    [(y, m, d)]. *)
Definition date_record (s : string) (y m d : Z) : DateDimRecord :=
  {| dd_Date := VStr s; dd_Day := d; dd_Month := m; dd_Year := y;
     dd_Quarter := (m - 1) / 3 + 1;
     dd_DayOfWeek := weekday_name y m d;
     dd_WeekOfYear := iso_week y m d |}.

(** The product record [p] is built from one of [rows]. *)
Definition product_from (rows : list (gmap string value)) (p : ProductDimRecord)
  : Prop :=
  ∃ row vid brand category,
    row ∈ rows
    ∧ row !! "ProductID" = Some vid ∧ py_int vid = Ok (pd_ProductID p)
    ∧ row !! "ProductName" = Some (pd_Name p) ∧ truthy (pd_Name p) = true
    ∧ row !! "Brand" = Some brand ∧ pd_Brand p = or_none brand
    ∧ row !! "Category" = Some category ∧ pd_Category p = or_none category.

(** The retailer record [r] is built from one of [rows]. *)
Definition retailer_from (rows : list (gmap string value)) (r : RetailerDimRecord)
  : Prop :=
  ∃ row vid channel location,
    row ∈ rows
    ∧ row !! "RetailerID" = Some vid ∧ py_int vid = Ok (rd_RetailerID r)
    ∧ row !! "RetailerName" = Some (rd_Name r) ∧ truthy (rd_Name r) = true
    ∧ row !! "Channel" = Some channel ∧ rd_Channel r = or_none channel
    ∧ row !! "Location" = Some location ∧ rd_Location r = or_none location.

(** The sales fact [f] is built from one of [rows]. *)
Definition sale_from (rows : list (gmap string value)) (f : SalesFactRecord)
  : Prop :=
  ∃ row vs vp vr vq,
    row ∈ rows
    ∧ row !! "SaleID" = Some vs ∧ py_int vs = Ok (sf_SaleID f)
    ∧ row !! "ProductID" = Some vp ∧ py_int vp = Ok (sf_ProductID f)
    ∧ row !! "RetailerID" = Some vr ∧ py_int vr = Ok (sf_RetailerID f)
    ∧ row !! "Date" = Some (sf_Date f)
    ∧ row !! "Quantity" = Some vq ∧ py_int vq = Ok (sf_Quantity f)
    ∧ row !! "Price" = Some (sf_Price f).

(** The date record [r] is the one derived from an accepted date text. *)
Definition derived_date (r : DateDimRecord) : Prop :=
  ∃ s y m d, r = date_record s y m d ∧ strptime s = Ok (y, m, d).

(** A value that is text. *)
Definition is_text (v : value) : Prop := ∃ s, v = VStr s.

(** The row names a product under the integer key [n]. *)
Definition names_product (n : Z) (row : gmap string value) : Prop :=
  row !! "ProductID" = Some (VInt n)
  ∧ ∃ name, row !! "ProductName" = Some name ∧ truthy name = true.

(** ** More sample rows *)

(** A cleaned row whose three keys are integers. *)
Definition integer_row (sale product retailer : Z) (product_name : string)
  : gmap string value :=
  list_to_map
    [("SaleID", VInt sale); ("ProductID", VInt product);
     ("RetailerID", VInt retailer); ("ProductName", VStr product_name);
     ("Brand", VStr "Acme"); ("Category", VStr "");
     ("RetailerName", VStr "Shop"); ("Channel", VStr "Online");
     ("Location", VNone); ("Date", VStr "2024-03-15"); ("Quantity", VInt 1);
     ("Price", VFloat float_5_5)].

Definition product_record (key : Z) (name : string) : ProductDimRecord :=
  {| pd_ProductID := key; pd_Name := VStr name;
     pd_Brand := VStr "Acme"; pd_Category := VNone |}.

Definition retailer_record (key : Z) : RetailerDimRecord :=
  {| rd_RetailerID := key; rd_Name := VStr "Shop";
     rd_Channel := VStr "Online"; rd_Location := VNone |}.

Definition sales_record (sale product retailer : Z) (date : string)
    (quantity : Z) (price : spec_float) : SalesFactRecord :=
  {| sf_SaleID := sale; sf_ProductID := product; sf_RetailerID := retailer;
     sf_Date := VStr date; sf_Quantity := quantity; sf_Price := VFloat price |}.

(** The product record [p] is built from the first of [rows] that names a
    product under its key. *)
Definition product_of_first (rows : list (gmap string value))
    (p : ProductDimRecord) : Prop :=
  ∃ before row after brand category,
    rows = (before ++ row :: after)%list
    ∧ row !! "ProductID" = Some (VInt (pd_ProductID p))
    ∧ row !! "ProductName" = Some (pd_Name p) ∧ truthy (pd_Name p) = true
    ∧ row !! "Brand" = Some brand ∧ pd_Brand p = or_none brand
    ∧ row !! "Category" = Some category ∧ pd_Category p = or_none category
    ∧ ∀ r, r ∈ before → ¬ names_product (pd_ProductID p) r.

(** The sales fact [f] is built from the first of [rows] with its SaleID. *)
Definition sale_of_first (rows : list (gmap string value))
    (f : SalesFactRecord) : Prop :=
  ∃ before row after vp vr vq,
    rows = (before ++ row :: after)%list
    ∧ row !! "SaleID" = Some (VInt (sf_SaleID f))
    ∧ row !! "ProductID" = Some vp ∧ py_int vp = Ok (sf_ProductID f)
    ∧ row !! "RetailerID" = Some vr ∧ py_int vr = Ok (sf_RetailerID f)
    ∧ row !! "Date" = Some (sf_Date f)
    ∧ row !! "Quantity" = Some vq ∧ py_int vq = Ok (sf_Quantity f)
    ∧ row !! "Price" = Some (sf_Price f)
    ∧ ∀ r, r ∈ before → r !! "SaleID" ≠ Some (VInt (sf_SaleID f)).

(** ** The publisher

    [publish_data] talks to PostgreSQL through psycopg2.  The model keeps
    what the code decides: which calls it makes on the library, in which
    order, with which statement text and parameters, and what it still
    does when one of them raises.  The library is a parameter: an
    [outcome] tells, from the calls made so far, whether the next call
    returns or raises. *)

(** A dict as the publisher reads it: its items in insertion order. *)
Definition items : Type := list (string * value).

(** [row.keys()] and [row.values()] *)
Definition row_keys (row : items) : list string := map fst row.
Definition row_values (row : items) : list value := map snd row.

(** [sep.join(parts)] *)
Fixpoint join (sep : string) (parts : list string) : string :=
  match parts with
  | [] => ""
  | [part] => part
  | part :: rest => part ++ sep ++ join sep rest
  end.

(** The statement text [publish_data] builds for one row of [table]. *)
Definition insert_query (table conflict : string) (row : items) : string :=
  let columns := join ", " (row_keys row) in
  let values := join ", " (replicate (length row) "%s") in
  let update_values :=
    join ", " (map (λ key, key ++ " = EXCLUDED." ++ key) (row_keys row)) in
  "INSERT INTO " ++ table ++ " (" ++ columns ++ ") VALUES (" ++ values
  ++ ") ON CONFLICT (" ++ conflict ++ ") DO UPDATE SET " ++ update_values.

(** The dicts [transform_data] makes, with their keys in the order of the
    dict displays. *)
Definition product_items (p : ProductDimRecord) : items :=
  [("ProductID", VInt (pd_ProductID p)); ("Name", pd_Name p);
   ("Brand", pd_Brand p); ("Category", pd_Category p)].

Definition retailer_items (r : RetailerDimRecord) : items :=
  [("RetailerID", VInt (rd_RetailerID r)); ("Name", rd_Name r);
   ("Channel", rd_Channel r); ("Location", rd_Location r)].

Definition date_items (d : DateDimRecord) : items :=
  [("Date", dd_Date d); ("Day", VInt (dd_Day d)); ("Month", VInt (dd_Month d));
   ("Year", VInt (dd_Year d)); ("Quarter", VInt (dd_Quarter d));
   ("DayOfWeek", VStr (dd_DayOfWeek d)); ("WeekOfYear", VInt (dd_WeekOfYear d))].

Definition sales_items (f : SalesFactRecord) : items :=
  [("SaleID", VInt (sf_SaleID f)); ("ProductID", VInt (sf_ProductID f));
   ("RetailerID", VInt (sf_RetailerID f)); ("Date", sf_Date f);
   ("Quantity", VInt (sf_Quantity f)); ("Price", sf_Price f)].

(** [os.getenv(name, default)] *)
Definition getenv (env : gmap string string) (name default : string) : string :=
  match env !! name with
  | Some text => text
  | None => default
  end.

(** The keyword arguments of [psycopg2.connect]. *)
Definition connect_arguments (env : gmap string string) : list (string * string) :=
  [("dbname", getenv env "PGDATABASE" "sales");
   ("user", getenv env "PGUSER" "postgres");
   ("password", getenv env "PGPASSWORD" "postgres");
   ("host", getenv env "PGHOST" "localhost");
   ("port", getenv env "PGPORT" "6543")].

(** The calls on the library: [psycopg2.connect(...)], [conn.cursor()],
    [cur.execute(query, params)], [conn.commit()], the close of the cursor
    when its [with] block is left, and [connection.close()]. *)
Inductive db_call : Type :=
  | Connect (arguments : list (string * string))
  | Cursor
  | Execute (query : string) (params : list value)
  | Commit
  | CursorExit
  | Close.

#[global] Instance db_call_eq_dec : EqDecision db_call.
Proof. solve_decision. Defined.

(** One [cur.execute] of the loops of [publish_data]. *)
Definition execute_row (table conflict : string) (row : items) : db_call :=
  Execute (insert_query table conflict row) (row_values row).

(** The statements of a complete load: one per row, products first, then
    retailers, dates and sales. *)
Definition statements (product_dim retailer_dim date_dim sales_fact : list items)
  : list db_call :=
  (map (execute_row "product_dim" "ProductID") product_dim
   ++ map (execute_row "retailer_dim" "RetailerID") retailer_dim
   ++ map (execute_row "date_dim" "Date") date_dim
   ++ map (execute_row "sales_fact" "SaleID") sales_fact)%list.

Section Publisher.

(** What the library raises, and how it answers a call after the calls of
    [log]: [None] when the call returns. *)
Context {error : Type}.
Variable outcome : list db_call → db_call → option error.
Variable env : gmap string string.

(** A piece of the program: from the calls made so far to the exception it
    ends with, if any, and the calls made then. *)
Definition action : Type := list db_call → option error * list db_call.

Definition call (c : db_call) : action :=
  λ log, (outcome log c, (log ++ [c])%list).

Definition skip : action := λ log, (None, log).

(** [first; second]: [second] runs when [first] has not raised. *)
Definition and_then (first second : action) : action :=
  λ log,
    match first log with
    | (None, log') => second log'
    | (Some e, log') => (Some e, log')
    end.

(** [try: body finally: cleanup], also the exit of a [with] block: the
    clean-up runs in any case, and an exception of its own replaces the one
    of the body. *)
Definition finally (body cleanup : action) : action :=
  λ log,
    match body log with
    | (raised, log') =>
        match cleanup log' with
        | (None, log'') => (raised, log'')
        | (Some e, log'') => (Some e, log'')
        end
    end.

(** [for row in rows: body(row)] *)
Fixpoint for_each {A} (body : A → action) (rows : list A) : action :=
  match rows with
  | [] => skip
  | row :: rest => and_then (body row) (for_each body rest)
  end.

(** [with database_connection() as conn: body] *)
Definition database_connection (body : action) : action :=
  and_then (call (Connect (connect_arguments env))) (finally body (call Close)).

Definition publish_data (product_dim retailer_dim date_dim sales_fact : list items)
  : action :=
  database_connection
    (and_then (call Cursor)
       (finally
          (and_then
             (for_each (λ row, call (execute_row "product_dim" "ProductID" row))
                product_dim)
          (and_then
             (for_each (λ row, call (execute_row "retailer_dim" "RetailerID" row))
                retailer_dim)
          (and_then
             (for_each (λ row, call (execute_row "date_dim" "Date" row)) date_dim)
          (and_then
             (for_each (λ row, call (execute_row "sales_fact" "SaleID" row))
                sales_fact)
             (call Commit)))))
          (call CursorExit))).

(** Each call of [calls], made in turn after [log], returns. *)
Definition all_return (log calls : list db_call) : Prop :=
  ∀ before c after, calls = (before ++ c :: after)%list →
                    outcome (log ++ before)%list c = None.

(** The calls of a run in which nothing raises. *)
Definition complete_run (product_dim retailer_dim date_dim sales_fact : list items)
  : list db_call :=
  ([Connect (connect_arguments env); Cursor]
   ++ statements product_dim retailer_dim date_dim sales_fact
   ++ [Commit; CursorExit; Close])%list.

End Publisher.

(** What psycopg2 raises. *)
Inductive psycopg2_error : Type := DatabaseError.

(** A library in which the [n]-th call raises (counting from 0) and every
    other call returns. *)
Definition fails_at (n : nat) : list db_call → db_call → option psycopg2_error :=
  λ log _, if (length log =? n)%nat then Some DatabaseError else None.

(** A library in which every call returns. *)
Definition never_fails : list db_call → db_call → option psycopg2_error :=
  λ _ _, None.

(** The call is a [cur.execute]. *)
Definition is_execute (c : db_call) : Prop :=
  match c with Execute _ _ => True | _ => False end.

#[global] Instance is_execute_dec (c : db_call) : Decision (is_execute c).
Proof. destruct c; simpl; apply _. Defined.

(** * Properties *)

(** ** The exception monad *)

Lemma bind_Ok {A B} (f : A → result B) (a : A) : (Ok a ≫= f) = f a.
Proof. reflexivity. Qed.

Lemma bind_Raise {A B} (f : A → result B) (e : exn) : (Raise e ≫= f) = Raise e.
Proof. reflexivity. Qed.

Lemma bind_is_Ok {A B} (f : A → result B) (m : result A) (b : B) :
  (m ≫= f) = Ok b ↔ ∃ a, m = Ok a ∧ f a = Ok b.
Proof.
  destruct m as [a|e]; simpl; split.
  - intros H. exists a. split; [reflexivity | exact H].
  - intros (a' & Ha & Hf). inversion Ha; subst. exact Hf.
  - intros H. discriminate H.
  - intros (a' & Ha & _). discriminate Ha.
Qed.

Lemma mapM_Ok_Forall2 {A B} (f : A → result B) (l : list A) (k : list B) :
  mapM f l = Ok k ↔ Forall2 (λ x y, f x = Ok y) l k.
Proof.
  revert k. induction l as [|x l IH]; intros k; simpl.
  - split.
    + intros H. inversion H. constructor.
    + intros H. inversion H. reflexivity.
  - split.
    + intros H. apply bind_is_Ok in H as (y & Hy & H).
      apply bind_is_Ok in H as (k' & Hk' & H). inversion H; subst.
      constructor; [exact Hy | apply IH, Hk'].
    + intros H. inversion H as [|? y ? k' Hy Hk']; subst.
      apply IH in Hk'. rewrite Hy. simpl. rewrite Hk'. reflexivity.
Qed.

(** Closed equations between results are settled by evaluating their
    decision procedure. *)
Ltac by_evaluation := apply (bool_decide_eq_true_1 _); vm_compute; reflexivity.

(** ** Characters *)

Lemma ascii_eqb_code (a b : ascii) : Ascii.eqb a b = (code a =? code b).
Proof.
  destruct (Ascii.eqb_spec a b) as [->|Hne].
  - symmetry. apply Z.eqb_refl.
  - symmetry. apply Z.eqb_neq. intros H. apply Hne.
    unfold code in H. apply N2Z.inj in H.
    rewrite <- (ascii_N_embedding a), <- (ascii_N_embedding b). congruence.
Qed.

Ltac char_facts :=
  unfold isdigit_char, isdecimal_char, isspace_char, int_space_char in *;
  rewrite ?ascii_eqb_code in *;
  repeat match goal with
         | H : _ && _ = true |- _ => apply andb_true_iff in H; destruct H
         | H : _ || _ = true |- _ => apply orb_true_iff in H; destruct H
         | H : (_ <=? _) = true |- _ => apply Z.leb_le in H
         | H : (_ =? _) = true |- _ => apply Z.eqb_eq in H
         end.

Ltac bool_to_Z :=
  repeat match goal with
         | |- _ && _ = false => apply andb_false_iff
         | |- _ || _ = false => apply orb_false_iff; split
         | |- _ && _ = true => apply andb_true_iff; split
         | |- (_ <=? _) = true => apply Z.leb_le
         | |- (_ <=? _) = false => apply Z.leb_gt
         | |- (_ =? _) = false => apply Z.eqb_neq
         | |- (_ =? _) = true => apply Z.eqb_eq
         end.

Lemma digit_not_space (c : ascii) : isdigit_char c = true → isspace_char c = false.
Proof.
  intros H. char_facts; unfold isspace_char; bool_to_Z; lia.
Qed.

Lemma decimal_not_int_space (c : ascii) :
  isdecimal_char c = true → int_space_char c = false.
Proof.
  intros H. char_facts. unfold int_space_char. bool_to_Z; lia.
Qed.

Lemma decimal_is_digit (c : ascii) : isdecimal_char c = true → isdigit_char c = true.
Proof. intros H. unfold isdigit_char. fold (isdecimal_char c). rewrite H. reflexivity. Qed.

Lemma decimal_digit_value (c : ascii) : isdecimal_char c = true → 0 <= digit_value c <= 9.
Proof. intros H. char_facts. unfold digit_value. lia. Qed.

(** ** Strings *)

Lemma string_forall_impl (p q : ascii → bool) (s : string) :
  (∀ c, p c = true → q c = true) → string_forall p s = true → string_forall q s = true.
Proof.
  intros Hpq. induction s as [|c s IH]; simpl; [reflexivity|].
  intros H. apply andb_true_iff in H as [Hc Hs].
  rewrite (Hpq c Hc). simpl. apply IH, Hs.
Qed.

Lemma lstrip_with_id (p : ascii → bool) (s : string) :
  string_forall (λ c, negb (p c)) s = true → lstrip_with p s = s.
Proof.
  destruct s as [|c s]; simpl; [reflexivity|].
  intros H. apply andb_true_iff in H as [Hc _].
  apply negb_true_iff in Hc. rewrite Hc. reflexivity.
Qed.

Lemma rstrip_with_id (p : ascii → bool) (s : string) :
  string_forall (λ c, negb (p c)) s = true → rstrip_with p s = s.
Proof.
  induction s as [|c s IH]; simpl; [reflexivity|].
  intros H. apply andb_true_iff in H as [Hc Hs].
  apply negb_true_iff in Hc. rewrite Hc, andb_false_r, (IH Hs). reflexivity.
Qed.

Lemma strip_digits (s : string) : string_forall isdigit_char s = true → strip s = s.
Proof.
  intros H. unfold strip.
  assert (Hn : string_forall (λ c, negb (isspace_char c)) s = true).
  { revert H. apply string_forall_impl. intros c Hc.
    rewrite (digit_not_space c Hc). reflexivity. }
  rewrite (lstrip_with_id _ _ Hn). apply rstrip_with_id, Hn.
Qed.

Lemma string_forall_filter (p : ascii → bool) (s : string) :
  string_forall p (string_filter p s) = true.
Proof.
  induction s as [|c s IH]; simpl; [reflexivity|].
  destruct (p c) eqn:Hc; simpl; [rewrite Hc|]; exact IH.
Qed.

(** ** The two filtering loops are filters *)

Lemma filter_loop_spec (ids : list string) (data acc : list (gmap string string)) :
  filter_loop ids data acc = (acc ++ List.filter (valid_row ids) data)%list.
Proof.
  revert acc. induction data as [|row data IH]; intros acc; simpl.
  - symmetry. apply app_nil_r.
  - destruct (valid_row ids row); rewrite IH; [|reflexivity].
    rewrite <- app_assoc. reflexivity.
Qed.

Lemma structural_filter_spec (ids : list string) (data : list (gmap string string)) :
  structural_filter ids data = List.filter (valid_row ids) data.
Proof. unfold structural_filter. rewrite filter_loop_spec. reflexivity. Qed.

Lemma validate_loop_spec (data acc : list (gmap string value)) :
  validate_loop data acc
  = (acc ++ List.filter (λ row, has_fields row ["ProductID"; "SaleID"; "RetailerID"]) data)%list.
Proof.
  revert acc. induction data as [|row data IH]; intros acc.
  - simpl. symmetry. apply app_nil_r.
  - cbn [validate_loop List.filter].
    destruct (has_fields row _); rewrite IH; [|reflexivity].
    rewrite <- app_assoc. reflexivity.
Qed.

Lemma has_fields_spec (row : gmap string value) (fields : list string) :
  has_fields row fields = true ↔ ∀ f, f ∈ fields → present_nonempty row f.
Proof.
  induction fields as [|f fields IH]; simpl.
  - split; [|reflexivity]. intros _ f Hf. inversion Hf.
  - destruct (row !! f) as [v|] eqn:Hv.
    + destruct (truthy v) eqn:Ht; simpl.
      * rewrite IH. split.
        -- intros H g Hg. apply elem_of_cons in Hg as [->|Hg]; [|auto].
           exists v. auto.
        -- intros H g Hg. apply H. apply elem_of_cons. auto.
      * split; [discriminate|]. intros H.
        destruct (H f) as (w & Hw & Htw); [apply elem_of_cons; auto|].
        congruence.
    + split; [discriminate|]. intros H.
      destruct (H f) as (w & Hw & _); [apply elem_of_cons; auto|]. congruence.
Qed.

Lemma check_fields_spec (ids : list string) (row : gmap string string)
    (todo : list string) :
  todo ⊆ ids →
  check_fields ids row todo = true
  ↔ ∀ f, f ∈ todo → ∃ v, row !! f = Some v ∧ isdigit v = true.
Proof.
  induction todo as [|f todo IH]; intros Hsub; simpl.
  - split; [|reflexivity]. intros _ f Hf. inversion Hf.
  - assert (Hin : existsb (String.eqb f) ids = true).
    { apply existsb_exists. exists f. split; [|apply String.eqb_refl].
      apply list_elem_of_In, Hsub, elem_of_cons. auto. }
    assert (Hsub' : todo ⊆ ids).
    { intros g Hg. apply Hsub, elem_of_cons. auto. }
    rewrite Hin. simpl.
    destruct (row !! f) as [v|] eqn:Hv.
    + destruct v as [|c v]; simpl.
      * split; [discriminate|]. intros H.
        destruct (H f) as (w & Hw & Hd); [apply elem_of_cons; auto|].
        rewrite Hv in Hw. inversion Hw; subst. discriminate Hd.
      * destruct (isdigit (String c v)) eqn:Hd; simpl negb; cbv iota.
        -- rewrite (IH Hsub'). split.
           ++ intros H g Hg. apply elem_of_cons in Hg as [->|Hg]; [|auto].
              exists (String c v). split; [exact Hv | exact Hd].
           ++ intros H g Hg. apply H, elem_of_cons. auto.
        -- split; [discriminate|]. intros H.
           destruct (H f) as (w & Hw & Hdw); [apply elem_of_cons; auto|].
           rewrite Hv in Hw. inversion Hw; subst. congruence.
    + split; [discriminate|]. intros H.
      destruct (H f) as (w & Hw & _); [apply elem_of_cons; auto|]. congruence.
Qed.

(** A row passes the structural filter exactly when every identifier field
    is present and passes [isdigit]. *)
Lemma valid_row_spec (ids : list string) (row : gmap string string) :
  valid_row ids row = true
  ↔ ∀ f, f ∈ ids → ∃ v, row !! f = Some v ∧ isdigit v = true.
Proof. apply check_fields_spec. intros f Hf. exact Hf. Qed.

(** ** Rounding to binary64 never yields a sign or a NaN *)

Lemma iter_pos_preserves {A} (P : A → Prop) (f : A → A) :
  (∀ x, P x → P (f x)) → ∀ p x, P x → P (SpecFloat.iter_pos f p x).
Proof.
  intros Hf. induction p as [p IH|p IH|]; intros x Hx; simpl; auto.
Qed.

Lemma shr_1_nonneg (mrs : shr_record) : 0 <= shr_m mrs → 0 <= shr_m (shr_1 mrs).
Proof.
  destruct mrs as [m r s]. destruct m as [|[p|p|]|[p|p|]]; simpl; lia.
Qed.

Lemma shr_nonneg (mrs : shr_record) (e n : Z) :
  0 <= shr_m mrs → 0 <= shr_m (fst (shr mrs e n)).
Proof.
  intros H. destruct n as [|p|p]; simpl; try exact H.
  apply (iter_pos_preserves (λ x, 0 <= shr_m x)); [apply shr_1_nonneg | exact H].
Qed.

Lemma shr_fexp_nonneg (m e : Z) (l : location) :
  0 <= m → 0 <= shr_m (fst (shr_fexp prec64 emax64 m e l)).
Proof.
  intros H. unfold shr_fexp. apply shr_nonneg.
  destruct l as [|[]]; exact H.
Qed.

Lemma round_nearest_even_nonneg (m : Z) (l : location) :
  0 <= m → 0 <= round_nearest_even m l.
Proof.
  intros H. destruct l as [|[]]; simpl; try lia. destruct (Z.even m); lia.
Qed.

Lemma binary_round_aux_plain (q e : Z) (l : location) :
  0 <= q → plain_float (binary_round_aux prec64 emax64 false q e l) = true.
Proof.
  intros Hq. unfold binary_round_aux.
  pose proof (shr_fexp_nonneg q e l Hq) as H1.
  destruct (shr_fexp prec64 emax64 q e l) as [mrs' e'].
  simpl in H1.
  pose proof (shr_fexp_nonneg _ e' loc_Exact
                (round_nearest_even_nonneg _ (loc_of_shr_record mrs') H1)) as H2.
  destruct (shr_fexp prec64 emax64 _ e' loc_Exact) as [mrs'' e''].
  simpl in H2. destruct (shr_m mrs'') as [|p|p]; [reflexivity| |lia].
  destruct (e'' <=? emax64 - prec64); reflexivity.
Qed.

Lemma round_decimal_plain (m k : Z) : 0 <= m → plain_float (round_decimal m k) = true.
Proof.
  intros Hm. unfold round_decimal, SFdiv_core_binary.
  set (s := 0 - 0 - _).
  set (m' := match s with Z.pos _ => Z.shiftl m s | 0 => m | Z.neg _ => 0 end).
  assert (Hm' : 0 <= m').
  { subst m'. destruct s; [exact Hm | apply Z.shiftl_nonneg, Hm | lia]. }
  pose proof (Z_div_nonneg_nonneg m' (10 ^ k) Hm') as Hq.
  unfold Z.div in Hq. destruct (Z.div_eucl m' (10 ^ k)) as [q r].
  apply binary_round_aux_plain, Hq. apply Z.pow_nonneg. lia.
Qed.

Lemma scan_decimal_nonneg (s : string) (dot : bool) (m k : Z) (any : bool) (m' k' : Z) :
  0 <= m → scan_decimal s dot m k any = Some (m', k') → 0 <= m'.
Proof.
  revert dot m k any. induction s as [|c s IH]; intros dot m k any Hm; simpl.
  - destruct any; [|discriminate]. intros H. inversion H; subst. exact Hm.
  - destruct (isdecimal_char c) eqn:Hc.
    + apply IH. pose proof (decimal_digit_value c Hc). lia.
    + destruct (Ascii.eqb c "." && negb dot); [|discriminate]. apply IH, Hm.
Qed.

Lemma float_of_str_plain (s : string) (f : spec_float) :
  float_of_str s = Ok f → plain_float f = true.
Proof.
  unfold float_of_str.
  destruct (scan_decimal s false 0 0 false) as [[m k]|] eqn:Hs; [|discriminate].
  intros H. inversion H; subst. apply round_decimal_plain.
  eapply scan_decimal_nonneg; [|exact Hs]. lia.
Qed.

Lemma plain_float_nonneg (f : spec_float) :
  plain_float f = true → SFleb (S754_zero false) f = true.
Proof. destruct f as [[]|[]| |[] m e]; simpl; intros H; try discriminate; reflexivity. Qed.

Lemma SFeqb_plain_eq (f g : spec_float) :
  plain_float f = true → plain_float g = true → SFeqb f g = true → f = g.
Proof.
  destruct f as [[]|[]| |[] m e]; simpl; try discriminate;
    destruct g as [[]|[]| |[] m' e']; simpl; try discriminate; intros _ _; try reflexivity.
  unfold SFeqb, SFcompare.
  destruct (e ?= e') eqn:He; try discriminate.
  apply Z.compare_eq in He. subst e'.
  destruct (Pos.compare_cont Eq m m') eqn:Hm; try discriminate.
  apply Pos.compare_eq in Hm. subst m'. reflexivity.
Qed.

Lemma SFeqb_plain_refl (f : spec_float) : plain_float f = true → SFeqb f f = true.
Proof.
  destruct f as [[]|[]| |[] m e]; simpl; try discriminate; intros _; try reflexivity.
  unfold SFeqb, SFcompare. rewrite Z.compare_refl.
  change (Pos.compare_cont Eq m m) with (m ?= m)%positive.
  rewrite Pos.compare_refl. reflexivity.
Qed.

(** ** What the field cleaners return *)

Lemma clean_price_plain (s : string) (v : value) :
  clean_price s = Ok v → ∃ f, v = VFloat f ∧ plain_float f = true.
Proof.
  unfold clean_price.
  destruct (negb (is_empty _)).
  - destruct (float_of_str _) as [f|e] eqn:Hf; simpl; [|discriminate].
    intros H. inversion H; subst. exists f. split; [reflexivity|].
    eapply float_of_str_plain, Hf.
  - intros H. inversion H; subst. exists (S754_zero false). split; reflexivity.
Qed.

Lemma clean_quantity_nonneg (s : string) : ∃ n, clean_quantity s = VInt n ∧ 0 <= n.
Proof.
  unfold clean_quantity. destruct (int_of_str s) as [n|e].
  - destruct (0 <=? n) eqn:Hn.
    + exists n. split; [reflexivity | apply Z.leb_le, Hn].
    + exists 0. split; [reflexivity | lia].
  - exists 0. split; [reflexivity | lia].
Qed.

Lemma clean_value_cleaned (k s : string) (v : value) :
  clean_value k s = Ok v → cleaned_for k v.
Proof.
  unfold clean_value.
  destruct (String.eqb_spec k "Location") as [->|H1].
  { intros H. inversion H; subst. unfold clean_location.
    destruct (is_empty s); constructor. }
  destruct (String.eqb_spec k "Price") as [->|H2].
  { intros H. apply clean_price_plain in H as (f & -> & Hf). constructor. exact Hf. }
  destruct (String.eqb_spec k "Date") as [->|H3].
  { intros H. inversion H; subst. unfold clean_date.
    destruct (string_mem _ s); constructor. }
  destruct (String.eqb_spec k "Quantity") as [->|H4].
  { intros H. inversion H; subst.
    destruct (clean_quantity_nonneg s) as (n & -> & Hn). constructor. exact Hn. }
  intros H. inversion H; subst. constructor; assumption.
Qed.

Lemma clean_value_other (k s : string) :
  k ≠ "Location" → k ≠ "Price" → k ≠ "Date" → k ≠ "Quantity" →
  clean_value k s = Ok (VStr s).
Proof.
  intros H1 H2 H3 H4. unfold clean_value.
  destruct (String.eqb_spec k "Location"); [contradiction|].
  destruct (String.eqb_spec k "Price"); [contradiction|].
  destruct (String.eqb_spec k "Date"); [contradiction|].
  destruct (String.eqb_spec k "Quantity"); [contradiction|].
  reflexivity.
Qed.

(** On two cleaned values of one column, [==] is equality. *)
Lemma py_eq_cleaned (k : string) (v w : value) :
  cleaned_for k v → cleaned_for k w → py_eq v w = true → v = w.
Proof.
  intros Hv Hw Heq.
  destruct Hv; inversion Hw; subst; simpl in Heq;
    try discriminate; try congruence;
    try (apply String.eqb_eq in Heq; congruence);
    try (apply Z.eqb_eq in Heq; congruence).
  f_equal. apply SFeqb_plain_eq; assumption.
Qed.

Lemma py_eq_cleaned_refl (k : string) (v : value) : cleaned_for k v → py_eq v v = true.
Proof.
  intros Hv. destruct Hv; simpl; try reflexivity;
    try apply String.eqb_refl.
  - apply SFeqb_plain_refl. assumption.
  - apply Z.eqb_refl.
Qed.

(** ** Dictionary comprehensions *)

Lemma comprehension_fold_lookup {A B} (f : string → A → result B)
    (l : list (string * A)) (r : gmap string B) :
  NoDup l.*1 →
  comprehension_items f l = Ok r →
  ∀ k b, r !! k = Some b ↔ ∃ a, (k, a) ∈ l ∧ f k a = Ok b.
Proof.
  revert r. induction l as [|[k0 a0] l IH]; intros r Hnd; simpl.
  - intros H k b. inversion H; subst. rewrite lookup_empty. split; [discriminate|].
    intros (a & Ha & _). inversion Ha.
  - intros H. apply bind_is_Ok in H as (b0 & Hb0 & H).
    apply bind_is_Ok in H as (r' & Hr' & H). inversion H; subst. clear H.
    apply NoDup_cons in Hnd as [Hnotin Hnd].
    specialize (IH r' Hnd Hr'). intros k b.
    destruct (decide (k0 = k)) as [->|Hne].
    + rewrite lookup_insert_eq. split.
      * intros Hb. inversion Hb; subst. exists a0. split; [left | exact Hb0].
      * intros (a & Ha & Hfa). apply elem_of_cons in Ha as [Ha|Ha].
        -- inversion Ha; subst. congruence.
        -- exfalso. apply Hnotin. apply list_elem_of_fmap. exists (k, a). auto.
    + rewrite lookup_insert_ne by exact Hne. rewrite IH. split.
      * intros (a & Ha & Hfa). exists a. split; [right; exact Ha | exact Hfa].
      * intros (a & Ha & Hfa). apply elem_of_cons in Ha as [Ha|Ha].
        -- inversion Ha; subst. contradiction.
        -- exists a. auto.
Qed.

Lemma dict_comprehension_lookup {A B} (f : string → A → result B)
    (row : gmap string A) (r : gmap string B) :
  dict_comprehension f row = Ok r →
  ∀ k b, r !! k = Some b ↔ ∃ a, row !! k = Some a ∧ f k a = Ok b.
Proof.
  intros H k b. unfold dict_comprehension in H.
  rewrite (comprehension_fold_lookup f _ r (NoDup_fst_map_to_list row) H k b).
  split; intros (a & Ha & Hf); exists a; (split; [|exact Hf]);
    apply elem_of_map_to_list; exact Ha.
Qed.

Lemma comprehension_fold_total {A B} (f : string → A → result B)
    (l : list (string * A)) :
  (∀ k a, (k, a) ∈ l → is_ok (f k a) = true) →
  is_ok (comprehension_items f l) = true.
Proof.
  induction l as [|[k0 a0] l IH]; intros Hall; simpl; [reflexivity|].
  pose proof (Hall k0 a0 ltac:(left)) as H0.
  destruct (f k0 a0) as [b0|e]; [|discriminate]. simpl.
  assert (Hl : ∀ k a, (k, a) ∈ l → is_ok (f k a) = true).
  { intros k a Hka. apply Hall. right. exact Hka. }
  specialize (IH Hl). destruct (comprehension_items f l); [reflexivity | discriminate].
Qed.

Lemma dict_comprehension_total {A B} (f : string → A → result B) (row : gmap string A) :
  (∀ k a, row !! k = Some a → is_ok (f k a) = true) →
  is_ok (dict_comprehension f row) = true.
Proof.
  intros H. apply comprehension_fold_total. intros k a Hka.
  apply H. apply elem_of_map_to_list. exact Hka.
Qed.

(** ** Cleaned rows *)

Lemma clean_row_lookup (row : gmap string string) (c : gmap string value) :
  clean_row row = Ok c →
  ∀ k v, c !! k = Some v ↔ ∃ s, row !! k = Some s ∧ clean_value k (strip s) = Ok v.
Proof.
  intros H k v. unfold clean_row in H.
  rewrite (dict_comprehension_lookup _ _ _ H k v). rewrite lookup_fmap.
  split.
  - intros (a & Ha & Hf). destruct (row !! k) as [s|]; [|discriminate].
    simpl in Ha. inversion Ha; subst. exists s. auto.
  - intros (s & Hs & Hf). exists (strip s). rewrite Hs. auto.
Qed.

Lemma sorted_items_cleaned (row : gmap string string) (c : gmap string value) :
  clean_row row = Ok c → cleaned_items (sorted_items c).
Proof.
  intros H. unfold cleaned_items, sorted_items.
  rewrite (merge_sort_Permutation item_le (map_to_list c)).
  apply Forall_forall. intros [k v] Hkv. simpl.
  apply elem_of_map_to_list in Hkv.
  apply (clean_row_lookup row c H) in Hkv as (s & _ & Hs).
  eapply clean_value_cleaned, Hs.
Qed.

Lemma ident_eqb_cleaned_eq (a b : identifier) :
  cleaned_items a → cleaned_items b → ident_eqb a b = true → a = b.
Proof.
  intros Ha. revert b. induction Ha as [|[k v] a Hkv Ha IH]; intros b Hb; simpl.
  - destruct b; [reflexivity | discriminate].
  - destruct Hb as [|[k' v'] b Hkv' Hb]; [discriminate|]. simpl in *.
    intros H. apply andb_true_iff in H as [H Hab].
    apply andb_true_iff in H as [Hk Hv].
    apply String.eqb_eq in Hk. subst k'.
    rewrite (py_eq_cleaned k v v' Hkv Hkv' Hv), (IH b Hb Hab). reflexivity.
Qed.

Lemma ident_eqb_cleaned_refl (a : identifier) : cleaned_items a → ident_eqb a a = true.
Proof.
  intros Ha. induction Ha as [|[k v] a Hkv Ha IH]; simpl; [reflexivity|].
  simpl in Hkv. rewrite String.eqb_refl, (py_eq_cleaned_refl k v Hkv), IH. reflexivity.
Qed.

(** ** Deduplication *)

Lemma firsts_from_nil (l : list (gmap string value)) :
  firsts_from [] l = first_occurrences l.
Proof. reflexivity. Qed.

Lemma firsts_from_cons (pre : list (gmap string value)) r rest :
  firsts_from pre (r :: rest)
  = ((if existsb (same_identity r) pre then [] else [r])
       ++ firsts_from (pre ++ [r]) rest)%list.
Proof.
  unfold firsts_from. rewrite imap_cons. cbn [omap list_omap].
  rewrite Nat.add_0_r, take_app_length.
  assert (Htl : imap ((λ i r0, if existsb (same_identity r0)
                                   (take (length pre + i) (pre ++ r :: rest)%list)
                               then None else Some r0) ∘ S) rest
              = imap (λ i r0, if existsb (same_identity r0)
                                   (take (length (pre ++ [r]) + i)
                                         ((pre ++ [r]) ++ rest)%list)
                              then None else Some r0) rest).
  { apply imap_ext. intros i x _. simpl.
    rewrite length_app. simpl length.
    rewrite <- app_assoc. simpl app.
    replace (length pre + S i)%nat with (length pre + 1 + i)%nat by lia.
    reflexivity. }
  rewrite Htl. destruct (existsb (same_identity r) pre); reflexivity.
Qed.

Lemma firsts_from_sublist (pre rest : list (gmap string value)) :
  sublist (firsts_from pre rest) rest.
Proof.
  revert pre. induction rest as [|r rest IH]; intros pre.
  - constructor.
  - rewrite firsts_from_cons. destruct (existsb (same_identity r) pre); simpl.
    + apply sublist_cons, IH.
    + apply sublist_skip, IH.
Qed.

Lemma first_occurrences_sublist (l : list (gmap string value)) :
  sublist (first_occurrences l) l.
Proof. rewrite <- firsts_from_nil. apply firsts_from_sublist. Qed.

Lemma same_identity_cleaned (a b : gmap string value) :
  cleaned_record a → cleaned_record b →
  same_identity a b = true ↔ sorted_items a = sorted_items b.
Proof.
  intros Ha Hb. unfold same_identity. split.
  - apply ident_eqb_cleaned_eq; assumption.
  - intros ->. apply ident_eqb_cleaned_refl, Hb.
Qed.

Lemma sorted_items_inj (a b : gmap string value) :
  sorted_items a = sorted_items b → a = b.
Proof.
  intros H. apply map_to_list_inj.
  rewrite <- (merge_sort_Permutation item_le (map_to_list a)).
  rewrite <- (merge_sort_Permutation item_le (map_to_list b)).
  unfold sorted_items in H. rewrite H. reflexivity.
Qed.

Lemma existsb_same_identity (c : gmap string value) (l : list (gmap string value)) :
  cleaned_record c → Forall cleaned_record l →
  existsb (same_identity c) l = true ↔ sorted_items c ∈ sorted_items <$> l.
Proof.
  intros Hc Hl. rewrite existsb_exists, list_elem_of_fmap. split.
  - intros (d & Hd & Hs). exists d. apply list_elem_of_In in Hd.
    split; [|exact Hd]. apply same_identity_cleaned; try assumption.
    eapply Forall_forall in Hl; [exact Hl | exact Hd].
  - intros (d & Hs & Hd). exists d. split; [apply list_elem_of_In, Hd|].
    apply same_identity_cleaned; try assumption.
    eapply Forall_forall in Hl; [exact Hl | exact Hd].
Qed.

Lemma firsts_from_identities (pre rest : list (gmap string value)) :
  Forall cleaned_record pre → Forall cleaned_record rest →
  NoDup (sorted_items <$> firsts_from pre rest)
  ∧ (∀ x, x ∈ firsts_from pre rest → sorted_items x ∉ sorted_items <$> pre)
  ∧ (∀ x, x ∈ rest →
       sorted_items x ∈ (sorted_items <$> pre ++ firsts_from pre rest)%list).
Proof.
  revert pre. induction rest as [|r rest IH]; intros pre Hpre Hrest.
  - split; [constructor|]. split; intros x Hx; inversion Hx.
  - apply Forall_cons in Hrest as [Hr Hrest].
    assert (Hpre' : Forall cleaned_record (pre ++ [r])).
    { apply Forall_app. split; [exact Hpre|]. constructor; [exact Hr | constructor]. }
    destruct (IH (pre ++ [r])%list Hpre' Hrest) as (Hnd & Hfresh & Hcov).
    rewrite firsts_from_cons.
    pose proof (existsb_same_identity r pre Hr Hpre) as Hex.
    destruct (existsb (same_identity r) pre) eqn:Hb; simpl app.
    + split; [exact Hnd|]. split.
      * intros x Hx Hin. apply (Hfresh x Hx).
        rewrite fmap_app. apply elem_of_app. left. exact Hin.
      * intros x Hx. apply elem_of_cons in Hx as [->|Hx].
        -- rewrite fmap_app. apply elem_of_app. left. apply Hex. reflexivity.
        -- specialize (Hcov x Hx). rewrite !fmap_app in Hcov. rewrite fmap_app.
           apply elem_of_app in Hcov as [Hcov|Hcov]; [|apply elem_of_app; auto].
           apply elem_of_app in Hcov as [Hcov|Hcov]; [apply elem_of_app; auto|].
           simpl in Hcov. apply list_elem_of_singleton in Hcov. rewrite Hcov.
           apply elem_of_app. left. apply Hex. reflexivity.
    + assert (Hnot : sorted_items r ∉ sorted_items <$> pre).
      { intros Hin. apply Hex in Hin. discriminate. }
      split; [|split].
      * rewrite fmap_cons. apply NoDup_cons. split; [|exact Hnd].
        intros Hin. apply list_elem_of_fmap in Hin as (x & Hx & Hin).
        apply (Hfresh x Hin). rewrite fmap_app. apply elem_of_app. right.
        simpl. rewrite <- Hx. left.
      * intros x Hx. apply elem_of_cons in Hx as [->|Hx]; [exact Hnot|].
        intros Hin. apply (Hfresh x Hx).
        rewrite fmap_app. apply elem_of_app. left. exact Hin.
      * intros x Hx. rewrite fmap_app, fmap_cons.
        apply elem_of_cons in Hx as [->|Hx].
        -- apply elem_of_app. right. left.
        -- specialize (Hcov x Hx). rewrite !fmap_app in Hcov.
           apply elem_of_app in Hcov as [Hcov|Hcov].
           ++ apply elem_of_app in Hcov as [Hcov|Hcov]; [apply elem_of_app; auto|].
              simpl in Hcov. apply list_elem_of_singleton in Hcov. rewrite Hcov.
              apply elem_of_app. right. left.
           ++ apply elem_of_app. right. right. exact Hcov.
Qed.

(** ** The deduplicating loop of [clean_data] *)

Section CleanerFacts.

Variable hash : identifier → Z.

Lemma seen_tracks_empty : seen_tracks hash ∅ [].
Proof.
  intros h y. unfold bucket. rewrite lookup_empty. simpl. split.
  - intros H. inversion H.
  - intros [_ H]. inversion H.
Qed.

Lemma pyset_mem_tracks (seen : pyset) (done : list (gmap string value))
    (c : gmap string value) :
  seen_tracks hash seen done → cleaned_record c → Forall cleaned_record done →
  pyset_mem hash (sorted_items c) seen = existsb (same_identity c) done.
Proof.
  intros Ht Hc Hd. apply eq_true_iff_eq.
  rewrite (existsb_same_identity c done Hc Hd).
  unfold pyset_mem. rewrite existsb_exists. split.
  - intros (y & Hy & Heq). apply list_elem_of_In, Ht in Hy as [_ Hy].
    assert (Hcy : cleaned_items y).
    { apply list_elem_of_fmap in Hy as (d & -> & Hdin).
      eapply Forall_forall in Hd; [exact Hd | exact Hdin]. }
    rewrite (ident_eqb_cleaned_eq _ _ Hc Hcy Heq). exact Hy.
  - intros Hin. exists (sorted_items c). split.
    + apply list_elem_of_In, Ht. split; [reflexivity | exact Hin].
    + apply ident_eqb_cleaned_refl, Hc.
Qed.

Lemma seen_tracks_add (seen : pyset) (done : list (gmap string value))
    (c : gmap string value) :
  seen_tracks hash seen done →
  pyset_mem hash (sorted_items c) seen = false →
  seen_tracks hash (pyset_add hash (sorted_items c) seen) (done ++ [c]).
Proof.
  intros Ht Hm h y. unfold pyset_add. rewrite Hm. unfold bucket at 1.
  rewrite fmap_app, elem_of_app. simpl.
  rewrite list_elem_of_singleton.
  destruct (decide (hash (sorted_items c) = h)) as [<-|Hne].
  - rewrite lookup_insert_eq. simpl. rewrite elem_of_app, list_elem_of_singleton.
    rewrite (Ht (hash (sorted_items c)) y). split.
    + intros [[Hh Hy]| ->]; auto.
    + intros [Hh [Hy| ->]]; auto.
  - rewrite lookup_insert_ne by exact Hne. fold (bucket seen h).
    rewrite (Ht h y). split.
    + intros [Hh Hy]. auto.
    + intros [Hh [Hy| ->]]; [auto | contradiction].
Qed.

Lemma seen_tracks_repeat (seen : pyset) (done : list (gmap string value))
    (c : gmap string value) :
  seen_tracks hash seen done → sorted_items c ∈ sorted_items <$> done →
  seen_tracks hash seen (done ++ [c]).
Proof.
  intros Ht Hin h y. rewrite (Ht h y), fmap_app, elem_of_app. simpl.
  rewrite list_elem_of_singleton. split.
  - intros [Hh Hy]. auto.
  - intros [Hh [Hy| ->]]; auto.
Qed.

Lemma dedup_loop_spec (rows : list (gmap string string)) (seen : pyset)
    (final done : list (gmap string value)) :
  Forall cleaned_record done → seen_tracks hash seen done →
  dedup_loop hash rows seen final
  = (cl ← mapM clean_row rows; mret (final ++ firsts_from done cl)%list).
Proof.
  revert seen final done.
  induction rows as [|row rows IH]; intros seen final done Hd Ht.
  - simpl. rewrite app_nil_r. reflexivity.
  - cbn [dedup_loop mapM]. change (mapM clean_row rows) with (mapM clean_row rows).
    destruct (clean_row row) as [c|e] eqn:Hrow; [|reflexivity].
    rewrite !bind_Ok.
    assert (Hc : cleaned_record c) by (eapply sorted_items_cleaned, Hrow).
    assert (Hd' : Forall cleaned_record (done ++ [c])).
    { apply Forall_app. split; [exact Hd|]. constructor; [exact Hc | constructor]. }
    rewrite (pyset_mem_tracks seen done c Ht Hc Hd).
    destruct (existsb (same_identity c) done) eqn:Hex; simpl negb; cbv iota.
    + rewrite (IH seen final (done ++ [c])%list Hd').
      * destruct (mapM clean_row rows) as [cl|e]; [|reflexivity].
        simpl. rewrite firsts_from_cons, Hex. reflexivity.
      * apply seen_tracks_repeat; [exact Ht|].
        apply existsb_same_identity; assumption.
    + rewrite (IH _ (final ++ [c])%list (done ++ [c])%list Hd').
      * destruct (mapM clean_row rows) as [cl|e]; [|reflexivity].
        simpl. rewrite firsts_from_cons, Hex, <- app_assoc. reflexivity.
      * apply seen_tracks_add; [exact Ht|].
        rewrite (pyset_mem_tracks seen done c Ht Hc Hd). exact Hex.
Qed.

(** [clean_data] as a composition: filter, clean every kept row, keep
    first occurrences.  The hash function does not appear on the right. *)
Lemma clean_data_spec (data : list (gmap string string)) (ids : list string) :
  clean_data hash data ids
  = first_occurrences <$> mapM clean_row (List.filter (valid_row ids) data).
Proof.
  unfold clean_data. rewrite structural_filter_spec.
  rewrite (dedup_loop_spec _ ∅ [] []); [|constructor | apply seen_tracks_empty].
  destruct (mapM clean_row _); reflexivity.
Qed.

Lemma clean_data_Ok (data : list (gmap string string)) (ids : list string)
    (out : list (gmap string value)) :
  clean_data hash data ids = Ok out ↔
  ∃ cl, Forall2 (λ row c, clean_row row = Ok c) (List.filter (valid_row ids) data) cl
        ∧ out = first_occurrences cl.
Proof.
  rewrite clean_data_spec. split.
  - destruct (mapM clean_row _) as [cl|e] eqn:Hm; [|discriminate].
    intros H. inversion H; subst. exists cl. split; [|reflexivity].
    apply mapM_Ok_Forall2, Hm.
  - intros (cl & Hcl & ->). apply mapM_Ok_Forall2 in Hcl. rewrite Hcl. reflexivity.
Qed.

(** Every record returned comes from a row that passed the filter. *)
Lemma clean_data_origin (data : list (gmap string string)) (ids : list string)
    (out : list (gmap string value)) (r : gmap string value) :
  clean_data hash data ids = Ok out → r ∈ out →
  ∃ row, row ∈ data ∧ valid_row ids row = true ∧ clean_row row = Ok r.
Proof.
  intros H Hr. apply clean_data_Ok in H as (cl & Hcl & ->).
  pose proof (first_occurrences_sublist cl) as Hsub.
  assert (Hin : r ∈ cl) by (eapply elem_of_sublist; eassumption).
  apply list_elem_of_lookup in Hin as (i & Hi).
  destruct (Forall2_lookup_r _ _ _ _ _ Hcl Hi) as (row & Hrow & Hclean).
  exists row. apply list_elem_of_lookup_2 in Hrow.
  apply list_elem_of_In, filter_In in Hrow as [Hin Hv].
  split; [apply list_elem_of_In, Hin | auto].
Qed.

(** The only exception [clean_data] can raise comes from a Price whose
    digits and points do not form a number. *)
Lemma clean_row_total (row : gmap string string) :
  (∀ s, row !! "Price" = Some s → is_ok (clean_price (strip s)) = true) →
  is_ok (clean_row row) = true.
Proof.
  intros H. unfold clean_row. apply dict_comprehension_total.
  intros k a Hk. rewrite lookup_fmap in Hk.
  destruct (row !! k) as [s|] eqn:Hs; [|discriminate]. inversion Hk; subst a.
  unfold clean_value.
  destruct (String.eqb_spec k "Location"); [reflexivity|].
  destruct (String.eqb_spec k "Price") as [->|]; [apply H, Hs|].
  destruct (String.eqb_spec k "Date"); [reflexivity|].
  destruct (String.eqb_spec k "Quantity"); reflexivity.
Qed.

Lemma clean_data_total (data : list (gmap string string)) (ids : list string) :
  (∀ row s, row ∈ data → row !! "Price" = Some s →
     is_ok (clean_price (strip s)) = true) →
  is_ok (clean_data hash data ids) = true.
Proof.
  intros H. rewrite clean_data_spec.
  assert (Hm : is_ok (mapM clean_row (List.filter (valid_row ids) data)) = true).
  { induction data as [|row data IH]; [reflexivity|]. cbn [List.filter].
    assert (IH' : is_ok (mapM clean_row (List.filter (valid_row ids) data)) = true).
    { apply IH. intros r s Hr. apply H. right. exact Hr. }
    destruct (valid_row ids row); [|exact IH']. cbn [mapM].
    pose proof (clean_row_total row (λ s, H row s ltac:(left))) as Hrow.
    destruct (clean_row row); [|discriminate]. rewrite bind_Ok.
    destruct (mapM clean_row _); [reflexivity | discriminate]. }
  destruct (mapM clean_row _); [reflexivity | discriminate].
Qed.

End CleanerFacts.

(** ** The cross-field validator *)

Lemma filter_bool_Prop {A} (p : A → bool) (P : A → Prop) `{∀ x, Decision (P x)}
    (l : list A) :
  (∀ x, p x = true ↔ P x) → List.filter p l = filter P l.
Proof.
  intros Hp. induction l as [|x l IH]; [reflexivity|].
  simpl. rewrite filter_cons. destruct (decide (P x)) as [HP|HP].
  - apply Hp in HP. rewrite HP, IH. reflexivity.
  - destruct (p x) eqn:Hx; [exfalso; apply HP, Hp, Hx|]. exact IH.
Qed.

Lemma filter_all {A} (p : A → bool) (l : list A) :
  (∀ x, x ∈ l → p x = true) → List.filter p l = l.
Proof.
  induction l as [|x l IH]; intros H; [reflexivity|]. simpl.
  rewrite (H x) by left. rewrite IH; [reflexivity|].
  intros y Hy. apply H. right. exact Hy.
Qed.

Lemma truthy_str (s : string) : truthy (VStr s) = true ↔ s ≠ "".
Proof. destruct s; simpl; split; congruence. Qed.

Lemma truthy_spec (v : value) :
  truthy v = true ↔ v ≠ VNone ∧ v ≠ VStr "" ∧ ¬ numeric_zero v.
Proof.
  destruct v as [|s|n|f]; simpl.
  - split; [discriminate | intros (H & _); contradiction].
  - destruct s; simpl; split; try discriminate.
    + intros (_ & H & _). contradiction.
    + intros _. repeat split; try discriminate. auto.
    + reflexivity.
  - destruct n; simpl; split; try discriminate; try reflexivity;
      try (intros (_ & _ & H); exfalso; apply H; exact I);
      intros _; repeat split; try discriminate; auto.
  - destruct f; simpl; split; try discriminate; try reflexivity;
      try (intros (_ & _ & H); exfalso; apply H; exact I);
      intros _; repeat split; try discriminate; auto.
Qed.

Lemma present_nonempty_spec (row : gmap string value) (field : string) :
  present_nonempty row field
  ↔ present_filled row field ∧ ∀ v, row !! field = Some v → ¬ numeric_zero v.
Proof.
  unfold present_nonempty, present_filled. split.
  - intros (v & Hv & Ht). apply truthy_spec in Ht as (Hn & He & Hz). split.
    + exists v. auto.
    + intros w Hw. rewrite Hv in Hw. inversion Hw; subst. exact Hz.
  - intros ((v & Hv & Hn & He) & Hz). exists v. split; [exact Hv|].
    apply truthy_spec. auto.
Qed.

Lemma filter_agree {A} (P Q : A → Prop) `{∀ x, Decision (P x)} `{∀ x, Decision (Q x)}
    (l : list A) :
  Forall (λ x, P x ↔ Q x) l → filter P l = filter Q l.
Proof.
  induction 1 as [|x l Hx _ IH]; [reflexivity|].
  destruct (decide (P x)) as [HP|HP].
  - rewrite !filter_cons_True by tauto. rewrite IH. reflexivity.
  - rewrite !filter_cons_False by tauto. exact IH.
Qed.

(** The record with SaleID 0 has its three identifiers present, each an
    integer, yet [validate_data] drops it: [not row[field]] is true of the
    number 0.  So the records returned are not those whose identifiers are
    present and non-empty. *)
Lemma validate_data_drops_zero_identifier :
  Forall (present_filled (integer_row 0 10 20 "Widget"))
    ["ProductID"; "SaleID"; "RetailerID"]
  ∧ validate_data [integer_row 0 10 20 "Widget"] = []
  ∧ validate_data [integer_row 0 10 20 "Widget"]
    ≠ filter (λ row, Forall (present_filled row) ["ProductID"; "SaleID"; "RetailerID"])
        [integer_row 0 10 20 "Widget"].
Proof. repeat split; by_evaluation. Qed.

(** C7. [validate_data] returns exactly the records in which ProductID,
    SaleID and RetailerID are all present and true in Python's sense, in
    their original order and unchanged: it is the filter of its input by
    that test.  True in Python's sense is: present, not [None], not the
    empty string, and not a numeric zero.  So on records none of whose
    identifiers is a numeric zero, in particular on the text identifiers
    the cleaner leaves, the records returned are exactly those whose three
    identifiers are present and non-empty. *)
Theorem validate_data_is_identifier_filter (data : list (gmap string value)) :
  validate_data data
  = filter (λ row, Forall (present_nonempty row) ["ProductID"; "SaleID"; "RetailerID"]) data
  ∧ sublist (validate_data data) data
  ∧ (∀ row field,
       present_nonempty row field
       ↔ present_filled row field ∧ ∀ v, row !! field = Some v → ¬ numeric_zero v)
  ∧ (Forall no_zero_identifier data →
     validate_data data
     = filter (λ row, Forall (present_filled row) ["ProductID"; "SaleID"; "RetailerID"])
         data).
Proof.
  assert (Heq : validate_data data
    = filter (λ row, Forall (present_nonempty row) ["ProductID"; "SaleID"; "RetailerID"]) data).
  { unfold validate_data. rewrite validate_loop_spec, app_nil_l.
    apply filter_bool_Prop. intros row.
    rewrite Forall_forall. apply has_fields_spec. }
  split; [exact Heq|]. split; [rewrite Heq; apply sublist_filter|].
  split; [apply present_nonempty_spec|].
  intros Hzero. rewrite Heq. apply filter_agree.
  eapply Forall_impl; [exact Hzero|]. intros row Hrow.
  rewrite !Forall_forall. split; intros H field Hfield.
  - apply present_nonempty_spec, H, Hfield.
  - apply present_nonempty_spec. split; [apply H, Hfield|].
    intros v Hv. exact (Hrow field v Hfield Hv).
Qed.

Lemma validate_data_is_identifier_filter_witness :
  validate_data
    [cleaned_row "1" "10" "20" "Widget" "Shop" "2024-03-15" 4 float_5_5;
     cleaned_row "2" "" "20" "Gadget" "Shop" "2024-03-15" 1 float_9;
     delete "RetailerID"
       (cleaned_row "3" "11" "20" "Gizmo" "Shop" "2024-03-16" 1 float_1);
     cleaned_row "0" "12" "21" "Bolt" "Store" "2024-03-17" 2 float_1]
  = [cleaned_row "1" "10" "20" "Widget" "Shop" "2024-03-15" 4 float_5_5;
     cleaned_row "0" "12" "21" "Bolt" "Store" "2024-03-17" 2 float_1].
Proof.
  rewrite (proj2 (proj2 (proj2 (validate_data_is_identifier_filter _)))).
  - by_evaluation.
  - repeat constructor; intros field v Hfield Hv;
      repeat (apply elem_of_cons in Hfield as [->|Hfield]);
      try (inversion Hfield; fail);
      vm_compute in Hv; inversion Hv; subst; intros [].
Defined.

(** ** Quantity and price cleaning *)

Lemma clean_quantity_examples :
  clean_quantity "-5" = VInt 0 ∧ clean_quantity "7" = VInt 7
  ∧ clean_quantity "x" = VInt 0 ∧ clean_quantity "1_000" = VInt 1000.
Proof. repeat split; vm_compute; reflexivity. Qed.


Lemma clean_price_filtered (v : string) :
  string_forall (λ c, isdigit_char c || Ascii.eqb c ".")
    (string_filter (λ c, isdigit_char c || Ascii.eqb c ".") v) = true.
Proof. apply string_forall_filter. Qed.

(** The binary64 value [5429652300748554 * 2^-42] is within half a unit in
    the last place of [1234.56]. *)
Lemma price_1234_56_nearest :
  2 * Z.abs (5429652300748554 * 100 - 123456 * 2 ^ 42) <= 100.
Proof. vm_compute. discriminate. Qed.

(** C3. [clean_price] keeps the digits and points of its argument; on the
    inputs the specification lists it returns 1234.56, 0.0 and 0.0, but a
    remainder that is not a number, such as ["1.2.3"], is handed to
    [float] and raises [ValueError] instead of giving 0.0. *)
Theorem clean_price_raises_when_unparseable :
  clean_price "1.2.3" = Raise ValueError
  ∧ clean_price "N.A." = Raise ValueError
  ∧ clean_price "$1,234.56" = Ok (VFloat (S754_finite false 5429652300748554 (-42)))
  ∧ clean_price "" = Ok (VFloat (S754_zero false))
  ∧ clean_price "abc" = Ok (VFloat (S754_zero false)).
Proof. repeat split; vm_compute; reflexivity. Qed.

(** ** The structural filter *)

(** The rows the specification lists are dropped. *)
Lemma identifier_gate_examples :
  valid_row default_id_fields (raw_row "" "1" "1" "Widget" "Shop" "2024-03-15" "1" "1") = false
  ∧ valid_row default_id_fields (raw_row "1" "12a" "1" "Widget" "Shop" "2024-03-15" "1" "1") = false
  ∧ valid_row default_id_fields (raw_row "1" "1" "-3" "Widget" "Shop" "2024-03-15" "1" "1") = false.
Proof. repeat split; vm_compute; reflexivity. Qed.

(** On text without the three superscript digits, [isdigit] is the test for
    decimal digits. *)
Lemma isdigit_decimal (s : string) :
  string_forall (λ c, negb ((code c =? 178) || (code c =? 179) || (code c =? 185))) s = true →
  isdigit s = negb (is_empty s) && string_forall isdecimal_char s.
Proof.
  intros H. unfold isdigit. f_equal.
  induction s as [|c s IH]; [reflexivity|]. simpl in *.
  apply andb_true_iff in H as [Hc Hs]. rewrite (IH Hs). f_equal.
  unfold isdigit_char, isdecimal_char. apply negb_true_iff in Hc.
  apply orb_false_iff in Hc as [Hc H3]. apply orb_false_iff in Hc as [H1 H2].
  rewrite H1, H2, H3, !orb_false_r. reflexivity.
Qed.

(** C4. The structural filter keeps a row exactly when every identifier
    field passes [isdigit], and [isdigit] also accepts the superscript
    digits: a row whose ProductID is the single character U+00B2 is kept
    although that value is not made of decimal digits and is no integer
    ([int] rejects it, so the transformer fails on the row). *)
Theorem structural_filter_keeps_superscript_id :
  let row := raw_row "1" superscript_two "1" "Widget" "Shop" "2024-03-15" "1" "1" in
  structural_filter default_id_fields [row] = [row]
  ∧ string_forall isdecimal_char superscript_two = false
  ∧ py_int (VStr superscript_two) = Raise ValueError
  ∧ ∀ hash, pipeline hash [row] = Raise ValueError.
Proof.
  intros row. split; [by_evaluation|].
  split; [vm_compute; reflexivity|]. split; [vm_compute; reflexivity|].
  intros hash. unfold pipeline. rewrite clean_data_spec.
  by_evaluation.
Qed.

(** ** The type invariant of cleaned records *)

(** C5, as stated, fails: the cleaner leaves SaleID as text. *)
Lemma cleaned_identifier_is_text :
  clean_data hash_zero
    [raw_row "1" "2" "3" "Widget" "Shop" "2024-03-15" "1" "1"]
    default_id_fields
  = Ok [cleaned_row "1" "2" "3" "Widget" "Shop" "2024-03-15" 1 float_1]
  ∧ cleaned_row "1" "2" "3" "Widget" "Shop" "2024-03-15" 1 float_1 !! "SaleID"
    = Some (VStr "1")
  ∧ ¬ integer_field
        (cleaned_row "1" "2" "3" "Widget" "Shop" "2024-03-15" 1 float_1) "SaleID".
Proof.
  split; [by_evaluation|].
  split; [by_evaluation|].
  intros (n & Hn & _). vm_compute in Hn. discriminate Hn.
Qed.

(** The identifier fields of a returned record: the text that passed the
    filter, unchanged. *)
Lemma clean_data_identifier_fields (hash : identifier → Z)
    (data : list (gmap string string)) (out : list (gmap string value))
    (r : gmap string value) (field : string) :
  clean_data hash data default_id_fields = Ok out → r ∈ out →
  field ∈ default_id_fields →
  ∃ s, r !! field = Some (VStr s) ∧ isdigit s = true.
Proof.
  intros H Hr Hf.
  destruct (clean_data_origin hash data _ out r H Hr) as (row & _ & Hvalid & Hrow).
  destruct (proj1 (valid_row_spec _ row) Hvalid field Hf) as (s & Hs & Hd).
  exists s. split; [|exact Hd].
  apply (clean_row_lookup row r Hrow). exists s. split; [exact Hs|].
  assert (Hall : string_forall isdigit_char s = true).
  { unfold isdigit in Hd. apply andb_true_iff in Hd. tauto. }
  rewrite (strip_digits s Hall).
  apply clean_value_other; intros ->;
    repeat (apply elem_of_cons in Hf as [Hf|Hf]; [discriminate Hf|]);
    inversion Hf.
Qed.

(** Every value of a returned record has the shape of its column. *)
Lemma clean_data_cleaned_values (hash : identifier → Z)
    (data : list (gmap string string)) (ids : list string)
    (out : list (gmap string value)) (r : gmap string value)
    (k : string) (v : value) :
  clean_data hash data ids = Ok out → r ∈ out → r !! k = Some v → cleaned_for k v.
Proof.
  intros H Hr Hv.
  destruct (clean_data_origin hash data ids out r H Hr) as (row & Hin & Hvalid & Hrow).
  destruct (proj1 (clean_row_lookup row r Hrow k v) Hv) as (s & Hrs & Hs).
  eapply clean_value_cleaned, Hs.
Qed.

(** C5, amended. In every record [clean_data] returns for the default
    identifier fields, SaleID, ProductID and RetailerID are present as
    non-empty text that passed the digit test of the filter (they are not
    coerced to integers); Quantity, when present, is a non-negative
    integer; and Price, when present, is a float that is at least 0.0. *)
Theorem cleaned_record_types (hash : identifier → Z)
    (data : list (gmap string string)) (out : list (gmap string value))
    (r : gmap string value) :
  clean_data hash data default_id_fields = Ok out → r ∈ out →
  (∀ field, field ∈ default_id_fields →
     ∃ s, r !! field = Some (VStr s) ∧ isdigit s = true)
  ∧ (∀ v, r !! "Quantity" = Some v → ∃ n, v = VInt n ∧ 0 <= n)
  ∧ (∀ v, r !! "Price" = Some v →
       ∃ f, v = VFloat f ∧ SFleb (S754_zero false) f = true).
Proof.
  intros H Hr. split; [|split].
  - intros field. apply (clean_data_identifier_fields hash data out r field H Hr).
  - intros v Hv. apply (clean_data_cleaned_values hash data _ out r _ v H Hr) in Hv.
    inversion Hv; subst; try congruence. eauto.
  - intros v Hv. apply (clean_data_cleaned_values hash data _ out r _ v H Hr) in Hv.
    inversion Hv; subst; try congruence.
    eexists. split; [reflexivity|]. apply plain_float_nonneg. assumption.
Qed.

Lemma cleaned_record_types_witness :
  (∀ field, field ∈ default_id_fields →
     ∃ s, cleaned_row "1" "2" "3" "Widget" "Shop" "2024-03-15" 4 float_5_5 !! field
          = Some (VStr s) ∧ isdigit s = true)
  ∧ (∀ v, cleaned_row "1" "2" "3" "Widget" "Shop" "2024-03-15" 4 float_5_5 !! "Quantity"
          = Some v → ∃ n, v = VInt n ∧ 0 <= n)
  ∧ (∀ v, cleaned_row "1" "2" "3" "Widget" "Shop" "2024-03-15" 4 float_5_5 !! "Price"
          = Some v → ∃ f, v = VFloat f ∧ SFleb (S754_zero false) f = true).
Proof.
  apply (cleaned_record_types hash_zero
           [raw_row "1" "2" "3" "Widget" "Shop" "2024-03-15" "4" "$5.50"]
           [cleaned_row "1" "2" "3" "Widget" "Shop" "2024-03-15" 4 float_5_5]).
  - by_evaluation.
  - left.
Defined.

(** ** Deduplication, determinism and the redundant validator *)

Lemma mapM_clean_row_cleaned (rows : list (gmap string string))
    (cl : list (gmap string value)) :
  Forall2 (λ row c, clean_row row = Ok c) rows cl → Forall cleaned_record cl.
Proof.
  induction 1 as [|row c rows cl Hc _ IH]; constructor; [|exact IH].
  eapply sorted_items_cleaned, Hc.
Qed.

(** C6. [clean_data] is: filter the rows, clean each kept row, and keep of
    the cleaned records those that are the first of their canonical
    identity, in their order of appearance.  No identity occurs twice in
    the result, and two rows that are equal once cleaned give exactly one
    record. *)
Theorem clean_data_keeps_first_occurrences (hash : identifier → Z)
    (data : list (gmap string string)) (ids : list string) :
  clean_data hash data ids
  = first_occurrences <$> mapM clean_row (List.filter (valid_row ids) data)
  ∧ (∀ out, clean_data hash data ids = Ok out → NoDup (sorted_items <$> out))
  ∧ (∀ r1 r2 c,
       valid_row ids r1 = true → valid_row ids r2 = true →
       clean_row r1 = Ok c → clean_row r2 = Ok c →
       clean_data hash [r1; r2] ids = Ok [c]).
Proof.
  split; [apply clean_data_spec|]. split.
  - intros out H. apply clean_data_Ok in H as (cl & Hcl & ->).
    rewrite <- firsts_from_nil.
    apply (firsts_from_identities [] cl); [constructor|].
    eapply mapM_clean_row_cleaned, Hcl.
  - intros r1 r2 c Hv1 Hv2 Hc1 Hc2. rewrite clean_data_spec.
    cbn [List.filter]. rewrite Hv1, Hv2. cbn [mapM]. rewrite Hc1, Hc2. simpl.
    rewrite <- firsts_from_nil, !firsts_from_cons. simpl.
    assert (Hcc : same_identity c c = true).
    { apply ident_eqb_cleaned_refl. eapply sorted_items_cleaned, Hc1. }
    rewrite Hcc. reflexivity.
Qed.

Lemma clean_data_keeps_first_occurrences_witness :
  clean_data hash_size
    [raw_row "1" "2" "3" "Widget" "Shop" "2024/03/15" "4" "$5.50";
     raw_row "1" "2" "3" "Widget " "Shop" "2024-03-15" " 4" "5.5"]
    default_id_fields
  = Ok [cleaned_row "1" "2" "3" "Widget" "Shop" "2024-03-15" 4 float_5_5].
Proof.
  apply (clean_data_keeps_first_occurrences hash_size [] default_id_fields);
    by_evaluation.
Defined.

(** C9. The hash salt of a run is the only thing that varies between two
    runs on the same input, and it has no influence: [clean_data] returns
    the same records (or raises the same exception) whatever the hash
    function, and so does the whole chain up to the four record sets of
    [transform_data]. *)
Theorem pipeline_is_deterministic (hash1 hash2 : identifier → Z)
    (data : list (gmap string string)) (ids : list string) :
  clean_data hash1 data ids = clean_data hash2 data ids
  ∧ pipeline hash1 data = pipeline hash2 data.
Proof.
  split.
  - rewrite !clean_data_spec. reflexivity.
  - unfold pipeline. rewrite !clean_data_spec. reflexivity.
Qed.

(** C10. [validate_data] drops nothing that [clean_data] returned for the
    default identifier fields: applied to that output it is the identity. *)
Theorem validate_after_clean_is_identity (hash : identifier → Z)
    (data : list (gmap string string)) (out : list (gmap string value)) :
  clean_data hash data default_id_fields = Ok out → validate_data out = out.
Proof.
  intros H. unfold validate_data. rewrite validate_loop_spec, app_nil_l.
  apply filter_all. intros r Hr. apply has_fields_spec. intros field Hf.
  destruct (clean_data_identifier_fields hash data out r field H Hr Hf)
    as (s & Hs & Hd).
  exists (VStr s). split; [exact Hs|].
  unfold isdigit in Hd. apply andb_true_iff in Hd as [Hd _]. exact Hd.
Qed.

Lemma validate_after_clean_is_identity_witness :
  validate_data
    [cleaned_row "1" "2" "3" "Widget" "Shop" "2024-03-15" 4 float_5_5;
     cleaned_row "7" "2" "3" "Gadget" "Shop" "2024-03-16" 1 float_9]
  = [cleaned_row "1" "2" "3" "Widget" "Shop" "2024-03-15" 4 float_5_5;
     cleaned_row "7" "2" "3" "Gadget" "Shop" "2024-03-16" 1 float_9].
Proof.
  apply (validate_after_clean_is_identity hash_zero
           [raw_row "1" "2" "3" "Widget" "Shop" "2024-03-15" "4" "$5.50";
            raw_row "" "2" "3" "Widget" "Shop" "2024-03-15" "4" "$5.50";
            raw_row "7" "2" "3" "Gadget" "Shop" "2024-03-16" "1" "9"]).
  by_evaluation.
Defined.

(** ** Integer literals *)

Lemma int_digits_decimal (s : string) (prev : bool) (acc : Z) :
  string_forall isdecimal_char s = true → prev = true ∨ s ≠ "" →
  int_digits s prev acc = Some (decimal_value s acc).
Proof.
  revert prev acc. induction s as [|c s IH]; intros prev acc Hs Hne; simpl.
  - destruct Hne as [->|Hne]; [reflexivity | contradiction].
  - simpl in Hs. apply andb_true_iff in Hs as [Hc Hs]. rewrite Hc.
    apply IH; [exact Hs | left; reflexivity].
Qed.

Lemma decimal_not_sign (c : ascii) :
  isdecimal_char c = true → Ascii.eqb c "-" = false ∧ Ascii.eqb c "+" = false.
Proof.
  intros H. rewrite !ascii_eqb_code. char_facts.
  change (code "-") with 45. change (code "+") with 43.
  split; bool_to_Z; lia.
Qed.

Lemma int_of_str_decimal (s : string) :
  s ≠ "" → string_forall isdecimal_char s = true →
  int_of_str s = Ok (decimal_value s 0).
Proof.
  intros Hne Hs. unfold int_of_str.
  assert (Hn : string_forall (λ c, negb (int_space_char c)) s = true).
  { revert Hs. apply string_forall_impl. intros c Hc.
    rewrite (decimal_not_int_space c Hc). reflexivity. }
  rewrite (lstrip_with_id _ _ Hn), (rstrip_with_id _ _ Hn).
  destruct s as [|c s]; [contradiction|].
  pose proof Hs as Hs'. simpl in Hs'. apply andb_true_iff in Hs' as [Hc _].
  destruct (decimal_not_sign c Hc) as [-> ->].
  rewrite (int_digits_decimal _ false 0 Hs); [reflexivity | right; discriminate].
Qed.

Lemma int_of_str_blank_digit (a b : ascii) :
  code a = 32 → isdecimal_char b = true →
  is_ok (int_of_str (String a (String b ""))) = true.
Proof.
  intros Ha Hb. unfold int_of_str.
  assert (Hsa : int_space_char a = true).
  { unfold int_space_char. rewrite Ha. reflexivity. }
  cbn [lstrip_with]. rewrite Hsa, (decimal_not_int_space b Hb).
  cbn [rstrip_with is_empty]. rewrite (decimal_not_int_space b Hb).
  cbn [andb]. destruct (decimal_not_sign b Hb) as [-> ->].
  cbn [int_digits]. rewrite Hb. reflexivity.
Qed.

(** ** The parts of an accepted date *)

Lemma year_text_decimal (s : string) :
  year_text s = true → s ≠ "" ∧ string_forall isdecimal_char s = true.
Proof.
  unfold year_text. intros H. apply andb_true_iff in H as [Hl Hs].
  split; [|exact Hs]. intros ->. discriminate Hl.
Qed.

Lemma month_text_decimal (s : string) :
  month_text s = true → s ≠ "" ∧ string_forall isdecimal_char s = true.
Proof.
  destruct s as [|a [|b [|c s]]]; simpl; try discriminate; intros H;
    (split; [discriminate|]); unfold isdecimal_char; char_facts;
    bool_to_Z; try reflexivity; lia.
Qed.

Lemma day_text_int (s : string) : day_text s = true → is_ok (int_of_str s) = true.
Proof.
  destruct s as [|a [|b [|c s]]]; simpl; try discriminate; intros H.
  - rewrite int_of_str_decimal; [reflexivity | discriminate |].
    simpl. unfold isdecimal_char. char_facts. bool_to_Z; try reflexivity; lia.
  - assert (Hcases : (isdecimal_char a = true ∧ isdecimal_char b = true)
                     ∨ (code a = 32 ∧ isdecimal_char b = true)).
    { unfold isdecimal_char in *. char_facts;
        try (left; split; bool_to_Z; lia);
        try (right; split; [assumption | bool_to_Z; lia]). }
    destruct Hcases as [[Ha Hb]|[Ha Hb]].
    + rewrite int_of_str_decimal; [reflexivity | discriminate |].
      simpl. rewrite Ha, Hb. reflexivity.
    + apply int_of_str_blank_digit; assumption.
Qed.

Lemma strptime_parts (s : string) :
  is_ok (strptime s) = true →
  ∃ ys ms ds, split "-" s = [ys; ms; ds]
              ∧ is_ok (int_of_str ys) = true
              ∧ is_ok (int_of_str ms) = true
              ∧ is_ok (int_of_str ds) = true.
Proof.
  unfold strptime.
  destruct (split "-" s) as [|ys [|ms [|ds [|x l]]]]; try discriminate.
  destruct (year_text ys) eqn:Hy; [|discriminate].
  destruct (month_text ms) eqn:Hm; [|discriminate].
  destruct (day_text ds) eqn:Hd; [|discriminate].
  intros _. exists ys, ms, ds. split; [reflexivity|].
  destruct (year_text_decimal ys Hy) as [Hy1 Hy2].
  destruct (month_text_decimal ms Hm) as [Hm1 Hm2].
  rewrite (int_of_str_decimal ys Hy1 Hy2), (int_of_str_decimal ms Hm1 Hm2).
  split; [reflexivity|]. split; [reflexivity|]. apply day_text_int, Hd.
Qed.

Lemma date_derivation_example :
  strptime "2024-03-15" = Ok (2024, 3, 15)
  ∧ (3 - 1) / 3 + 1 = 1
  ∧ weekday_name 2024 3 15 = "Friday"
  ∧ iso_week 2024 3 15 = 11.
Proof. repeat split; vm_compute; reflexivity. Qed.

Lemma int_of_str_raises (s : string) (e : exn) : int_of_str s = Raise e → e = ValueError.
Proof.
  unfold int_of_str.
  destruct (rstrip_with _ _) as [|c r]; [|destruct (Ascii.eqb c "-"); [|destruct (Ascii.eqb c "+")]];
    match goal with
    | |- context [int_digits ?b false 0] => destruct (int_digits b false 0)
    end; intros H; inversion H; reflexivity.
Qed.

Lemma strptime_raises (s : string) (e : exn) : strptime s = Raise e → e = ValueError.
Proof.
  unfold strptime.
  destruct (split "-" s) as [|ys [|ms [|ds [|x l]]]];
    try (intros H; inversion H; reflexivity).
  destruct (year_text ys && month_text ms && day_text ds);
    [|intros H; inversion H; reflexivity].
  match goal with
  | |- (if ?c then _ else _) = _ → _ => destruct c
  end; intros H; inversion H; reflexivity.
Qed.

(** ** The date step *)

Lemma rejected_not_in (v : value) (dd : list DateDimRecord) :
  date_accepted v = false → dates_accepted dd → py_in v (map dd_Date dd) = false.
Proof.
  intros Hv Hdd. unfold py_in. induction Hdd as [|d dd Hd _ IH]; [reflexivity|].
  simpl. rewrite IH, orb_false_r.
  destruct (dd_Date d) as [|t|n|f]; try discriminate Hd.
  destruct v as [|s|n|f]; try reflexivity. simpl.
  destruct (String.eqb_spec s t) as [->|Hne]; [|reflexivity].
  simpl in Hv, Hd. congruence.
Qed.

Lemma date_step_rejected (row : gmap string value) (dd : list DateDimRecord)
    (v : value) :
  row !! "Date" = Some v → date_accepted v = false → dates_accepted dd →
  ∃ e, date_step row dd = Raise e.
Proof.
  intros Hrow Hv Hdd. unfold date_step, getitem. rewrite Hrow, bind_Ok.
  rewrite (rejected_not_in v dd Hv Hdd). cbn [negb].
  destruct v as [|s|n|f]; try (eexists; reflexivity).
  rewrite bind_Ok. simpl in Hv.
  destruct (list_item (split "-" s) 0 ≫= int_of_str) as [year|e];
    [rewrite bind_Ok | eexists; reflexivity].
  destruct (list_item (split "-" s) 1 ≫= int_of_str) as [month|e];
    [rewrite bind_Ok | eexists; reflexivity].
  destruct (list_item (split "-" s) 2 ≫= int_of_str) as [day|e];
    [rewrite bind_Ok | eexists; reflexivity].
  destruct (strptime s) as [d|e]; [discriminate Hv | eexists; reflexivity].
Qed.

(** On a text Date that [strptime] rejects, what the date step raises is a
    parse failure: [ValueError], or [IndexError] when the text has fewer
    than three parts. *)
Lemma date_step_rejected_text (row : gmap string value) (dd : list DateDimRecord)
    (s : string) :
  row !! "Date" = Some (VStr s) → is_ok (strptime s) = false → dates_accepted dd →
  date_step row dd = Raise ValueError ∨ date_step row dd = Raise IndexError.
Proof.
  intros Hrow Hv Hdd. unfold date_step, getitem. rewrite Hrow, bind_Ok.
  rewrite (rejected_not_in (VStr s) dd Hv Hdd). cbn [negb]. rewrite bind_Ok.
  assert (Hpart : ∀ i, (∃ n, list_item (split "-" s) i ≫= int_of_str = Ok n)
                       ∨ list_item (split "-" s) i ≫= int_of_str = Raise ValueError
                       ∨ list_item (split "-" s) i ≫= int_of_str = Raise IndexError).
  { intros i. unfold list_item. destruct (split "-" s !! i) as [p|]; [|auto].
    rewrite bind_Ok. destruct (int_of_str p) as [n|e] eqn:Hp; [eauto|].
    apply int_of_str_raises in Hp. subst e. auto. }
  destruct (Hpart 0%nat) as [[year ->]|[->| ->]]; auto. rewrite bind_Ok.
  destruct (Hpart 1%nat) as [[month ->]|[->| ->]]; auto. rewrite bind_Ok.
  destruct (Hpart 2%nat) as [[day ->]|[->| ->]]; auto. rewrite bind_Ok.
  destruct (strptime s) as [d|e] eqn:Hs; [discriminate Hv|].
  apply strptime_raises in Hs. subst e. auto.
Qed.

Lemma date_step_accepted (row : gmap string value) (dd dd' : list DateDimRecord) :
  date_step row dd = Ok dd' → dates_accepted dd → dates_accepted dd'.
Proof.
  unfold date_step. intros H Hdd.
  apply bind_is_Ok in H as (date & Hdate & H).
  destruct (negb (py_in date (map dd_Date dd))); [|inversion H; subst; exact Hdd].
  apply bind_is_Ok in H as (text & Htext & H).
  apply bind_is_Ok in H as (year & _ & H).
  apply bind_is_Ok in H as (month & _ & H).
  apply bind_is_Ok in H as (day & _ & H).
  apply bind_is_Ok in H as ([[y m] d] & Hparse & H).
  destruct date as [|s|n|f]; try discriminate Htext. inversion Htext; subst text.
  match type of H with
  | (if ?c then _ else _) = _ => destruct c
  end; inversion H; subst; [|exact Hdd].
  apply Forall_app. split; [exact Hdd|]. constructor; [|constructor].
  simpl. rewrite Hparse. reflexivity.
Qed.

Lemma date_step_total (row : gmap string value) (dd : list DateDimRecord) (v : value) :
  row !! "Date" = Some v → date_accepted v = true →
  ∃ dd', date_step row dd = Ok dd'.
Proof.
  intros Hrow Hv. unfold date_step, getitem. rewrite Hrow, bind_Ok.
  destruct (negb (py_in v (map dd_Date dd))); [|eexists; reflexivity].
  destruct v as [|s|n|f]; try discriminate Hv. simpl in Hv. rewrite bind_Ok.
  destruct (strptime_parts s Hv) as (ys & ms & ds & Hsplit & Hy & Hm & Hd).
  rewrite Hsplit. unfold list_item. cbn [lookup list_lookup]. rewrite !bind_Ok.
  destruct (int_of_str ys) as [year|]; [|discriminate Hy].
  destruct (int_of_str ms) as [month|]; [|discriminate Hm].
  destruct (int_of_str ds) as [day|]; [|discriminate Hd].
  rewrite !bind_Ok.
  destruct (strptime s) as [[[y m] d]|]; [|discriminate Hv]. rewrite bind_Ok.
  match goal with
  | |- ∃ _, (if ?c then _ else _) = _ => destruct c
  end; eexists; reflexivity.
Qed.

(** ** The other steps return when the row is complete *)

Lemma int_field_lookup (row : gmap string value) (field : string) :
  int_field row field = true →
  ∃ v n, row !! field = Some v ∧ py_int v = Ok n.
Proof.
  unfold int_field. destruct (row !! field) as [v|]; [|discriminate].
  destruct (py_int v) as [n|] eqn:Hn; [|discriminate].
  intros _. exists v, n. split; [reflexivity | exact Hn].
Qed.

Lemma has_column_lookup (row : gmap string value) (field : string) :
  has_column row field = true → ∃ v, row !! field = Some v.
Proof.
  unfold has_column. destruct (row !! field) as [v|]; [|discriminate]. eauto.
Qed.

Ltac use_columns :=
  repeat match goal with
         | H : int_field ?row ?k = true |- _ =>
             let v := fresh "v" in let n := fresh "n" in
             let Hv := fresh "Hv" in let Hn := fresh "Hn" in
             apply int_field_lookup in H as (v & n & Hv & Hn)
         | H : has_column ?row ?k = true |- _ =>
             let v := fresh "v" in let Hv := fresh "Hv" in
             apply has_column_lookup in H as (v & Hv)
         end.

Ltac run_step :=
  unfold getitem;
  repeat (first [ rewrite bind_Ok
                | match goal with
                  | H : ?row !! ?k = Some _ |- context [?row !! ?k] => rewrite H
                  | H : py_int ?v = Ok _ |- context [py_int ?v] => rewrite H
                  end ]).

Lemma product_step_total (row : gmap string value) (pd : list ProductDimRecord) :
  int_field row "ProductID" = true → has_column row "ProductName" = true →
  has_column row "Brand" = true → has_column row "Category" = true →
  ∃ pd', product_step row pd = Ok pd'.
Proof.
  intros H1 H2 H3 H4. use_columns. unfold product_step. run_step.
  match goal with
  | |- ∃ _, (if ?c then _ else _) = _ => destruct c
  end; run_step; eexists; reflexivity.
Qed.

Lemma retailer_step_total (row : gmap string value) (rd : list RetailerDimRecord) :
  int_field row "RetailerID" = true → has_column row "RetailerName" = true →
  has_column row "Channel" = true → has_column row "Location" = true →
  ∃ rd', retailer_step row rd = Ok rd'.
Proof.
  intros H1 H2 H3 H4. use_columns. unfold retailer_step. run_step.
  match goal with
  | |- ∃ _, (if ?c then _ else _) = _ => destruct c
  end; run_step; eexists; reflexivity.
Qed.

Lemma sales_step_total (row : gmap string value) (sf : list SalesFactRecord) :
  int_field row "SaleID" = true → int_field row "ProductID" = true →
  int_field row "RetailerID" = true → int_field row "Quantity" = true →
  has_column row "Date" = true → has_column row "Price" = true →
  ∃ sf', sales_step row sf = Ok sf'.
Proof.
  intros H1 H2 H3 H4 H5 H6. use_columns. unfold sales_step. run_step.
  match goal with
  | |- ∃ _, (if ?c then _ else _) = _ => destruct c
  end; run_step; eexists; reflexivity.
Qed.

Lemma transform_row_total (t : tables) (row : gmap string value) (v : value) :
  complete_row row = true → row !! "Date" = Some v → date_accepted v = true →
  ∃ t', transform_row t row = Ok t'.
Proof.
  intros Hc Hrow Hv. unfold complete_row in Hc. cbn [forallb] in Hc.
  repeat match goal with
         | H : _ && _ = true |- _ => apply andb_true_iff in H as [? ?]
         end.
  unfold transform_row.
  destruct (product_step_total row (product_dim t)) as (p & ->); try assumption.
  destruct (retailer_step_total row (retailer_dim t)) as (r & ->); try assumption.
  destruct (date_step_total row (date_dim t) v Hrow Hv) as (d & ->).
  destruct (sales_step_total row (sales_fact t)) as (s & ->); try assumption.
  eexists. reflexivity.
Qed.

Lemma transform_row_accepted (t t' : tables) (row : gmap string value) :
  transform_row t row = Ok t' → dates_accepted (date_dim t) →
  dates_accepted (date_dim t').
Proof.
  unfold transform_row. intros H Hdd.
  apply bind_is_Ok in H as (p & _ & H).
  apply bind_is_Ok in H as (r & _ & H).
  apply bind_is_Ok in H as (d & Hd & H).
  apply bind_is_Ok in H as (s & _ & H).
  inversion H; subst. simpl. eapply date_step_accepted; eassumption.
Qed.

Lemma transform_row_rejected (t : tables) (row : gmap string value) (v : value) :
  row !! "Date" = Some v → date_accepted v = false →
  dates_accepted (date_dim t) → ∃ e, transform_row t row = Raise e.
Proof.
  intros Hrow Hv Hdd. unfold transform_row.
  destruct (product_step row (product_dim t)) as [p|e]; [|eexists; reflexivity].
  rewrite bind_Ok.
  destruct (retailer_step row (retailer_dim t)) as [r|e]; [|eexists; reflexivity].
  rewrite bind_Ok.
  destruct (date_step_rejected row (date_dim t) v Hrow Hv Hdd) as (e & ->).
  eexists. reflexivity.
Qed.

Lemma transform_loop_rejected (rows : list (gmap string value)) (t : tables)
    (row : gmap string value) (v : value) :
  row ∈ rows → row !! "Date" = Some v → date_accepted v = false →
  dates_accepted (date_dim t) → ∃ e, transform_loop rows t = Raise e.
Proof.
  intros Hin Hrow Hv. revert t.
  induction rows as [|r rows IH]; intros t Hdd; [inversion Hin|].
  cbn [transform_loop].
  destruct (transform_row t r) as [t'|e] eqn:Ht.
  - rewrite bind_Ok. apply elem_of_cons in Hin as [Heq|Hin].
    + subst r.
      destruct (transform_row_rejected t row v Hrow Hv Hdd) as (e & He). congruence.
    + apply (IH Hin). eapply transform_row_accepted; eassumption.
  - eexists. reflexivity.
Qed.

Lemma transform_loop_total (rows : list (gmap string value)) (t : tables) :
  Forall (λ row, complete_row row = true) rows →
  (∀ row v, row ∈ rows → row !! "Date" = Some v → date_accepted v = true) →
  ∃ t', transform_loop rows t = Ok t'.
Proof.
  intros Hc. revert t. induction Hc as [|r rows Hr _ IH]; intros t Hdates.
  - eexists. reflexivity.
  - cbn [transform_loop].
    assert (Hd : ∃ v, r !! "Date" = Some v).
    { unfold complete_row in Hr. apply andb_true_iff in Hr as [_ Hr].
      cbn [forallb] in Hr.
      repeat match goal with
             | H : _ && _ = true |- _ => apply andb_true_iff in H as [? ?]
             end.
      apply has_column_lookup. assumption. }
    destruct Hd as (v & Hv).
    destruct (transform_row_total t r v Hr Hv) as (t' & ->).
    { apply (Hdates r v); [left | exact Hv]. }
    rewrite bind_Ok. apply IH. intros row w Hin. apply Hdates. right. exact Hin.
Qed.

(** ** Uniqueness of keys in the transformer *)

(** A key held as text is never found among the integer keys already
    emitted: [str == int] is false. *)
Lemma text_key_never_seen {A} (f : A → Z) (s : string) (l : list A) :
  py_in (VStr s) (map (λ p, VInt (f p)) l) = false.
Proof. unfold py_in. induction l as [|p l IH]; [reflexivity | exact IH]. Qed.

(** A key held as an integer is found exactly when it was emitted. *)
Lemma int_key_seen {A} (f : A → Z) (n : Z) (l : list A) :
  py_in (VInt n) (map (λ p, VInt (f p)) l) = true ↔ n ∈ map f l.
Proof.
  unfold py_in. induction l as [|p l IH]; simpl.
  - split; [discriminate | intros H; inversion H].
  - rewrite orb_true_iff, IH, elem_of_cons, Z.eqb_eq. reflexivity.
Qed.

(** With a text ProductID every row that names its product appends a
    record, whatever the product dimension already holds. *)
Lemma product_step_text_id (row : gmap string value) (pd : list ProductDimRecord)
    (s : string) (n : Z) (name brand category : value) :
  row !! "ProductID" = Some (VStr s) → int_of_str s = Ok n →
  row !! "ProductName" = Some name → truthy name = true →
  row !! "Brand" = Some brand → row !! "Category" = Some category →
  product_step row pd
  = Ok (pd ++ [{| pd_ProductID := n; pd_Name := name;
                  pd_Brand := or_none brand; pd_Category := or_none category |}])%list.
Proof.
  intros Hid Hn Hname Ht Hb Hc. unfold product_step. run_step.
  rewrite text_key_never_seen, Ht. simpl py_int. rewrite Hn. run_step. reflexivity.
Qed.

Lemma retailer_step_text_id (row : gmap string value) (rd : list RetailerDimRecord)
    (s : string) (n : Z) (name channel location : value) :
  row !! "RetailerID" = Some (VStr s) → int_of_str s = Ok n →
  row !! "RetailerName" = Some name → truthy name = true →
  row !! "Channel" = Some channel → row !! "Location" = Some location →
  retailer_step row rd
  = Ok (rd ++ [{| rd_RetailerID := n; rd_Name := name;
                  rd_Channel := or_none channel; rd_Location := or_none location |}])%list.
Proof.
  intros Hid Hn Hname Ht Hb Hc. unfold retailer_step. run_step.
  rewrite text_key_never_seen, Ht. simpl py_int. rewrite Hn. run_step. reflexivity.
Qed.

(** With a text SaleID every row appends a sales fact. *)
Lemma sales_step_text_id (row : gmap string value) (sf : list SalesFactRecord)
    (s : string) (n product retailer quantity : Z) (vp vr vq date price : value) :
  row !! "SaleID" = Some (VStr s) → int_of_str s = Ok n →
  row !! "ProductID" = Some vp → py_int vp = Ok product →
  row !! "RetailerID" = Some vr → py_int vr = Ok retailer →
  row !! "Date" = Some date →
  row !! "Quantity" = Some vq → py_int vq = Ok quantity →
  row !! "Price" = Some price →
  sales_step row sf
  = Ok (sf ++ [{| sf_SaleID := n; sf_ProductID := product;
                  sf_RetailerID := retailer; sf_Date := date;
                  sf_Quantity := quantity; sf_Price := price |}])%list.
Proof.
  intros Hid Hn Hp Hpn Hr Hrn Hd Hq Hqn Hprice. unfold sales_step. run_step.
  rewrite text_key_never_seen. simpl py_int. rewrite Hn. run_step. reflexivity.
Qed.

(** With integer keys the membership tests work: no key is emitted twice. *)
Lemma product_step_int_id (row : gmap string value) (pd pd' : list ProductDimRecord)
    (n : Z) :
  row !! "ProductID" = Some (VInt n) → product_step row pd = Ok pd' →
  NoDup (map pd_ProductID pd) → NoDup (map pd_ProductID pd').
Proof.
  intros Hid H Hnd. unfold product_step in H. revert H. run_step.
  destruct (row !! "ProductName") as [name|]; [|discriminate]. run_step.
  destruct (py_in (VInt n) _) eqn:Hseen; simpl negb.
  - intros H. inversion H; subst. exact Hnd.
  - destruct (truthy name); simpl andb; [|intros H; inversion H; subst; exact Hnd].
    simpl py_int. run_step.
    destruct (row !! "Brand") as [brand|]; [|discriminate]. run_step.
    destruct (row !! "Category") as [category|]; [|discriminate]. run_step.
    intros H. inversion H; subst. rewrite map_app. simpl.
    apply NoDup_app. split; [exact Hnd|]. split; [|apply NoDup_singleton].
    intros k Hk Hk'. apply list_elem_of_singleton in Hk'. subst k.
    apply int_key_seen in Hk. congruence.
Qed.

Lemma sales_step_int_id (row : gmap string value) (sf sf' : list SalesFactRecord)
    (n : Z) :
  row !! "SaleID" = Some (VInt n) → sales_step row sf = Ok sf' →
  NoDup (map sf_SaleID sf) → NoDup (map sf_SaleID sf').
Proof.
  intros Hid H Hnd. unfold sales_step in H. revert H. run_step.
  destruct (py_in (VInt n) _) eqn:Hseen; simpl negb.
  - intros H. inversion H; subst. exact Hnd.
  - simpl py_int. run_step. intros H.
    apply bind_is_Ok in H as (product & _ & H).
    apply bind_is_Ok in H as (retailer & _ & H).
    apply bind_is_Ok in H as (date & _ & H).
    apply bind_is_Ok in H as (quantity & _ & H).
    apply bind_is_Ok in H as (price & _ & H).
    inversion H; subst. rewrite map_app. simpl.
    apply NoDup_app. split; [exact Hnd|]. split; [|apply NoDup_singleton].
    intros k Hk Hk'. apply list_elem_of_singleton in Hk'. subst k.
    apply int_key_seen in Hk. congruence.
Qed.

Lemma transform_loop_int_ids (rows : list (gmap string value)) (t t' : tables) :
  (∀ row, row ∈ rows →
     ∃ p s, row !! "ProductID" = Some (VInt p) ∧ row !! "SaleID" = Some (VInt s)) →
  transform_loop rows t = Ok t' →
  NoDup (map pd_ProductID (product_dim t)) → NoDup (map sf_SaleID (sales_fact t)) →
  NoDup (map pd_ProductID (product_dim t')) ∧ NoDup (map sf_SaleID (sales_fact t')).
Proof.
  revert t. induction rows as [|row rows IH]; intros t Hint H Hp Hs.
  - inversion H; subst. auto.
  - cbn [transform_loop] in H. apply bind_is_Ok in H as (t1 & Hrow & H).
    destruct (Hint row ltac:(left)) as (p & s & Hpid & Hsid).
    unfold transform_row in Hrow.
    apply bind_is_Ok in Hrow as (pd & Hpd & Hrow).
    apply bind_is_Ok in Hrow as (rd & _ & Hrow).
    apply bind_is_Ok in Hrow as (dd & _ & Hrow).
    apply bind_is_Ok in Hrow as (sf & Hsf & Hrow).
    inversion Hrow; subst. apply (IH _ ltac:(intros r Hr; apply Hint; right; exact Hr) H).
    + simpl. eapply product_step_int_id; eassumption.
    + simpl. eapply sales_step_int_id; eassumption.
Qed.

(** On rows whose ProductID and SaleID are integers, the product dimension
    and the sales facts hold each key once. *)
Lemma transform_data_unique_for_integer_ids (rows : list (gmap string value))
    pd rd dd sf :
  (∀ row, row ∈ rows →
     ∃ p s, row !! "ProductID" = Some (VInt p) ∧ row !! "SaleID" = Some (VInt s)) →
  transform_data rows = Ok (pd, rd, dd, sf) →
  NoDup (map pd_ProductID pd) ∧ NoDup (map sf_SaleID sf).
Proof.
  intros Hint H. unfold transform_data in H.
  apply bind_is_Ok in H as (t & Ht & H). inversion H; subst.
  apply (transform_loop_int_ids rows no_tables t Hint Ht); constructor.
Qed.

(** C1. The product and retailer dimensions are meant to hold one record
    per key, but the membership test compares the row's key, which the
    cleaner leaves as text, with the integers already emitted: it never
    finds it.  Two cleaned rows that share ProductID ["10"] and RetailerID
    ["20"] give two product records with ProductID 10 and two retailer
    records with RetailerID 20. *)
Theorem product_dim_repeats_text_keys (hash : identifier → Z) :
  (λ t, (t.1.1.1, t.1.1.2)) <$>
    pipeline hash
      [raw_row "1" "10" "20" "Widget" "Shop" "2024-03-15" "1" "5.50";
       raw_row "2" "10" "20" "Gadget" "Store" "2024-03-15" "1" "5.50"]
  = Ok ([{| pd_ProductID := 10; pd_Name := VStr "Widget";
            pd_Brand := VStr "Acme"; pd_Category := VNone |};
         {| pd_ProductID := 10; pd_Name := VStr "Gadget";
            pd_Brand := VStr "Acme"; pd_Category := VNone |}],
        [{| rd_RetailerID := 20; rd_Name := VStr "Shop";
            rd_Channel := VStr "Online"; rd_Location := VNone |};
         {| rd_RetailerID := 20; rd_Name := VStr "Store";
            rd_Channel := VStr "Online"; rd_Location := VNone |}]).
Proof. unfold pipeline. rewrite clean_data_spec. by_evaluation. Qed.

(** C2. The sales facts are meant to hold one record per SaleID, but the
    membership test compares the text SaleID of the row with the integers
    already emitted.  Two cleaned rows with SaleID ["1"] that differ in
    Quantity give two sales facts with SaleID 1. *)
Theorem sales_fact_repeats_text_keys (hash : identifier → Z) :
  (λ t, t.2) <$>
    pipeline hash
      [raw_row "1" "10" "20" "Widget" "Shop" "2024-03-15" "1" "5.50";
       raw_row "1" "10" "20" "Widget" "Shop" "2024-03-15" "2" "5.50"]
  = Ok [{| sf_SaleID := 1; sf_ProductID := 10; sf_RetailerID := 20;
           sf_Date := VStr "2024-03-15"; sf_Quantity := 1;
           sf_Price := VFloat float_5_5 |};
        {| sf_SaleID := 1; sf_ProductID := 10; sf_RetailerID := 20;
           sf_Date := VStr "2024-03-15"; sf_Quantity := 2;
           sf_Price := VFloat float_5_5 |}].
Proof. unfold pipeline. rewrite clean_data_spec. by_evaluation. Qed.

(** ** Dates that stop the transformer *)

(** C8, as stated, fails in both directions: a date outside the strict
    shape is accepted, and a row with a well-formed date still stops the
    run when a column is missing. *)
Lemma strict_date_shape_is_not_the_gate :
  yyyy_mm_dd_shape "2024-3-5" = false
  ∧ is_ok (pipeline hash_zero
             [raw_row "1" "10" "20" "Widget" "Shop" "2024-3-5" "1" "5.50"]) = true
  ∧ yyyy_mm_dd_shape "2024-03-15" = true
  ∧ pipeline hash_zero
      [delete "Brand" (raw_row "1" "10" "20" "Widget" "Shop" "2024-03-15" "1" "5.50")]
    = Raise (KeyError "Brand").
Proof.
  split; [reflexivity|]. split; [by_evaluation|]. split; [reflexivity|].
  by_evaluation.
Qed.

(** C8, amended. If some row carries a Date that [strptime] with format
    [%Y-%m-%d] does not parse, [transform_data] raises and returns no record
    set; and when every row is complete and every Date parses, it returns
    the four record sets. *)
Theorem transform_data_stops_on_rejected_date (rows : list (gmap string value)) :
  (∀ row v, row ∈ rows → row !! "Date" = Some v → date_accepted v = false →
     ∃ e, transform_data rows = Raise e)
  ∧ (Forall (λ row, complete_row row = true) rows →
     (∀ row v, row ∈ rows → row !! "Date" = Some v → date_accepted v = true) →
     ∃ sets, transform_data rows = Ok sets).
Proof.
  split.
  - intros row v Hin Hrow Hv.
    destruct (transform_loop_rejected rows no_tables row v Hin Hrow Hv) as (e & He).
    { constructor. }
    exists e. unfold transform_data. rewrite He. reflexivity.
  - intros Hc Hd.
    destruct (transform_loop_total rows no_tables Hc Hd) as (t & Ht).
    eexists. unfold transform_data. rewrite Ht. reflexivity.
Qed.

Lemma transform_data_stops_on_rejected_date_witness :
  (∃ e, transform_data
          [cleaned_row "1" "10" "20" "Widget" "Shop" "2024-03-15" 1 float_5_5;
           cleaned_row "2" "10" "20" "Widget" "Shop" "2024-02-30" 1 float_5_5]
        = Raise e)
  ∧ (∃ sets, transform_data
               [cleaned_row "1" "10" "20" "Widget" "Shop" "2024-03-15" 1 float_5_5;
                cleaned_row "2" "10" "20" "Widget" "Shop" "2024-3-5" 1 float_5_5]
             = Ok sets).
Proof.
  split.
  - apply (proj1 (transform_data_stops_on_rejected_date _)
             (cleaned_row "2" "10" "20" "Widget" "Shop" "2024-02-30" 1 float_5_5)
             (VStr "2024-02-30")).
    + right. left.
    + by_evaluation.
    + vm_compute. reflexivity.
  - apply (proj2 (transform_data_stops_on_rejected_date _)).
    + apply Forall_cons. split; [by_evaluation|].
      apply Forall_cons. split; [by_evaluation | constructor].
    + intros row v Hin Hv.
      apply elem_of_cons in Hin as [->|Hin];
        [|apply list_elem_of_singleton in Hin; subst row];
        vm_compute in Hv; inversion Hv; subst v; vm_compute; reflexivity.
Defined.

(** * Further properties of the field cleaners *)

Lemma string_filter_app (p : ascii → bool) (a b : string) :
  string_filter p (a ++ b) = string_filter p a ++ string_filter p b.
Proof.
  induction a as [|c a IH]; simpl; [reflexivity|].
  destruct (p c); simpl; rewrite IH; reflexivity.
Qed.

(** X1. [clean_price] does not see the characters that are neither digits
    nor points: taking one out of the text, wherever it stands, changes
    nothing (a minus sign, a currency symbol, a thousands separator, the
    letter of an exponent). *)
Theorem clean_price_ignores_other_characters (a b : string) (c : ascii) :
  isdigit_char c = false → c ≠ "."%char →
  clean_price (a ++ String c b) = clean_price (a ++ b).
Proof.
  intros Hd Hp. unfold clean_price. rewrite !string_filter_app. simpl.
  rewrite Hd. destruct (Ascii.eqb_spec c "."); [contradiction|]. reflexivity.
Qed.

Lemma clean_price_ignores_other_characters_witness :
  clean_price ("" ++ String "-" "5.25") = clean_price ("" ++ "5.25").
Proof.
  apply (clean_price_ignores_other_characters "" "5.25" "-").
  - reflexivity.
  - discriminate.
Defined.

Lemma decimal_not_point (c : ascii) : isdecimal_char c = true → Ascii.eqb c "." = false.
Proof.
  intros H. rewrite ascii_eqb_code. char_facts. change (code ".") with 46.
  bool_to_Z. lia.
Qed.

Lemma scan_decimal_accepts (s : string) (dot : bool) (m k : Z) (any : bool) :
  match scan_decimal s dot m k any with Some _ => true | None => false end
  = string_forall (λ c, isdecimal_char c || Ascii.eqb c ".") s
    && (count_char "." s <=? (if dot then 0 else 1))%nat
    && (any || string_exists isdecimal_char s).
Proof.
  revert dot m k any. induction s as [|c s IH]; intros dot m k any; simpl.
  - destruct any, dot; reflexivity.
  - destruct (isdecimal_char c) eqn:Hc; simpl.
    + rewrite (decimal_not_point c Hc), IH, orb_true_r. reflexivity.
    + destruct (Ascii.eqb c ".") eqn:Hp; simpl; [|reflexivity].
      destruct dot; simpl; [rewrite andb_false_r; reflexivity|]. rewrite IH. simpl.
      destruct (count_char "." s) as [|[|n]]; reflexivity.
Qed.

Lemma float_of_str_raises (s : string) (e : exn) : float_of_str s = Raise e → e = ValueError.
Proof.
  unfold float_of_str. destruct (scan_decimal s false 0 0 false) as [[m k]|];
    intros H; inversion H; reflexivity.
Qed.

Lemma float_of_str_ok (s : string) : is_ok (float_of_str s) = number_text s.
Proof.
  unfold float_of_str, number_text.
  rewrite <- (orb_false_l (string_exists isdecimal_char s)).
  rewrite <- (scan_decimal_accepts s false 0 0 false).
  destruct (scan_decimal s false 0 0 false) as [[m k]|]; reflexivity.
Qed.

Lemma clean_price_raises (v : string) (e : exn) : clean_price v = Raise e → e = ValueError.
Proof.
  unfold clean_price. destruct (negb (is_empty _)); [|discriminate].
  destruct (float_of_str _) as [f|e'] eqn:Hf; simpl; [discriminate|].
  intros H. inversion H; subst. eapply float_of_str_raises, Hf.
Qed.

(** X2. [clean_price] returns exactly when what it keeps of the text is
    empty or is a run of decimal digits with at most one point and at least
    one digit; otherwise it raises, and what it raises is [ValueError]. *)
Theorem clean_price_returns_iff (v : string) :
  (is_ok (clean_price v) = true
   ↔ string_filter price_char v = "" ∨ number_text (string_filter price_char v) = true)
  ∧ ∀ e, clean_price v = Raise e → e = ValueError.
Proof.
  split; [|apply clean_price_raises].
  unfold clean_price. fold price_char.
  destruct (string_filter price_char v) as [|c s] eqn:Hk; simpl.
  - split; auto.
  - rewrite <- float_of_str_ok.
    destruct (float_of_str (String c s)); simpl; split; auto.
    intros [H|H]; [discriminate H | exact H].
Qed.

Lemma string_map_length (f : ascii → ascii) (s : string) :
  String.length (string_map f s) = String.length s.
Proof. induction s as [|c s IH]; simpl; congruence. Qed.

Lemma string_map_id_on (f : ascii → ascii) (s : string) :
  string_forall (λ c, Ascii.eqb (f c) c) s = true → string_map f s = s.
Proof.
  induction s as [|c s IH]; simpl; [reflexivity|]. intros H.
  apply andb_true_iff in H as [Hc Hs]. apply Ascii.eqb_eq in Hc.
  rewrite Hc, (IH Hs). reflexivity.
Qed.

Lemma slashes_replaced (s : string) :
  string_mem "/" (string_map (λ c, if Ascii.eqb c "/" then "-"%char else c) s) = false.
Proof.
  induction s as [|c s IH]; cbn [string_map string_mem]; [reflexivity|].
  rewrite IH, orb_false_r.
  destruct (Ascii.eqb c "/") eqn:Hc; [reflexivity|].
  rewrite Ascii.eqb_sym. exact Hc.
Qed.

(** X3. [clean_date] returns text of the same length in which no ['/'] is
    left; text without ['/'] comes back unchanged, so cleaning a cleaned
    date changes nothing. *)
Theorem clean_date_replaces_slashes (v : string) :
  ∃ s, clean_date v = VStr s
       ∧ string_mem "/" s = false
       ∧ String.length s = String.length v
       ∧ clean_date s = VStr s
       ∧ (string_mem "/" v = false → s = v).
Proof.
  unfold clean_date. destruct (string_mem "/" v) eqn:Hv.
  - eexists. split; [reflexivity|].
    split; [apply slashes_replaced|]. split; [apply string_map_length|].
    split; [|discriminate]. rewrite slashes_replaced. reflexivity.
  - exists v. rewrite Hv. auto.
Qed.

Lemma int_digits_nonneg (s : string) (prev : bool) (acc n : Z) :
  0 <= acc → int_digits s prev acc = Some n → 0 <= n.
Proof.
  revert prev acc. induction s as [|c s IH]; intros prev acc Hacc; simpl.
  - destruct prev; [|discriminate]. intros H. inversion H; subst. exact Hacc.
  - destruct (isdecimal_char c) eqn:Hc.
    + apply IH. pose proof (decimal_digit_value c Hc). lia.
    + destruct (Ascii.eqb c "_" && prev); [|discriminate]. apply IH, Hacc.
Qed.

Lemma rstrip_with_keeps_head (p : ascii → bool) (c : ascii) (s : string) :
  p c = false → rstrip_with p (String c s) = String c (rstrip_with p s).
Proof. intros H. simpl. rewrite H, andb_false_r. reflexivity. Qed.

(** X4. [clean_quantity] always returns an integer that is at least 0; on
    a non-empty run of decimal digits it returns the number they write, and
    on any text that starts with a minus sign it returns 0. *)
Theorem clean_quantity_reads_digits :
  (∀ s, ∃ n, clean_quantity s = VInt n ∧ 0 <= n)
  ∧ (∀ s, s ≠ "" → string_forall isdecimal_char s = true →
       clean_quantity s = VInt (decimal_value s 0))
  ∧ (∀ s, clean_quantity (String "-" s) = VInt 0).
Proof.
  split; [apply clean_quantity_nonneg|]. split.
  - intros s Hne Hs. unfold clean_quantity. rewrite (int_of_str_decimal s Hne Hs).
    assert (Hn : 0 <= decimal_value s 0).
    { pose proof (int_digits_decimal s true 0 Hs ltac:(left; reflexivity)) as Hd.
      eapply int_digits_nonneg; [|exact Hd]. lia. }
    apply Z.leb_le in Hn. rewrite Hn. reflexivity.
  - intros s. unfold clean_quantity, int_of_str.
    change (lstrip_with int_space_char (String "-" s)) with (String "-" s).
    rewrite rstrip_with_keeps_head by reflexivity.
    change (Ascii.eqb "-" "-") with true. cbv iota.
    destruct (int_digits (rstrip_with int_space_char s) false 0) as [n|] eqn:Hd;
      [|reflexivity].
    pose proof (int_digits_nonneg _ false 0 n ltac:(lia) Hd) as Hn.
    destruct (0 <=? - n) eqn:Hle; [|reflexivity].
    apply Z.leb_le in Hle. replace n with 0 by lia. reflexivity.
Qed.

Lemma clean_quantity_reads_digits_witness :
  clean_quantity "0042" = VInt (decimal_value "0042" 0).
Proof.
  apply clean_quantity_reads_digits.
  - discriminate.
  - reflexivity.
Defined.

(** * Further properties of the cleaner *)

(** ** Trimming *)

Lemma lstrip_with_head (p : ascii → bool) (s : string) :
  lstrip_with p s = "" ∨ ∃ c r, lstrip_with p s = String c r ∧ p c = false.
Proof.
  induction s as [|c s IH]; simpl; [left; reflexivity|].
  destruct (p c) eqn:Hc; [exact IH|]. right. exists c, s. auto.
Qed.

Lemma lstrip_with_empty (p : ascii → bool) (s : string) :
  is_empty (lstrip_with p s) = string_forall p s.
Proof.
  induction s as [|c s IH]; simpl; [reflexivity|].
  destruct (p c); simpl; [exact IH | reflexivity].
Qed.

Lemma rstrip_with_idem (p : ascii → bool) (s : string) :
  rstrip_with p (rstrip_with p s) = rstrip_with p s.
Proof.
  induction s as [|c s IH]; simpl; [reflexivity|].
  destruct (is_empty (rstrip_with p s) && p c) eqn:Hc; [reflexivity|].
  simpl. rewrite IH, Hc. reflexivity.
Qed.

Lemma strip_spec (s : string) :
  lstrip_with isspace_char (strip s) = strip s
  ∧ rstrip_with isspace_char (strip s) = strip s.
Proof.
  unfold strip. split; [|apply rstrip_with_idem].
  destruct (lstrip_with_head isspace_char s) as [->|(c & r & -> & Hc)];
    [reflexivity|].
  rewrite (rstrip_with_keeps_head _ c r Hc). simpl. rewrite Hc. reflexivity.
Qed.

Lemma strip_idem (s : string) : strip (strip s) = strip s.
Proof.
  destruct (strip_spec s) as [Hl Hr]. unfold strip at 1. rewrite Hl. exact Hr.
Qed.

Lemma strip_empty (s : string) : is_empty (strip s) = blank s.
Proof.
  unfold strip, blank. rewrite <- lstrip_with_empty.
  destruct (lstrip_with_head isspace_char s) as [->|(c & r & -> & Hc)];
    [reflexivity|].
  rewrite (rstrip_with_keeps_head _ c r Hc). reflexivity.
Qed.

Lemma lstrip_with_map (p : ascii → bool) (f : ascii → ascii) (s : string) :
  (∀ c, p (f c) = p c) →
  lstrip_with p (string_map f s) = string_map f (lstrip_with p s).
Proof.
  intros Hf. induction s as [|c s IH]; simpl; [reflexivity|].
  rewrite Hf. destruct (p c); [exact IH | reflexivity].
Qed.

Lemma rstrip_with_map (p : ascii → bool) (f : ascii → ascii) (s : string) :
  (∀ c, p (f c) = p c) →
  rstrip_with p (string_map f s) = string_map f (rstrip_with p s).
Proof.
  intros Hf. induction s as [|c s IH]; simpl; [reflexivity|].
  rewrite IH, Hf.
  assert (He : is_empty (string_map f (rstrip_with p s)) = is_empty (rstrip_with p s)).
  { destruct (rstrip_with p s); reflexivity. }
  rewrite He. destruct (is_empty (rstrip_with p s) && p c); reflexivity.
Qed.

Lemma slash_swap_space (c : ascii) :
  isspace_char (if Ascii.eqb c "/" then "-"%char else c) = isspace_char c.
Proof.
  destruct (Ascii.eqb_spec c "/") as [->|]; reflexivity.
Qed.

(** What the cleaner stores for a column whose raw text is [s]. *)
Lemma clean_value_trimmed (k s t : string) :
  clean_value k (strip s) = Ok (VStr t) →
  lstrip_with isspace_char t = t ∧ rstrip_with isspace_char t = t.
Proof.
  unfold clean_value.
  destruct (String.eqb k "Location").
  { unfold clean_location. destruct (is_empty (strip s)); intros H; inversion H.
    apply strip_spec. }
  destruct (String.eqb k "Price").
  { intros H. apply clean_price_plain in H as (f & Hf & _). discriminate Hf. }
  destruct (String.eqb k "Date").
  { unfold clean_date. destruct (string_mem "/" (strip s)); intros H; inversion H.
    - rewrite (lstrip_with_map _ _ _ slash_swap_space),
              (rstrip_with_map _ _ _ slash_swap_space).
      destruct (strip_spec s) as [-> ->]. auto.
    - apply strip_spec. }
  destruct (String.eqb k "Quantity").
  { intros H. destruct (clean_quantity_nonneg (strip s)) as (n & Hn & _).
    inversion H. congruence. }
  intros H. inversion H. apply strip_spec.
Qed.

(** X5. Every text value of a record returned by [clean_data] is trimmed:
    it neither starts nor ends with white space, so stripping it on either
    side changes nothing.  This holds for every column, the Date included. *)
Theorem cleaned_text_is_trimmed (hash : identifier → Z)
    (data : list (gmap string string)) (ids : list string)
    (out : list (gmap string value)) (r : gmap string value)
    (k t : string) :
  clean_data hash data ids = Ok out → r ∈ out → r !! k = Some (VStr t) →
  lstrip_with isspace_char t = t ∧ rstrip_with isspace_char t = t ∧ strip t = t.
Proof.
  intros H Hr Hk.
  destruct (clean_data_origin hash data ids out r H Hr) as (row & Hin & Hv & Hrow).
  destruct (proj1 (clean_row_lookup row r Hrow k (VStr t)) Hk) as (s & Hs & Hc).
  destruct (clean_value_trimmed k s t Hc) as [Hl Hrt].
  split; [exact Hl|]. split; [exact Hrt|]. unfold strip. rewrite Hl. exact Hrt.
Qed.

Lemma cleaned_text_is_trimmed_witness :
  lstrip_with isspace_char "Widget" = "Widget"
  ∧ rstrip_with isspace_char "Widget" = "Widget" ∧ strip "Widget" = "Widget".
Proof.
  apply (cleaned_text_is_trimmed hash_zero
           [raw_row "1" "2" "3" "  Widget " "Shop" "2024-03-15" "4" "$5.50"]
           default_id_fields
           [cleaned_row "1" "2" "3" "Widget" "Shop" "2024-03-15" 4 float_5_5]
           (cleaned_row "1" "2" "3" "Widget" "Shop" "2024-03-15" 4 float_5_5)
           "ProductName").
  - by_evaluation.
  - left.
  - by_evaluation.
Defined.

(** X6. The Location of a cleaned row is [None] exactly when the raw text
    is blank (empty or white space only); otherwise it is the trimmed text,
    which is then not empty. *)
Theorem clean_row_location (row : gmap string string) (c : gmap string value)
    (s : string) :
  clean_row row = Ok c → row !! "Location" = Some s →
  c !! "Location" = Some (if blank s then VNone else VStr (strip s))
  ∧ (blank s = false → strip s ≠ "").
Proof.
  intros Hrow Hs. split.
  - apply (clean_row_lookup row c Hrow). exists s. split; [exact Hs|].
    unfold clean_value. simpl. unfold clean_location. rewrite strip_empty.
    reflexivity.
  - intros Hb He. rewrite <- strip_empty, He in Hb. discriminate Hb.
Qed.

Lemma clean_row_location_witness :
  cleaned_row "1" "2" "3" "Widget" "Shop" "2024-03-15" 4 float_5_5 !! "Location"
  = Some (if blank "" then VNone else VStr (strip ""))
  ∧ (blank "" = false → strip "" ≠ "").
Proof.
  apply (clean_row_location
           (raw_row "1" "2" "3" "Widget" "Shop" "2024-03-15" "4" "$5.50")).
  - by_evaluation.
  - by_evaluation.
Defined.

(** ** Where the records come from *)

Lemma comprehension_items_all_ok {A B} (f : string → A → result B)
    (l : list (string * A)) (r : gmap string B) :
  comprehension_items f l = Ok r → ∀ k a, (k, a) ∈ l → is_ok (f k a) = true.
Proof.
  revert r. induction l as [|[k0 a0] l IH]; intros r H k a Hin; [inversion Hin|].
  simpl in H. apply bind_is_Ok in H as (b0 & Hb0 & H).
  apply bind_is_Ok in H as (r' & Hr' & _).
  apply elem_of_cons in Hin as [Heq|Hin].
  - inversion Heq; subst. rewrite Hb0. reflexivity.
  - eapply IH; eassumption.
Qed.

Lemma comprehension_items_raises {A B} (f : string → A → result B)
    (l : list (string * A)) (e : exn) :
  comprehension_items f l = Raise e → ∃ k a, (k, a) ∈ l ∧ f k a = Raise e.
Proof.
  induction l as [|[k0 a0] l IH]; simpl; [discriminate|].
  destruct (f k0 a0) as [b0|e0] eqn:H0; simpl.
  - destruct (comprehension_items f l) as [r|e1]; simpl; [discriminate|].
    intros H. inversion H; subst.
    destruct (IH eq_refl) as (k & a & Hin & Hf). exists k, a. split; [right|]; auto.
  - intros H. inversion H; subst. exists k0, a0. split; [left | exact H0].
Qed.

Lemma clean_row_columns (row : gmap string string) (c : gmap string value) :
  clean_row row = Ok c → columns c = columns row.
Proof.
  intros H. unfold columns. apply set_eq. intros k. rewrite !elem_of_dom. split.
  - intros [v Hv]. apply (clean_row_lookup row c H) in Hv as (s & Hs & _). eauto.
  - intros [s Hs].
    assert (Hok : is_ok (clean_value k (strip s)) = true).
    { unfold clean_row, dict_comprehension in H.
      eapply (comprehension_items_all_ok _ _ _ H).
      apply elem_of_map_to_list. rewrite lookup_fmap, Hs. reflexivity. }
    destruct (clean_value k (strip s)) as [v|] eqn:Hv; [|discriminate].
    exists v. apply (clean_row_lookup row c H). eauto.
Qed.

Lemma list_filter_sublist {A} (p : A → bool) (l : list A) : sublist (List.filter p l) l.
Proof.
  induction l as [|x l IH]; simpl; [constructor|].
  destruct (p x); [apply sublist_skip | apply sublist_cons]; exact IH.
Qed.

Lemma Forall2_sublist_back {A B} (R : A → B → Prop) (l : list A) (k k' : list B) :
  Forall2 R l k → sublist k' k → ∃ l', sublist l' l ∧ Forall2 R l' k'.
Proof.
  intros HF. revert k'. induction HF as [|x y l k Hxy HF IH]; intros k' Hsub.
  - apply sublist_nil_r in Hsub. subst. exists []. split; constructor.
  - inversion Hsub as [|? k1 ? Hs|? k1 ? Hs]; subst.
    + destruct (IH k1 Hs) as (l' & Hl' & HF'). exists (x :: l').
      split; [apply sublist_skip, Hl' | constructor; assumption].
    + destruct (IH k' Hs) as (l' & Hl' & HF'). exists l'.
      split; [apply sublist_cons, Hl' | exact HF'].
Qed.

(** X7. The records [clean_data] returns are the cleaned versions of some
    of the input rows, one record per row and in the order of the input:
    each comes from a row that passed the filter, and has exactly the
    columns of that row (no column is added, dropped or renamed). *)
Theorem clean_data_records_follow_rows (hash : identifier → Z)
    (data : list (gmap string string)) (ids : list string)
    (out : list (gmap string value)) :
  clean_data hash data ids = Ok out →
  ∃ kept, sublist kept data
          ∧ Forall2 (λ row c, valid_row ids row = true ∧ clean_row row = Ok c
                              ∧ columns c = columns row) kept out.
Proof.
  intros H. apply clean_data_Ok in H as (cl & Hcl & ->).
  destruct (Forall2_sublist_back _ _ _ _ Hcl (first_occurrences_sublist cl))
    as (kept & Hsub & HF).
  exists kept. split.
  - etransitivity; [exact Hsub | apply list_filter_sublist].
  - assert (Hvalid : Forall (λ row, valid_row ids row = true) kept).
    { apply Forall_forall. intros row Hrow.
      pose proof (elem_of_sublist _ _ _ Hrow Hsub) as Hin.
      apply list_elem_of_In, filter_In in Hin. tauto. }
    clear Hsub Hcl. induction HF as [|row c kept out Hc HF IH]; constructor.
    + apply Forall_cons in Hvalid as [Hv _].
      split; [exact Hv|]. split; [exact Hc | apply clean_row_columns, Hc].
    + apply IH. apply Forall_cons in Hvalid. tauto.
Qed.

Lemma clean_data_records_follow_rows_witness :
  ∃ kept,
    sublist kept
      [raw_row "1" "2" "3" "Widget" "Shop" "2024-03-15" "4" "$5.50";
       raw_row "" "2" "3" "Widget" "Shop" "2024-03-15" "4" "$5.50";
       raw_row "7" "2" "3" "Gadget" "Shop" "2024-03-16" "1" "9"]
    ∧ Forall2 (λ row c, valid_row default_id_fields row = true
                        ∧ clean_row row = Ok c ∧ columns c = columns row)
        kept
        [cleaned_row "1" "2" "3" "Widget" "Shop" "2024-03-15" 4 float_5_5;
         cleaned_row "7" "2" "3" "Gadget" "Shop" "2024-03-16" 1 float_9].
Proof.
  apply (clean_data_records_follow_rows hash_zero).
  by_evaluation.
Defined.

(** ** When the cleaner raises *)

Lemma clean_row_raises (row : gmap string string) (e : exn) :
  clean_row row = Raise e → e = ValueError.
Proof.
  intros H. unfold clean_row, dict_comprehension in H.
  apply comprehension_items_raises in H as (k & a & _ & Hf).
  unfold clean_value in Hf.
  destruct (String.eqb k "Location"); [discriminate|].
  destruct (String.eqb k "Price"); [eapply clean_price_raises, Hf|].
  destruct (String.eqb k "Date"); [discriminate|].
  destruct (String.eqb k "Quantity"); discriminate.
Qed.

Lemma clean_row_fails_iff (row : gmap string string) :
  is_ok (clean_row row) = false
  ↔ ∃ s, row !! "Price" = Some s ∧ is_ok (clean_price (strip s)) = false.
Proof.
  split.
  - intros H. destruct (row !! "Price") as [s|] eqn:Hs.
    + destruct (is_ok (clean_price (strip s))) eqn:Hp; [|eauto].
      rewrite clean_row_total in H; [discriminate|].
      intros s' Hs'. rewrite Hs in Hs'. inversion Hs'; subst. exact Hp.
    + rewrite clean_row_total in H; [discriminate|].
      intros s' Hs'. rewrite Hs in Hs'. discriminate.
  - intros (s & Hs & Hp). destruct (clean_row row) as [c|] eqn:Hc; [|reflexivity].
    unfold clean_row, dict_comprehension in Hc.
    assert (Hok : is_ok (clean_value "Price" (strip s)) = true).
    { eapply (comprehension_items_all_ok _ _ _ Hc).
      apply elem_of_map_to_list. rewrite lookup_fmap, Hs. reflexivity. }
    unfold clean_value in Hok. simpl in Hok. congruence.
Qed.

Lemma mapM_fails_iff {A B} (f : A → result B) (l : list A) :
  is_ok (mapM f l) = false ↔ ∃ x, x ∈ l ∧ is_ok (f x) = false.
Proof.
  induction l as [|x l IH]; simpl.
  - split; [discriminate|]. intros (x & Hx & _). inversion Hx.
  - destruct (f x) as [y|e] eqn:Hx.
    + rewrite bind_Ok. destruct (mapM f l) as [k|e'] eqn:Hm; simpl.
      * split; [discriminate|]. intros (z & Hz & Hfz).
        apply elem_of_cons in Hz as [->|Hz]; [rewrite Hx in Hfz; discriminate|].
        apply IH. eauto.
      * split; [|reflexivity]. intros _.
        destruct (proj1 IH eq_refl) as (z & Hz & Hfz). exists z. split; [right|]; auto.
    + simpl. split; [|reflexivity]. intros _. exists x. rewrite Hx. split; [left|]; auto.
Qed.

Lemma mapM_raises {A B} (f : A → result B) (l : list A) (e : exn) :
  mapM f l = Raise e → ∃ x, x ∈ l ∧ f x = Raise e.
Proof.
  induction l as [|x l IH]; simpl; [discriminate|].
  destruct (f x) as [y|e0] eqn:Hx.
  - rewrite bind_Ok. destruct (mapM f l) as [k|e'] eqn:Hm; simpl; [discriminate|].
    intros H. inversion H; subst. destruct (IH eq_refl) as (z & Hz & Hfz).
    exists z. split; [right|]; auto.
  - simpl. intros H. inversion H; subst. exists x. split; [left|]; auto.
Qed.

(** X8. [clean_data] raises exactly when some row that passes the filter
    has a Price whose digits and points do not form a number; a bad Price
    in a row that the filter drops is harmless.  The exception is always
    [ValueError]. *)
Theorem clean_data_raises_iff (hash : identifier → Z)
    (data : list (gmap string string)) (ids : list string) :
  (is_ok (clean_data hash data ids) = false
   ↔ ∃ row s, row ∈ data ∧ valid_row ids row = true
              ∧ row !! "Price" = Some s ∧ is_ok (clean_price (strip s)) = false)
  ∧ ∀ e, clean_data hash data ids = Raise e → e = ValueError.
Proof.
  rewrite clean_data_spec. split.
  - assert (Hm : is_ok (first_occurrences <$>
                          mapM clean_row (List.filter (valid_row ids) data))
                 = is_ok (mapM clean_row (List.filter (valid_row ids) data))).
    { destruct (mapM clean_row _); reflexivity. }
    rewrite Hm, mapM_fails_iff. split.
    + intros (row & Hin & Hf). apply list_elem_of_In, filter_In in Hin as [Hin Hv].
      apply clean_row_fails_iff in Hf as (s & Hs & Hp).
      exists row, s. split; [apply list_elem_of_In, Hin | auto].
    + intros (row & s & Hin & Hv & Hs & Hp). exists row. split.
      * apply list_elem_of_In, filter_In. split; [apply list_elem_of_In, Hin | exact Hv].
      * apply clean_row_fails_iff. eauto.
  - intros e H. destruct (mapM clean_row _) as [cl|e'] eqn:Hm; [discriminate|].
    inversion H; subst. apply mapM_raises in Hm as (row & _ & Hrow).
    eapply clean_row_raises, Hrow.
Qed.

(** ** Appending rows *)

Lemma firsts_from_app (pre a b : list (gmap string value)) :
  firsts_from pre (a ++ b)%list
  = (firsts_from pre a ++ firsts_from (pre ++ a) b)%list.
Proof.
  revert pre. induction a as [|r a IH]; intros pre.
  - simpl. rewrite app_nil_r. reflexivity.
  - simpl app. rewrite !firsts_from_cons, IH, <- !app_assoc. reflexivity.
Qed.

Lemma mapM_app {A B} (f : A → result B) (a b : list A) :
  mapM f (a ++ b)%list = (x ← mapM f a; y ← mapM f b; mret (x ++ y)%list).
Proof.
  induction a as [|x a IH]; simpl.
  - destruct (mapM f b); reflexivity.
  - destruct (f x) as [y|e]; [|reflexivity]. rewrite !bind_Ok, IH.
    destruct (mapM f a) as [k|e]; [|reflexivity]. rewrite !bind_Ok.
    destruct (mapM f b); reflexivity.
Qed.

Lemma firsts_from_covered (pre b : list (gmap string value)) :
  Forall cleaned_record pre → Forall cleaned_record b →
  (∀ r, r ∈ b → sorted_items r ∈ sorted_items <$> pre) →
  firsts_from pre b = [].
Proof.
  revert pre. induction b as [|r b IH]; intros pre Hpre Hb Hcov; [reflexivity|].
  apply Forall_cons in Hb as [Hr Hb]. rewrite firsts_from_cons.
  rewrite (proj2 (existsb_same_identity r pre Hr Hpre) (Hcov r ltac:(left))).
  apply IH.
  - apply Forall_app. split; [exact Hpre|]. constructor; [exact Hr | constructor].
  - exact Hb.
  - intros x Hx. rewrite fmap_app. apply elem_of_app. left. apply Hcov. right. exact Hx.
Qed.

Lemma first_occurrences_app (a b : list (gmap string value)) :
  first_occurrences (a ++ b)%list = (first_occurrences a ++ firsts_from a b)%list.
Proof.
  change (firsts_from [] (a ++ b)%list
          = (firsts_from [] a ++ firsts_from ([] ++ a) b)%list).
  apply firsts_from_app.
Qed.

Lemma fmap_Ok {A B} (f : A → B) (a : A) : f <$> Ok a = Ok (f a).
Proof. reflexivity. Qed.

Lemma mret_Ok {A} (a : A) : mret a = Ok a.
Proof. reflexivity. Qed.

(** X9. Appending rows to the input never changes or removes records
    already produced: the result for the first part is a prefix of the
    result for the whole. *)
Theorem clean_data_append_prefix (hash : identifier → Z)
    (d1 d2 : list (gmap string string)) (ids : list string)
    (out : list (gmap string value)) :
  clean_data hash (d1 ++ d2)%list ids = Ok out →
  ∃ out1, clean_data hash d1 ids = Ok out1 ∧ out1 `prefix_of` out.
Proof.
  rewrite !clean_data_spec, List.filter_app, mapM_app.
  destruct (mapM clean_row (List.filter (valid_row ids) d1)) as [c1|e]; [|discriminate].
  rewrite bind_Ok.
  destruct (mapM clean_row (List.filter (valid_row ids) d2)) as [c2|e]; [|discriminate].
  rewrite bind_Ok, mret_Ok, !fmap_Ok, first_occurrences_app.
  intros H. inversion H; subst. eexists. split; [reflexivity|].
  eexists. reflexivity.
Qed.

Lemma clean_data_append_prefix_witness :
  ∃ out1,
    clean_data hash_zero
      [raw_row "1" "2" "3" "Widget" "Shop" "2024-03-15" "4" "$5.50"]
      default_id_fields = Ok out1
    ∧ out1 `prefix_of`
        [cleaned_row "1" "2" "3" "Widget" "Shop" "2024-03-15" 4 float_5_5;
         cleaned_row "7" "2" "3" "Gadget" "Shop" "2024-03-16" 1 float_9].
Proof.
  apply (clean_data_append_prefix hash_zero
           [raw_row "1" "2" "3" "Widget" "Shop" "2024-03-15" "4" "$5.50"]
           [raw_row "7" "2" "3" "Gadget" "Shop" "2024-03-16" "1" "9"]).
  by_evaluation.
Defined.

(** X10. Feeding the same rows twice in a row gives what feeding them once
    gives: the second copy adds no record (and raises nothing new). *)
Theorem clean_data_repeated_input (hash : identifier → Z)
    (data : list (gmap string string)) (ids : list string) :
  clean_data hash (data ++ data)%list ids = clean_data hash data ids.
Proof.
  rewrite !clean_data_spec, List.filter_app, mapM_app.
  destruct (mapM clean_row (List.filter (valid_row ids) data)) as [cl|e] eqn:Hm;
    [|reflexivity].
  rewrite !bind_Ok, mret_Ok, !fmap_Ok, first_occurrences_app. f_equal.
  assert (Hcl : Forall cleaned_record cl).
  { eapply mapM_clean_row_cleaned, mapM_Ok_Forall2, Hm. }
  rewrite (firsts_from_covered cl cl Hcl Hcl); [apply app_nil_r|].
  intros r Hr. apply list_elem_of_fmap. exists r. auto.
Qed.

(** * Further properties of the validator *)

Lemma list_filter_idem {A} (p : A → bool) (l : list A) :
  List.filter p (List.filter p l) = List.filter p l.
Proof.
  apply filter_all. intros x Hx. apply list_elem_of_In, filter_In in Hx. tauto.
Qed.

(** X11. [validate_data] works row by row: validating a concatenation is
    concatenating the validations, and validating twice is validating
    once. *)
Theorem validate_data_composes (a b : list (gmap string value)) :
  validate_data (a ++ b)%list = (validate_data a ++ validate_data b)%list
  ∧ validate_data (validate_data a) = validate_data a.
Proof.
  unfold validate_data. rewrite !validate_loop_spec, !app_nil_l. split.
  - apply List.filter_app.
  - apply list_filter_idem.
Qed.

(** * Further properties of the transformer *)

(** ** Calendar arithmetic *)

Lemma year_length (y : Z) :
  365 <= days_before_year (y + 1) - days_before_year y <= 366.
Proof.
  unfold days_before_year. replace (y + 1 - 1) with y by lia.
  Z.div_mod_to_equations. lia.
Qed.

Lemma isoweek1monday_spec (y : Z) :
  ymd2ord y 1 1 - 3 <= isoweek1monday y <= ymd2ord y 1 1 + 3
  ∧ isoweek1monday y mod 7 = 1.
Proof.
  unfold isoweek1monday. set (fd := ymd2ord y 1 1).
  destruct (3 <? (fd + 6) mod 7) eqn:H.
  - apply Z.ltb_lt in H. Z.div_mod_to_equations. lia.
  - apply Z.ltb_ge in H. Z.div_mod_to_equations. lia.
Qed.

Lemma days_before_month_bounds (y m d : Z) :
  1 <= m <= 12 → 1 <= d <= days_in_month y m →
  1 <= days_before_month y m + d <= 366.
Proof.
  intros Hm Hd.
  assert (Hcases : m = 1 ∨ m = 2 ∨ m = 3 ∨ m = 4 ∨ m = 5 ∨ m = 6 ∨ m = 7 ∨ m = 8
                   ∨ m = 9 ∨ m = 10 ∨ m = 11 ∨ m = 12) by lia.
  unfold days_before_month.
  repeat (destruct Hcases as [->|Hcases]); [..|subst m];
    match goal with
    | |- context [Z.to_nat ?e] =>
        let n := eval vm_compute in (Z.to_nat e) in change (Z.to_nat e) with n
    end;
    unfold days_in_month in *; cbn [days_in_months];
    repeat match goal with
           | |- context [Z.of_nat ?k] =>
               let z := eval vm_compute in (Z.of_nat k) in change (Z.of_nat k) with z
           end;
    cbn in *; destruct (is_leap y); lia.
Qed.

Lemma iso_week_range (y m d : Z) :
  1 <= m <= 12 → 1 <= d <= days_in_month y m → 1 <= iso_week y m d <= 53.
Proof.
  intros Hm Hd. unfold iso_week.
  pose proof (days_before_month_bounds y m d Hm Hd) as Hb.
  pose proof (isoweek1monday_spec y) as [H1 H1m].
  pose proof (isoweek1monday_spec (y - 1)) as [H0 H0m].
  pose proof (year_length (y - 1)) as Hy. replace (y - 1 + 1) with y in Hy by lia.
  unfold ymd2ord in *. change (days_before_month y 1) with 0 in *.
  change (days_before_month (y - 1) 1) with 0 in *.
  set (w1 := isoweek1monday y) in *. set (w0 := isoweek1monday (y - 1)) in *.
  set (w2 := isoweek1monday (y + 1)) in *.
  set (a := days_before_year y) in *. set (b := days_before_year (y - 1)) in *.
  set (t := days_before_month y m) in *.
  destruct ((a + t + d - w1) / 7 <? 0) eqn:Hneg.
  - apply Z.ltb_lt in Hneg. Z.div_mod_to_equations. lia.
  - apply Z.ltb_ge in Hneg.
    destruct ((52 <=? (a + t + d - w1) / 7) && (w2 <=? a + t + d)); [lia|].
    Z.div_mod_to_equations. lia.
Qed.

Lemma weekday_name_listed (y m d : Z) : weekday_name y m d ∈ weekday_names.
Proof.
  unfold weekday_name, weekday_names.
  destruct (weekday y m d) as [|p|p]; [left| |do 6 right; left].
  do 3 (try destruct p as [p|p|]); repeat (first [left | right]).
Qed.

Lemma weekday_name_not_empty (y m d : Z) : is_empty (weekday_name y m d) = false.
Proof.
  pose proof (weekday_name_listed y m d) as H. unfold weekday_names in H.
  repeat (apply elem_of_cons in H as [->|H]; [reflexivity|]). inversion H.
Qed.

(** ** What [strptime] returns *)

Lemma decimal_value_four (s : string) :
  year_text s = true → 0 <= decimal_value s 0 <= 9999.
Proof.
  unfold year_text. intros H. apply andb_true_iff in H as [Hl Hs].
  destruct s as [|a [|b [|c [|d [|e s]]]]]; try discriminate Hl.
  simpl in Hs.
  repeat match goal with
         | H : _ && _ = true |- _ => apply andb_true_iff in H as [? ?]
         end.
  repeat match goal with
         | H : isdecimal_char ?c = true |- _ => apply decimal_digit_value in H
         end.
  simpl. lia.
Qed.

Lemma month_text_value (s : string) :
  month_text s = true → 1 <= decimal_value s 0 <= 12.
Proof.
  destruct s as [|a [|b [|c s]]]; simpl; try discriminate; intros H;
    unfold digit_value; char_facts; lia.
Qed.

Lemma blank_eqb_decimal (a : ascii) : isdecimal_char a = true → Ascii.eqb " " a = false.
Proof.
  intros H. rewrite ascii_eqb_code. change (code " ") with 32. char_facts.
  bool_to_Z. lia.
Qed.

Lemma blank_eqb_code (a : ascii) : code a = 32 → Ascii.eqb " " a = true.
Proof.
  intros H. rewrite ascii_eqb_code, H. reflexivity.
Qed.

Lemma day_text_value (s : string) :
  day_text s = true →
  int_of_str s = Ok (decimal_value (lstrip_with (Ascii.eqb " ") s) 0)
  ∧ 1 <= decimal_value (lstrip_with (Ascii.eqb " ") s) 0.
Proof.
  destruct s as [|a [|b [|c s]]]; simpl day_text; try discriminate; intros H.
  - assert (Ha : isdecimal_char a = true).
    { unfold isdecimal_char. char_facts. bool_to_Z; lia. }
    cbn [lstrip_with]. rewrite (blank_eqb_decimal a Ha). split.
    + apply int_of_str_decimal; [discriminate|]. simpl. rewrite Ha. reflexivity.
    + simpl. unfold digit_value. char_facts. lia.
  - assert (Hcases : (isdecimal_char a = true ∧ isdecimal_char b = true
                      ∧ 1 <= 10 * digit_value a + digit_value b)
                     ∨ (code a = 32 ∧ isdecimal_char b = true ∧ 1 <= digit_value b)).
    { unfold isdecimal_char, digit_value in *. char_facts;
        try (left; repeat split; bool_to_Z; lia);
        try (right; repeat split; try assumption; bool_to_Z; lia). }
    cbn [lstrip_with].
    destruct Hcases as [(Ha & Hb & Hv)|(Ha & Hb & Hv)].
    + rewrite (blank_eqb_decimal a Ha). split.
      * apply int_of_str_decimal; [discriminate|]. simpl. rewrite Ha, Hb. reflexivity.
      * simpl. lia.
    + rewrite (blank_eqb_code a Ha), (blank_eqb_decimal b Hb). split; [|simpl; lia].
      unfold int_of_str.
      assert (Hsa : int_space_char a = true).
      { unfold int_space_char. rewrite Ha. reflexivity. }
      cbn [lstrip_with]. rewrite Hsa, (decimal_not_int_space b Hb).
      cbn [rstrip_with is_empty]. rewrite (decimal_not_int_space b Hb).
      cbn [andb]. destruct (decimal_not_sign b Hb) as [-> ->].
      cbn [int_digits decimal_value]. rewrite Hb. reflexivity.
Qed.

(** What an accepted date is made of: three parts that [int] reads as the
    year, month and day [strptime] returns, which name a day of the
    calendar. *)
Lemma strptime_values (s : string) (y m d : Z) :
  strptime s = Ok (y, m, d) →
  ∃ ys ms ds, split "-" s = [ys; ms; ds]
              ∧ int_of_str ys = Ok y ∧ int_of_str ms = Ok m ∧ int_of_str ds = Ok d
              ∧ 1 <= y <= 9999 ∧ 1 <= m <= 12 ∧ 1 <= d <= days_in_month y m.
Proof.
  unfold strptime.
  destruct (split "-" s) as [|ys [|ms [|ds [|x l]]]]; try discriminate.
  destruct (year_text ys) eqn:Hy; [|discriminate].
  destruct (month_text ms) eqn:Hm; [|discriminate].
  destruct (day_text ds) eqn:Hd; [|discriminate]. cbn [andb].
  destruct ((1 <=? decimal_value ys 0) && _) eqn:Hr; [|discriminate].
  intros H. inversion H; subst. clear H.
  apply andb_true_iff in Hr as [Hr1 Hr2]. apply Z.leb_le in Hr1, Hr2.
  exists ys, ms, ds. split; [reflexivity|].
  destruct (year_text_decimal ys Hy) as [Hy1 Hy2].
  destruct (month_text_decimal ms Hm) as [Hm1 Hm2].
  destruct (day_text_value ds Hd) as [Hdv Hd1].
  pose proof (decimal_value_four ys Hy). pose proof (month_text_value ms Hm).
  rewrite (int_of_str_decimal ys Hy1 Hy2), (int_of_str_decimal ms Hm1 Hm2), Hdv.
  repeat split; try reflexivity; lia.
Qed.

(** ** One row at a time *)

Lemma transform_loop_app (a b : list (gmap string value)) (t : tables) :
  transform_loop (a ++ b)%list t = transform_loop a t ≫= transform_loop b.
Proof.
  revert t. induction a as [|row a IH]; intros t; [reflexivity|].
  cbn [app transform_loop]. destruct (transform_row t row) as [t'|e]; [|reflexivity].
  rewrite !bind_Ok. apply IH.
Qed.

Lemma transform_row_steps (t t' : tables) (row : gmap string value) :
  transform_row t row = Ok t' →
  product_step row (product_dim t) = Ok (product_dim t')
  ∧ retailer_step row (retailer_dim t) = Ok (retailer_dim t')
  ∧ date_step row (date_dim t) = Ok (date_dim t')
  ∧ sales_step row (sales_fact t) = Ok (sales_fact t').
Proof.
  unfold transform_row. intros H.
  apply bind_is_Ok in H as (p & Hp & H).
  apply bind_is_Ok in H as (r & Hr & H).
  apply bind_is_Ok in H as (d & Hd & H).
  apply bind_is_Ok in H as (s & Hs & H).
  inversion H; subst. simpl. auto.
Qed.

(** Induction over the loop, with the rows already processed. *)
Lemma transform_loop_invariant (I : list (gmap string value) → tables → Prop)
    (rows : list (gmap string value)) (t t' : tables) :
  I [] t →
  (∀ pre row t1 t2, I pre t1 → transform_row t1 row = Ok t2 → I (pre ++ [row])%list t2) →
  transform_loop rows t = Ok t' → I rows t'.
Proof.
  intros H0 Hstep.
  assert (Hgen : ∀ rest pre t1, I pre t1 → transform_loop rest t1 = Ok t' →
                                I (pre ++ rest)%list t').
  { induction rest as [|row rest IH]; intros pre t1 Hpre H.
    - inversion H; subst. rewrite app_nil_r. exact Hpre.
    - cbn [transform_loop] in H. apply bind_is_Ok in H as (t2 & Hrow & H).
      replace (pre ++ row :: rest)%list with ((pre ++ [row]) ++ rest)%list
        by (rewrite <- app_assoc; reflexivity).
      apply (IH _ t2); [eapply Hstep; eassumption | exact H]. }
  intros H. apply (Hgen rows [] t H0 H).
Qed.

Lemma transform_data_tables (rows : list (gmap string value)) pd rd dd sf :
  transform_data rows = Ok (pd, rd, dd, sf) →
  transform_loop rows no_tables
  = Ok {| product_dim := pd; retailer_dim := rd; date_dim := dd; sales_fact := sf |}.
Proof.
  unfold transform_data. intros H. apply bind_is_Ok in H as ([p r d s] & Ht & H).
  inversion H; subst. exact Ht.
Qed.

(** ** What each step appends *)

Lemma product_step_inv (row : gmap string value) (pd pd' : list ProductDimRecord) :
  product_step row pd = Ok pd' →
  pd' = pd
  ∨ ∃ vid n name brand category,
      row !! "ProductID" = Some vid ∧ py_int vid = Ok n
      ∧ py_in vid (map (λ p, VInt (pd_ProductID p)) pd) = false
      ∧ row !! "ProductName" = Some name ∧ truthy name = true
      ∧ row !! "Brand" = Some brand ∧ row !! "Category" = Some category
      ∧ pd' = (pd ++ [{| pd_ProductID := n; pd_Name := name;
                         pd_Brand := or_none brand;
                         pd_Category := or_none category |}])%list.
Proof.
  unfold product_step, getitem.
  destruct (row !! "ProductID") as [vid|]; [|discriminate]. rewrite bind_Ok.
  destruct (row !! "ProductName") as [name|]; [|discriminate]. rewrite bind_Ok.
  destruct (py_in vid _) eqn:Hseen; cbn [negb andb];
    [intros H; inversion H; auto|].
  destruct (truthy name) eqn:Hname; [|intros H; inversion H; auto].
  destruct (py_int vid) as [n|] eqn:Hn; [|discriminate]. rewrite bind_Ok.
  destruct (row !! "Brand") as [brand|]; [|discriminate]. rewrite bind_Ok.
  destruct (row !! "Category") as [category|]; [|discriminate]. rewrite bind_Ok.
  intros H. inversion H; subst. right. exists vid, n, name, brand, category.
  repeat split; reflexivity || assumption.
Qed.

Lemma retailer_step_inv (row : gmap string value) (rd rd' : list RetailerDimRecord) :
  retailer_step row rd = Ok rd' →
  rd' = rd
  ∨ ∃ vid n name channel location,
      row !! "RetailerID" = Some vid ∧ py_int vid = Ok n
      ∧ py_in vid (map (λ r, VInt (rd_RetailerID r)) rd) = false
      ∧ row !! "RetailerName" = Some name ∧ truthy name = true
      ∧ row !! "Channel" = Some channel ∧ row !! "Location" = Some location
      ∧ rd' = (rd ++ [{| rd_RetailerID := n; rd_Name := name;
                         rd_Channel := or_none channel;
                         rd_Location := or_none location |}])%list.
Proof.
  unfold retailer_step, getitem.
  destruct (row !! "RetailerID") as [vid|]; [|discriminate]. rewrite bind_Ok.
  destruct (row !! "RetailerName") as [name|]; [|discriminate]. rewrite bind_Ok.
  destruct (py_in vid _) eqn:Hseen; cbn [negb andb];
    [intros H; inversion H; auto|].
  destruct (truthy name) eqn:Hname; [|intros H; inversion H; auto].
  destruct (py_int vid) as [n|] eqn:Hn; [|discriminate]. rewrite bind_Ok.
  destruct (row !! "Channel") as [channel|]; [|discriminate]. rewrite bind_Ok.
  destruct (row !! "Location") as [location|]; [|discriminate]. rewrite bind_Ok.
  intros H. inversion H; subst. right. exists vid, n, name, channel, location.
  repeat split; reflexivity || assumption.
Qed.

Lemma sales_step_inv (row : gmap string value) (sf sf' : list SalesFactRecord) :
  sales_step row sf = Ok sf' →
  sf' = sf
  ∨ ∃ vs vp vr vq date price n p r q,
      row !! "SaleID" = Some vs ∧ py_int vs = Ok n
      ∧ py_in vs (map (λ f, VInt (sf_SaleID f)) sf) = false
      ∧ row !! "ProductID" = Some vp ∧ py_int vp = Ok p
      ∧ row !! "RetailerID" = Some vr ∧ py_int vr = Ok r
      ∧ row !! "Date" = Some date
      ∧ row !! "Quantity" = Some vq ∧ py_int vq = Ok q
      ∧ row !! "Price" = Some price
      ∧ sf' = (sf ++ [{| sf_SaleID := n; sf_ProductID := p; sf_RetailerID := r;
                         sf_Date := date; sf_Quantity := q;
                         sf_Price := price |}])%list.
Proof.
  unfold sales_step, getitem.
  destruct (row !! "SaleID") as [vs|]; [|discriminate]. rewrite bind_Ok.
  destruct (py_in vs _) eqn:Hseen; cbn [negb]; [intros H; inversion H; auto|].
  destruct (py_int vs) as [n|] eqn:Hn; [|discriminate]. rewrite bind_Ok.
  destruct (row !! "ProductID") as [vp|]; [|discriminate]. rewrite bind_Ok.
  destruct (py_int vp) as [p|] eqn:Hp; [|discriminate]. rewrite bind_Ok.
  destruct (row !! "RetailerID") as [vr|]; [|discriminate]. rewrite bind_Ok.
  destruct (py_int vr) as [r|] eqn:Hr; [|discriminate]. rewrite bind_Ok.
  destruct (row !! "Date") as [date|]; [|discriminate]. rewrite bind_Ok.
  destruct (row !! "Quantity") as [vq|]; [|discriminate]. rewrite bind_Ok.
  destruct (py_int vq) as [q|] eqn:Hq; [|discriminate]. rewrite bind_Ok.
  destruct (row !! "Price") as [price|]; [|discriminate]. rewrite bind_Ok.
  intros H. inversion H; subst. right.
  exists vs, vp, vr, vq, date, price, n, p, r, q.
  repeat split; reflexivity || assumption.
Qed.

(** The date step either leaves the date dimension as it is, because the
    Date of the row is already there, or appends the record derived from
    it: the test on the derived fields never turns a date away. *)
Lemma date_step_inv (row : gmap string value) (dd dd' : list DateDimRecord) :
  date_step row dd = Ok dd' →
  (∃ v, row !! "Date" = Some v ∧ py_in v (map dd_Date dd) = true ∧ dd' = dd)
  ∨ ∃ s y m d,
      row !! "Date" = Some (VStr s)
      ∧ py_in (VStr s) (map dd_Date dd) = false
      ∧ strptime s = Ok (y, m, d)
      ∧ dd' = (dd ++ [date_record s y m d])%list.
Proof.
  unfold date_step, getitem.
  destruct (row !! "Date") as [v|]; [|discriminate]. rewrite bind_Ok.
  destruct (py_in v (map dd_Date dd)) eqn:Hseen; cbn [negb].
  { intros H. inversion H; subst. left. exists v. auto. }
  destruct v as [|s|n|f]; try discriminate. rewrite bind_Ok. intros H.
  apply bind_is_Ok in H as (year & Hyear & H).
  apply bind_is_Ok in H as (month & Hmonth & H).
  apply bind_is_Ok in H as (day & Hday & H).
  apply bind_is_Ok in H as ([[y m] d] & Hparse & H).
  destruct (strptime_values s y m d Hparse)
    as (ys & ms & ds & Hsplit & Hy & Hm & Hd & Hyr & Hmr & Hdr).
  rewrite Hsplit in Hyear, Hmonth, Hday. unfold list_item in *.
  cbn [lookup list_lookup] in *. rewrite bind_Ok in *.
  assert (year = y) by congruence. assert (month = m) by congruence.
  assert (day = d) by congruence. subst year month day.
  pose proof (iso_week_range y m d Hmr Hdr) as Hw.
  assert (Hgate : negb (y =? 0) && negb (m =? 0) && negb (d =? 0)
                  && negb ((m - 1) / 3 + 1 =? 0)
                  && negb (is_empty (weekday_name y m d))
                  && negb (iso_week y m d =? 0) = true).
  { rewrite weekday_name_not_empty.
    assert (Hq : 1 <= (m - 1) / 3 + 1) by (Z.div_mod_to_equations; lia).
    repeat (apply andb_true_iff; split); try reflexivity;
      apply negb_true_iff, Z.eqb_neq; lia. }
  rewrite Hgate in H. inversion H; subst. right. exists s, y, m, d. auto.
Qed.

(** ** Errors and growth of the record sets *)

(** X12. An exception raised while the first rows are transformed is what
    [transform_data] raises for any longer input: rows after the failing
    one are never looked at. *)
Theorem transform_data_earlier_error (pre post : list (gmap string value)) (e : exn) :
  transform_data pre = Raise e → transform_data (pre ++ post)%list = Raise e.
Proof.
  unfold transform_data. rewrite transform_loop_app.
  destruct (transform_loop pre no_tables) as [t|e']; [discriminate|].
  intros H. inversion H; subst. reflexivity.
Qed.

Lemma transform_data_earlier_error_witness :
  transform_data
    ([cleaned_row "2" "10" "20" "Widget" "Shop" "2024-02-30" 1 float_5_5]
     ++ [cleaned_row "1" "10" "20" "Widget" "Shop" "2024-03-15" 1 float_5_5])%list
  = Raise ValueError.
Proof.
  apply transform_data_earlier_error. by_evaluation.
Defined.

Lemma transform_row_prefix (t t' : tables) (row : gmap string value) :
  transform_row t row = Ok t' →
  product_dim t `prefix_of` product_dim t'
  ∧ retailer_dim t `prefix_of` retailer_dim t'
  ∧ date_dim t `prefix_of` date_dim t'
  ∧ sales_fact t `prefix_of` sales_fact t'.
Proof.
  intros H. apply transform_row_steps in H as (Hp & Hr & Hd & Hs).
  repeat split.
  - apply product_step_inv in Hp as [->|(? & ? & ? & ? & ? & _ & _ & _ & _ & _ & _ & _ & ->)];
      [reflexivity | eexists; reflexivity].
  - apply retailer_step_inv in Hr as [->|(? & ? & ? & ? & ? & _ & _ & _ & _ & _ & _ & _ & ->)];
      [reflexivity | eexists; reflexivity].
  - apply date_step_inv in Hd as [(? & _ & _ & ->)|(? & ? & ? & ? & _ & _ & _ & ->)];
      [reflexivity | eexists; reflexivity].
  - apply sales_step_inv in Hs
      as [->|(? & ? & ? & ? & ? & ? & ? & ? & ? & ? & _ & _ & _ & _ & _ & _ & _ & _ & _ & _ & _ & ->)];
      [reflexivity | eexists; reflexivity].
Qed.

Lemma transform_loop_prefix (rows : list (gmap string value)) (t t' : tables) :
  transform_loop rows t = Ok t' →
  product_dim t `prefix_of` product_dim t'
  ∧ retailer_dim t `prefix_of` retailer_dim t'
  ∧ date_dim t `prefix_of` date_dim t'
  ∧ sales_fact t `prefix_of` sales_fact t'.
Proof.
  revert t. induction rows as [|row rows IH]; intros t H.
  - inversion H; subst. repeat split; reflexivity.
  - cbn [transform_loop] in H. apply bind_is_Ok in H as (t1 & Hrow & H).
    destruct (transform_row_prefix t t1 row Hrow) as (P1 & R1 & D1 & S1).
    destruct (IH t1 H) as (P2 & R2 & D2 & S2).
    repeat split; etransitivity; eassumption.
Qed.

(** X13. Transforming more rows only appends: the four record sets
    obtained from the first rows are prefixes of those obtained from the
    whole input, so no record already emitted is changed, moved or
    removed. *)
Theorem transform_data_only_appends (pre post : list (gmap string value))
    pd rd dd sf pd' rd' dd' sf' :
  transform_data pre = Ok (pd, rd, dd, sf) →
  transform_data (pre ++ post)%list = Ok (pd', rd', dd', sf') →
  pd `prefix_of` pd' ∧ rd `prefix_of` rd' ∧ dd `prefix_of` dd' ∧ sf `prefix_of` sf'.
Proof.
  intros H1 H2. apply transform_data_tables in H1, H2.
  rewrite transform_loop_app, H1, bind_Ok in H2.
  apply (transform_loop_prefix post _ _ H2).
Qed.

Lemma transform_data_only_appends_witness :
  [{| pd_ProductID := 10; pd_Name := VStr "Widget";
      pd_Brand := VStr "Acme"; pd_Category := VNone |}]
    `prefix_of`
    [{| pd_ProductID := 10; pd_Name := VStr "Widget";
        pd_Brand := VStr "Acme"; pd_Category := VNone |};
     {| pd_ProductID := 11; pd_Name := VStr "Gadget";
        pd_Brand := VStr "Acme"; pd_Category := VNone |}]
  ∧ [{| rd_RetailerID := 20; rd_Name := VStr "Shop";
        rd_Channel := VStr "Online"; rd_Location := VNone |}]
      `prefix_of`
      [{| rd_RetailerID := 20; rd_Name := VStr "Shop";
          rd_Channel := VStr "Online"; rd_Location := VNone |};
       {| rd_RetailerID := 20; rd_Name := VStr "Shop";
          rd_Channel := VStr "Online"; rd_Location := VNone |}]
  ∧ [date_record "2024-03-15" 2024 3 15]
      `prefix_of` [date_record "2024-03-15" 2024 3 15]
  ∧ [{| sf_SaleID := 1; sf_ProductID := 10; sf_RetailerID := 20;
        sf_Date := VStr "2024-03-15"; sf_Quantity := 1;
        sf_Price := VFloat float_5_5 |}]
      `prefix_of`
      [{| sf_SaleID := 1; sf_ProductID := 10; sf_RetailerID := 20;
          sf_Date := VStr "2024-03-15"; sf_Quantity := 1;
          sf_Price := VFloat float_5_5 |};
       {| sf_SaleID := 2; sf_ProductID := 11; sf_RetailerID := 20;
          sf_Date := VStr "2024-03-15"; sf_Quantity := 3;
          sf_Price := VFloat float_9 |}].
Proof.
  apply (transform_data_only_appends
           [cleaned_row "1" "10" "20" "Widget" "Shop" "2024-03-15" 1 float_5_5]
           [cleaned_row "2" "11" "20" "Gadget" "Shop" "2024-03-15" 3 float_9]);
    by_evaluation.
Defined.

(** X14. A row without the ProductID column makes [transform_data] raise
    [KeyError('ProductID')] as soon as the rows before it have been
    transformed, and a row that has ProductID but no ProductName raises
    [KeyError('ProductName')], whatever else the row holds. *)
Theorem transform_data_missing_column (pre post : list (gmap string value))
    (row : gmap string value) sets :
  transform_data pre = Ok sets →
  (row !! "ProductID" = None →
   transform_data (pre ++ row :: post)%list = Raise (KeyError "ProductID"))
  ∧ (is_Some (row !! "ProductID") → row !! "ProductName" = None →
     transform_data (pre ++ row :: post)%list = Raise (KeyError "ProductName")).
Proof.
  intros H. unfold transform_data in *. rewrite transform_loop_app.
  destruct (transform_loop pre no_tables) as [t|]; [|discriminate]. rewrite bind_Ok.
  cbn [transform_loop]. unfold transform_row, product_step, getitem. split.
  - intros ->. reflexivity.
  - intros [v ->] ->. reflexivity.
Qed.

Lemma transform_data_missing_column_witness :
  transform_data
    ([cleaned_row "1" "10" "20" "Widget" "Shop" "2024-03-15" 1 float_5_5]
     ++ delete "ProductID"
          (cleaned_row "2" "10" "20" "Widget" "Shop" "2024-03-15" 1 float_5_5)
        :: [])%list
  = Raise (KeyError "ProductID").
Proof.
  eapply (transform_data_missing_column
            [cleaned_row "1" "10" "20" "Widget" "Shop" "2024-03-15" 1 float_5_5]).
  - unfold transform_data. cbn [transform_loop]. 
    instantiate (1 := ([{| pd_ProductID := 10; pd_Name := VStr "Widget";
                           pd_Brand := VStr "Acme"; pd_Category := VNone |}],
                       [{| rd_RetailerID := 20; rd_Name := VStr "Shop";
                           rd_Channel := VStr "Online"; rd_Location := VNone |}],
                       [date_record "2024-03-15" 2024 3 15],
                       [{| sf_SaleID := 1; sf_ProductID := 10; sf_RetailerID := 20;
                           sf_Date := VStr "2024-03-15"; sf_Quantity := 1;
                           sf_Price := VFloat float_5_5 |}])).
    by_evaluation.
  - by_evaluation.
Defined.

(** ** What the dimension records hold *)

Lemma or_none_null_or_nonempty (v : value) : null_or_nonempty (or_none v).
Proof.
  unfold or_none, null_or_nonempty. destruct (truthy v) eqn:H; auto.
Qed.

Lemma product_from_more (pre rows : list (gmap string value)) p :
  (∀ x, x ∈ pre → x ∈ rows) → product_from pre p → product_from rows p.
Proof.
  intros Hsub (row & vid & b & c & Hin & Hrest).
  exists row, vid, b, c. split; [apply Hsub, Hin | exact Hrest].
Qed.

Lemma retailer_from_more (pre rows : list (gmap string value)) r :
  (∀ x, x ∈ pre → x ∈ rows) → retailer_from pre r → retailer_from rows r.
Proof.
  intros Hsub (row & vid & b & c & Hin & Hrest).
  exists row, vid, b, c. split; [apply Hsub, Hin | exact Hrest].
Qed.

Lemma sale_from_more (pre rows : list (gmap string value)) f :
  (∀ x, x ∈ pre → x ∈ rows) → sale_from pre f → sale_from rows f.
Proof.
  intros Hsub (row & vs & vp & vr & vq & Hin & Hrest).
  exists row, vs, vp, vr, vq. split; [apply Hsub, Hin | exact Hrest].
Qed.

(** X15. Every product record is built from one input row: its key is
    [int] of the row's ProductID, its Name is the row's ProductName, which
    is not empty, and its Brand and Category are the row's values, or
    [None] when those are empty (never an empty string).  Likewise for the
    retailer records with RetailerName, Channel and Location. *)
Theorem dimension_records_come_from_rows (rows : list (gmap string value))
    pd rd dd sf :
  transform_data rows = Ok (pd, rd, dd, sf) →
  Forall (λ p, product_from rows p
               ∧ null_or_nonempty (pd_Brand p) ∧ null_or_nonempty (pd_Category p)) pd
  ∧ Forall (λ r, retailer_from rows r
                 ∧ null_or_nonempty (rd_Channel r)
                 ∧ null_or_nonempty (rd_Location r)) rd.
Proof.
  intros H. apply transform_data_tables in H.
  refine (transform_loop_invariant
            (λ pre t,
               Forall (λ p, product_from pre p ∧ null_or_nonempty (pd_Brand p)
                            ∧ null_or_nonempty (pd_Category p)) (product_dim t)
               ∧ Forall (λ r, retailer_from pre r ∧ null_or_nonempty (rd_Channel r)
                              ∧ null_or_nonempty (rd_Location r)) (retailer_dim t))
            rows no_tables _ _ _ H); [split; constructor|].
  clear. intros pre row t1 t2 [IP IR] Hrow.
  apply transform_row_steps in Hrow as (Hp & Hr & _ & _).
  assert (Hweak : ∀ x : gmap string value, x ∈ pre → x ∈ (pre ++ [row])%list).
  { intros x Hx. apply elem_of_app. auto. }
  assert (Hlast : row ∈ (pre ++ [row])%list).
  { apply elem_of_app. right. left. }
  split.
  - assert (IP' : Forall (λ p, product_from (pre ++ [row])%list p
                               ∧ null_or_nonempty (pd_Brand p)
                               ∧ null_or_nonempty (pd_Category p)) (product_dim t1)).
    { eapply Forall_impl; [exact IP|]. intros p (Hf & Hrest).
      split; [eapply product_from_more; eassumption | exact Hrest]. }
    apply product_step_inv in Hp
      as [->|(vid & n & name & brand & category & Hid & Hn & _ & Hname & Ht & Hb & Hc & ->)];
      [exact IP'|].
    apply Forall_app. split; [exact IP'|]. constructor; [|constructor].
    split; [|split; apply or_none_null_or_nonempty].
    exists row, vid, brand, category. simpl. repeat split; assumption || reflexivity.
  - assert (IR' : Forall (λ r, retailer_from (pre ++ [row])%list r
                               ∧ null_or_nonempty (rd_Channel r)
                               ∧ null_or_nonempty (rd_Location r)) (retailer_dim t1)).
    { eapply Forall_impl; [exact IR|]. intros r (Hf & Hrest).
      split; [eapply retailer_from_more; eassumption | exact Hrest]. }
    apply retailer_step_inv in Hr
      as [->|(vid & n & name & channel & location & Hid & Hn & _ & Hname & Ht & Hb & Hc & ->)];
      [exact IR'|].
    apply Forall_app. split; [exact IR'|]. constructor; [|constructor].
    split; [|split; apply or_none_null_or_nonempty].
    exists row, vid, channel, location. simpl. repeat split; assumption || reflexivity.
Qed.

Lemma dimension_records_come_from_rows_witness :
  Forall (λ p, product_from
                 [cleaned_row "1" "10" "20" "Widget" "Shop" "2024-03-15" 1 float_5_5] p
               ∧ null_or_nonempty (pd_Brand p) ∧ null_or_nonempty (pd_Category p))
    [product_record 10 "Widget"]
  ∧ Forall (λ r, retailer_from
                   [cleaned_row "1" "10" "20" "Widget" "Shop" "2024-03-15" 1 float_5_5] r
                 ∧ null_or_nonempty (rd_Channel r)
                 ∧ null_or_nonempty (rd_Location r))
      [retailer_record 20].
Proof.
  apply (dimension_records_come_from_rows _ _ _
           [date_record "2024-03-15" 2024 3 15]
           [sales_record 1 10 20 "2024-03-15" 1 float_5_5]).
  by_evaluation.
Defined.

(** ** The date dimension *)

Lemma derived_date_ranges (r : DateDimRecord) :
  derived_date r →
  1 <= dd_Year r <= 9999 ∧ 1 <= dd_Month r <= 12
  ∧ 1 <= dd_Day r <= days_in_month (dd_Year r) (dd_Month r)
  ∧ dd_Quarter r = (dd_Month r - 1) / 3 + 1 ∧ 1 <= dd_Quarter r <= 4
  ∧ dd_DayOfWeek r ∈ weekday_names
  ∧ 1 <= dd_WeekOfYear r <= 53.
Proof.
  intros (s & y & m & d & -> & Hs). simpl.
  destruct (strptime_values s y m d Hs)
    as (ys & ms & ds & _ & _ & _ & _ & Hy & Hm & Hd).
  split; [exact Hy|]. split; [exact Hm|]. split; [exact Hd|].
  split; [reflexivity|]. split; [Z.div_mod_to_equations; lia|].
  split; [apply weekday_name_listed | apply iso_week_range; assumption].
Qed.

(** X16. Every date record is the one derived from its own Date text:
    Year, Month and Day are what [strptime] reads in it, they name a real
    day (year 1 to 9999, month 1 to 12, day within the month), Quarter is
    [(Month - 1) // 3 + 1] and lies in 1..4, DayOfWeek is one of the seven
    English day names, and WeekOfYear lies in 1..53. *)
Theorem date_records_are_derived (rows : list (gmap string value)) pd rd dd sf :
  transform_data rows = Ok (pd, rd, dd, sf) →
  Forall (λ r, derived_date r
               ∧ 1 <= dd_Year r <= 9999 ∧ 1 <= dd_Month r <= 12
               ∧ 1 <= dd_Day r <= days_in_month (dd_Year r) (dd_Month r)
               ∧ dd_Quarter r = (dd_Month r - 1) / 3 + 1 ∧ 1 <= dd_Quarter r <= 4
               ∧ dd_DayOfWeek r ∈ weekday_names
               ∧ 1 <= dd_WeekOfYear r <= 53) dd.
Proof.
  intros H. apply transform_data_tables in H.
  assert (Hd : Forall derived_date dd).
  { refine (transform_loop_invariant (λ _ t, Forall derived_date (date_dim t))
              rows no_tables _ _ _ H); [constructor|].
    clear. intros _ row t1 t2 IH Hrow.
    apply transform_row_steps in Hrow as (_ & _ & Hd & _).
    apply date_step_inv in Hd as [(v & _ & _ & ->)|(s & y & m & d & _ & _ & Hs & ->)];
      [exact IH|].
    apply Forall_app. split; [exact IH|]. constructor; [|constructor].
    exists s, y, m, d. auto. }
  eapply Forall_impl; [exact Hd|]. intros r Hr.
  split; [exact Hr | apply derived_date_ranges, Hr].
Qed.

Lemma date_records_are_derived_witness :
  Forall (λ r, derived_date r
               ∧ 1 <= dd_Year r <= 9999 ∧ 1 <= dd_Month r <= 12
               ∧ 1 <= dd_Day r <= days_in_month (dd_Year r) (dd_Month r)
               ∧ dd_Quarter r = (dd_Month r - 1) / 3 + 1 ∧ 1 <= dd_Quarter r <= 4
               ∧ dd_DayOfWeek r ∈ weekday_names
               ∧ 1 <= dd_WeekOfYear r <= 53)
    [date_record "2024-03-15" 2024 3 15].
Proof.
  apply (date_records_are_derived
           [cleaned_row "1" "10" "20" "Widget" "Shop" "2024-03-15" 1 float_5_5]
           [product_record 10 "Widget"] [retailer_record 20] _
           [sales_record 1 10 20 "2024-03-15" 1 float_5_5]).
  by_evaluation.
Defined.

Lemma py_in_texts (v : value) (l : list value) :
  Forall is_text l → py_in v l = true → v ∈ l.
Proof.
  unfold py_in. induction 1 as [|w l [t ->] _ IH]; simpl; [discriminate|].
  intros H. apply orb_true_iff in H as [H|H]; [|right; auto].
  destruct v as [|s|n|f]; try discriminate H. simpl in H.
  apply String.eqb_eq in H. subst. left.
Qed.

Lemma py_in_text_elem (s : string) (l : list value) :
  VStr s ∈ l → py_in (VStr s) l = true.
Proof.
  unfold py_in. intros H. apply existsb_exists. exists (VStr s).
  split; [apply list_elem_of_In, H | apply String.eqb_refl].
Qed.

Lemma derived_dates_text (dd : list DateDimRecord) :
  Forall derived_date dd → Forall is_text (map dd_Date dd).
Proof.
  induction 1 as [|r dd (s & y & m & d & -> & _) _ IH]; simpl; constructor;
    [exists s; reflexivity | exact IH].
Qed.

(** X17. The date dimension holds exactly the Date texts of the rows, each
    one once: no text is repeated, every row's Date is there, and nothing
    else is.  (Dates are compared as text, so the test that fails for the
    integer keys works here.) *)
Theorem date_dim_holds_each_date_once (rows : list (gmap string value))
    pd rd dd sf :
  transform_data rows = Ok (pd, rd, dd, sf) →
  NoDup (map dd_Date dd)
  ∧ (∀ row, row ∈ rows → ∃ v, row !! "Date" = Some v ∧ v ∈ map dd_Date dd)
  ∧ (∀ v, v ∈ map dd_Date dd → ∃ row, row ∈ rows ∧ row !! "Date" = Some v).
Proof.
  intros H. apply transform_data_tables in H.
  assert (Hinv := λ H0 Hstep, transform_loop_invariant
    (λ pre t,
       Forall derived_date (date_dim t)
       ∧ NoDup (map dd_Date (date_dim t))
       ∧ (∀ row, row ∈ pre → ∃ v, row !! "Date" = Some v ∧ v ∈ map dd_Date (date_dim t))
       ∧ (∀ v, v ∈ map dd_Date (date_dim t) → ∃ row, row ∈ pre ∧ row !! "Date" = Some v))
    rows no_tables _ H0 Hstep H).
  simpl in Hinv. cut (Forall derived_date dd
                      ∧ NoDup (map dd_Date dd)
                      ∧ (∀ row, row ∈ rows → ∃ v, row !! "Date" = Some v ∧ v ∈ map dd_Date dd)
                      ∧ (∀ v, v ∈ map dd_Date dd → ∃ row, row ∈ rows ∧ row !! "Date" = Some v));
    [tauto|].
  apply Hinv; clear Hinv H.
  - split; [constructor|]. split; [constructor|].
    split; intros x Hx; inversion Hx.
  - intros pre row t1 t2 (ID & IN & IC & IB) Hrow.
    apply transform_row_steps in Hrow as (_ & _ & Hd & _).
    apply date_step_inv in Hd
      as [(v & Hv & Hseen & ->)|(s & y & m & d & Hv & Hseen & Hs & ->)].
    + split; [exact ID|]. split; [exact IN|]. split.
      * intros r Hr. apply elem_of_app in Hr as [Hr|Hr]; [auto|].
        apply list_elem_of_singleton in Hr. subst r. exists v. split; [exact Hv|].
        apply py_in_texts; [apply derived_dates_text, ID | exact Hseen].
      * intros w Hw. destruct (IB w Hw) as (r & Hr & Hrw). exists r.
        split; [apply elem_of_app; auto | exact Hrw].
    + assert (Hnew : VStr s ∉ map dd_Date (date_dim t1)).
      { intros Hin. apply py_in_text_elem in Hin. congruence. }
      rewrite map_app. simpl. split.
      * apply Forall_app. split; [exact ID|]. constructor; [|constructor].
        exists s, y, m, d. auto.
      * split.
        -- apply NoDup_app. split; [exact IN|]. split; [|apply NoDup_singleton].
           intros w Hw Hw'. apply list_elem_of_singleton in Hw'. subst w. auto.
        -- split.
           ++ intros r Hr. apply elem_of_app in Hr as [Hr|Hr].
              ** destruct (IC r Hr) as (w & Hw & Hin). exists w.
                 split; [exact Hw | apply elem_of_app; auto].
              ** apply list_elem_of_singleton in Hr. subst r. exists (VStr s).
                 split; [exact Hv|]. apply elem_of_app. right. left.
           ++ intros w Hw. apply elem_of_app in Hw as [Hw|Hw].
              ** destruct (IB w Hw) as (r & Hr & Hrw). exists r.
                 split; [apply elem_of_app; auto | exact Hrw].
              ** apply list_elem_of_singleton in Hw. subst w. exists row.
                 split; [apply elem_of_app; right; left | exact Hv].
Qed.

Lemma date_dim_holds_each_date_once_witness :
  NoDup (map dd_Date [date_record "2024-03-15" 2024 3 15])
  ∧ (∀ row,
       row ∈ [cleaned_row "1" "10" "20" "Widget" "Shop" "2024-03-15" 1 float_5_5;
              cleaned_row "2" "11" "20" "Gadget" "Shop" "2024-03-15" 3 float_9] →
       ∃ v, row !! "Date" = Some v
            ∧ v ∈ map dd_Date [date_record "2024-03-15" 2024 3 15])
  ∧ (∀ v, v ∈ map dd_Date [date_record "2024-03-15" 2024 3 15] →
       ∃ row,
         row ∈ [cleaned_row "1" "10" "20" "Widget" "Shop" "2024-03-15" 1 float_5_5;
                cleaned_row "2" "11" "20" "Gadget" "Shop" "2024-03-15" 3 float_9]
         ∧ row !! "Date" = Some v).
Proof.
  apply (date_dim_holds_each_date_once _
           [product_record 10 "Widget"; product_record 11 "Gadget"]
           [retailer_record 20; retailer_record 20] _
           [sales_record 1 10 20 "2024-03-15" 1 float_5_5;
            sales_record 2 11 20 "2024-03-15" 3 float_9]).
  by_evaluation.
Defined.

(** ** The sales facts *)

Lemma sales_from_rows (rows : list (gmap string value)) pd rd dd sf :
  transform_data rows = Ok (pd, rd, dd, sf) → Forall (sale_from rows) sf.
Proof.
  intros H. apply transform_data_tables in H.
  refine (transform_loop_invariant (λ pre t, Forall (sale_from pre) (sales_fact t))
            rows no_tables _ _ _ H); [constructor|].
  clear. intros pre row t1 t2 IH Hrow.
  apply transform_row_steps in Hrow as (_ & _ & _ & Hs).
  assert (IH' : Forall (sale_from (pre ++ [row])%list) (sales_fact t1)).
  { eapply Forall_impl; [exact IH|]. intros f. apply sale_from_more.
    intros x Hx. apply elem_of_app. auto. }
  apply sales_step_inv in Hs
    as [->|(vs & vp & vr & vq & date & price & n & p & r & q
            & Hvs & Hn & _ & Hvp & Hp & Hvr & Hr & Hd & Hvq & Hq & Hpr & ->)];
    [exact IH'|].
  apply Forall_app. split; [exact IH'|]. constructor; [|constructor].
  exists row, vs, vp, vr, vq. simpl.
  split; [apply elem_of_app; right; left|]. repeat split; assumption.
Qed.

(** X18. Every sales fact is built from one input row: SaleID, ProductID,
    RetailerID and Quantity are [int] of the row's values, Date and Price
    are the row's values as they are; and there are never more facts than
    rows. *)
Theorem sales_facts_come_from_rows (rows : list (gmap string value)) pd rd dd sf :
  transform_data rows = Ok (pd, rd, dd, sf) →
  Forall (sale_from rows) sf ∧ (length sf <= length rows)%nat.
Proof.
  intros H. split; [exact (sales_from_rows _ _ _ _ _ H)|].
  apply transform_data_tables in H.
  refine (transform_loop_invariant
            (λ pre t, (length (sales_fact t) <= length pre)%nat)
            rows no_tables _ _ _ H); [simpl; lia|].
  clear. intros pre row t1 t2 IH Hrow.
  apply transform_row_steps in Hrow as (_ & _ & _ & Hs).
  rewrite length_app. simpl.
  apply sales_step_inv in Hs as [->|(vs & vp & vr & vq & date & price & n & p & r & q
                                     & _ & _ & _ & _ & _ & _ & _ & _ & _ & _ & _ & ->)];
    [lia|].
  rewrite length_app. simpl. lia.
Qed.

Lemma sales_facts_come_from_rows_witness :
  Forall (sale_from
            [cleaned_row "1" "10" "20" "Widget" "Shop" "2024-03-15" 1 float_5_5])
    [sales_record 1 10 20 "2024-03-15" 1 float_5_5]
  ∧ (length [sales_record 1 10 20 "2024-03-15" 1 float_5_5]
     <= length [cleaned_row "1" "10" "20" "Widget" "Shop" "2024-03-15" 1 float_5_5])%nat.
Proof.
  apply (sales_facts_come_from_rows _
           [product_record 10 "Widget"] [retailer_record 20]
           [date_record "2024-03-15" 2024 3 15]).
  by_evaluation.
Defined.

Lemma digit_not_sign (c : ascii) :
  isdigit_char c = true → Ascii.eqb c "-" = false ∧ Ascii.eqb c "+" = false.
Proof.
  intros H. rewrite !ascii_eqb_code. change (code "-") with 45.
  change (code "+") with 43. char_facts; split; bool_to_Z; lia.
Qed.

Lemma digit_not_int_space (c : ascii) : isdigit_char c = true → int_space_char c = false.
Proof.
  intros H. char_facts; unfold int_space_char; bool_to_Z; lia.
Qed.

(** [int] of text that passed the digit test, when it returns, returns a
    number that is at least 0. *)
Lemma int_of_digits_nonneg (s : string) (n : Z) :
  string_forall isdigit_char s = true → int_of_str s = Ok n → 0 <= n.
Proof.
  intros Hs. unfold int_of_str.
  assert (Hn : string_forall (λ c, negb (int_space_char c)) s = true).
  { revert Hs. apply string_forall_impl. intros c Hc.
    rewrite (digit_not_int_space c Hc). reflexivity. }
  rewrite (lstrip_with_id _ _ Hn), (rstrip_with_id _ _ Hn).
  destruct s as [|c s].
  - simpl. discriminate.
  - pose proof Hs as Hs'. simpl in Hs'. apply andb_true_iff in Hs' as [Hc _].
    destruct (digit_not_sign c Hc) as [-> ->].
    destruct (int_digits (String c s) false 0) as [k|] eqn:Hk; [|discriminate].
    intros H. inversion H; subst. eapply int_digits_nonneg; [|exact Hk]. lia.
Qed.

(** X19. Whatever the input file holds, the sales facts the chain of the
    three stages returns have non-negative SaleID, ProductID, RetailerID and
    Quantity, a Price that is a float at least 0.0, and a text Date. *)
Theorem pipeline_sales_facts_nonnegative (hash : identifier → Z)
    (data : list (gmap string string)) pd rd dd sf :
  pipeline hash data = Ok (pd, rd, dd, sf) →
  Forall (λ f, 0 <= sf_SaleID f ∧ 0 <= sf_ProductID f ∧ 0 <= sf_RetailerID f
               ∧ 0 <= sf_Quantity f
               ∧ (∃ x, sf_Price f = VFloat x ∧ SFleb (S754_zero false) x = true)
               ∧ is_text (sf_Date f)) sf.
Proof.
  unfold pipeline. intros H. apply bind_is_Ok in H as (cleaned & Hc & H).
  pose proof (sales_from_rows _ _ _ _ _ H) as Hsf.
  eapply Forall_impl; [exact Hsf|]. clear Hsf.
  intros f (row & vs & vp & vr & vq & Hin & Hvs & Hs & Hvp & Hp & Hvr & Hr
            & Hd & Hvq & Hq & Hpr).
  assert (Hrow : row ∈ cleaned).
  { unfold validate_data in Hin. rewrite validate_loop_spec, app_nil_l in Hin.
    apply list_elem_of_In, filter_In in Hin as [Hin _]. apply list_elem_of_In, Hin. }
  assert (Hid : ∀ field v n, field ∈ default_id_fields → row !! field = Some v →
                             py_int v = Ok n → 0 <= n).
  { intros field v n Hf Hv Hn.
    destruct (clean_data_identifier_fields hash data cleaned row field Hc Hrow Hf)
      as (s & Hs' & Hdig).
    rewrite Hs' in Hv. inversion Hv; subst v. simpl in Hn.
    unfold isdigit in Hdig. apply andb_true_iff in Hdig as [_ Hdig].
    eapply int_of_digits_nonneg; eassumption. }
  split; [apply (Hid "SaleID" vs); [right; left | assumption..]|].
  split; [apply (Hid "ProductID" vp); [left | assumption..]|].
  split; [apply (Hid "RetailerID" vr); [right; right; left | assumption..]|].
  pose proof (clean_data_cleaned_values hash data _ cleaned row _ _ Hc Hrow Hvq) as Cq.
  pose proof (clean_data_cleaned_values hash data _ cleaned row _ _ Hc Hrow Hpr) as Cp.
  pose proof (clean_data_cleaned_values hash data _ cleaned row _ _ Hc Hrow Hd) as Cd.
  split; [|split].
  - inversion Cq; subst; try congruence. simpl in Hq. inversion Hq; subst. assumption.
  - inversion Cp; subst; try congruence. eexists. split; [reflexivity|].
    apply plain_float_nonneg. assumption.
  - inversion Cd; subst; try congruence. eexists. reflexivity.
Qed.

Lemma pipeline_sales_facts_nonnegative_witness :
  Forall (λ f, 0 <= sf_SaleID f ∧ 0 <= sf_ProductID f ∧ 0 <= sf_RetailerID f
               ∧ 0 <= sf_Quantity f
               ∧ (∃ x, sf_Price f = VFloat x ∧ SFleb (S754_zero false) x = true)
               ∧ is_text (sf_Date f))
    [sales_record 1 10 20 "2024-03-15" 0 float_5_5].
Proof.
  apply (pipeline_sales_facts_nonnegative hash_zero
           [raw_row "1" "10" "20" "Widget" "Shop" "2024/03/15" "-4" "-$5.50"]
           [product_record 10 "Widget"] [retailer_record 20]
           [date_record "2024-03-15" 2024 3 15]).
  by_evaluation.
Defined.

(** ** Integer keys *)

Lemma NoDup_map_snoc {A} (f : A → Z) (l : list A) (x : A) :
  NoDup (map f l) → f x ∉ map f l → NoDup (map f (l ++ [x])%list).
Proof.
  intros Hl Hx. rewrite map_app. simpl. apply NoDup_app.
  split; [exact Hl|]. split; [|apply NoDup_singleton].
  intros y Hy Hy'. apply list_elem_of_singleton in Hy'. subst y. auto.
Qed.

(** What [product_step] does on a row whose ProductID is the integer [n]. *)
Lemma product_step_int (row : gmap string value) (n : Z)
    (pd pd' : list ProductDimRecord) :
  row !! "ProductID" = Some (VInt n) → product_step row pd = Ok pd' →
  (pd' = pd ∧ (n ∈ map pd_ProductID pd ∨ ¬ names_product n row))
  ∨ ((n ∉ map pd_ProductID pd)
     ∧ ∃ name brand category,
         row !! "ProductName" = Some name ∧ truthy name = true
         ∧ row !! "Brand" = Some brand ∧ row !! "Category" = Some category
         ∧ pd' = (pd ++ [{| pd_ProductID := n; pd_Name := name;
                            pd_Brand := or_none brand;
                            pd_Category := or_none category |}])%list).
Proof.
  intros Hid. unfold product_step, getitem. rewrite Hid, bind_Ok.
  destruct (row !! "ProductName") as [name|] eqn:Hname; [|discriminate].
  rewrite bind_Ok.
  destruct (py_in (VInt n) (map (λ p, VInt (pd_ProductID p)) pd)) eqn:Hseen.
  - simpl. intros H. inversion H; subst. left. split; [reflexivity|].
    left. apply int_key_seen, Hseen.
  - destruct (truthy name) eqn:Htruthy; cbn [negb andb].
    + cbn [py_int]. rewrite bind_Ok.
      destruct (row !! "Brand") as [brand|]; [|discriminate]. rewrite bind_Ok.
      destruct (row !! "Category") as [category|]; [|discriminate]. rewrite bind_Ok.
      intros H. inversion H; subst. right. split.
      * intros Hin. apply int_key_seen in Hin. congruence.
      * exists name, brand, category. auto.
    + intros H. inversion H; subst. left. split; [reflexivity|]. right.
      intros (_ & name' & Hname' & Ht). congruence.
Qed.

(** What [sales_step] does on a row whose SaleID is the integer [n]. *)
Lemma sales_step_int (row : gmap string value) (n : Z)
    (sf sf' : list SalesFactRecord) :
  row !! "SaleID" = Some (VInt n) → sales_step row sf = Ok sf' →
  (sf' = sf ∧ n ∈ map sf_SaleID sf)
  ∨ ((n ∉ map sf_SaleID sf)
     ∧ ∃ vp vr vq date price p r q,
         row !! "ProductID" = Some vp ∧ py_int vp = Ok p
         ∧ row !! "RetailerID" = Some vr ∧ py_int vr = Ok r
         ∧ row !! "Date" = Some date
         ∧ row !! "Quantity" = Some vq ∧ py_int vq = Ok q
         ∧ row !! "Price" = Some price
         ∧ sf' = (sf ++ [{| sf_SaleID := n; sf_ProductID := p; sf_RetailerID := r;
                            sf_Date := date; sf_Quantity := q;
                            sf_Price := price |}])%list).
Proof.
  intros Hid. unfold sales_step, getitem. rewrite Hid, bind_Ok.
  destruct (py_in (VInt n) _) eqn:Hseen; cbn [negb].
  - intros H. inversion H; subst. left. split; [reflexivity | apply int_key_seen, Hseen].
  - cbn [py_int]. rewrite bind_Ok.
    destruct (row !! "ProductID") as [vp|]; [|discriminate]. rewrite bind_Ok.
    destruct (py_int vp) as [p|] eqn:Hp; [|discriminate]. rewrite bind_Ok.
    destruct (row !! "RetailerID") as [vr|]; [|discriminate]. rewrite bind_Ok.
    destruct (py_int vr) as [r|] eqn:Hr; [|discriminate]. rewrite bind_Ok.
    destruct (row !! "Date") as [date|]; [|discriminate]. rewrite bind_Ok.
    destruct (row !! "Quantity") as [vq|]; [|discriminate]. rewrite bind_Ok.
    destruct (py_int vq) as [q|] eqn:Hq; [|discriminate]. rewrite bind_Ok.
    destruct (row !! "Price") as [price|]; [|discriminate]. rewrite bind_Ok.
    intros H. inversion H; subst. right. split.
    + intros Hin. apply int_key_seen in Hin. congruence.
    + exists vp, vr, vq, date, price, p, r, q. repeat split; reflexivity || assumption.
Qed.

(** X20. When the rows carry integers in ProductID (as a caller that has
    coerced the keys would pass them), the product dimension holds one
    record per key, built from the first row that names a product under
    that key, and every key some row names a product under is there. *)
Theorem integer_product_key_first_row_wins (rows : list (gmap string value))
    pd rd dd sf :
  Forall (λ row, ∃ n, row !! "ProductID" = Some (VInt n)) rows →
  transform_data rows = Ok (pd, rd, dd, sf) →
  NoDup (map pd_ProductID pd)
  ∧ Forall (product_of_first rows) pd
  ∧ ∀ row n, row ∈ rows → names_product n row → n ∈ map pd_ProductID pd.
Proof.
  intros Hint H. apply transform_data_tables in H.
  assert (Hinv := λ H0 Hstep, transform_loop_invariant
    (λ pre t,
       Forall (λ row, ∃ n, row !! "ProductID" = Some (VInt n)) pre →
       NoDup (map pd_ProductID (product_dim t))
       ∧ Forall (product_of_first pre) (product_dim t)
       ∧ ∀ row n, row ∈ pre → names_product n row →
                  n ∈ map pd_ProductID (product_dim t))
    rows no_tables _ H0 Hstep H Hint).
  simpl in Hinv. apply Hinv; clear.
  - intros _. split; [constructor|]. split; [constructor|].
    intros row n Hrow. inversion Hrow.
  - intros pre row t1 t2 IH Hrow Hpre.
    apply Forall_app in Hpre as [Hpre Hlast].
    destruct (IH Hpre) as (IN & IF & IC). clear IH.
    apply Forall_cons in Hlast as [[n Hn] _].
    apply transform_row_steps in Hrow as (Hp & _).
    assert (IF' : Forall (product_of_first (pre ++ [row])%list) (product_dim t1)).
    { eapply Forall_impl; [exact IF|].
      intros p (a & r & b & brand & category & -> & Hrest).
      exists a, r, (b ++ [row])%list, brand, category.
      split; [|exact Hrest]. rewrite <- app_assoc. reflexivity. }
    destruct (product_step_int row n _ _ Hn Hp)
      as [[-> Hwhy]|(Hnew & name & brand & category & Hname & Ht & Hb & Hc & ->)].
    + split; [exact IN|]. split; [exact IF'|].
      intros r k Hr Hk. apply elem_of_app in Hr as [Hr|Hr]; [eauto|].
      apply list_elem_of_singleton in Hr. subst r.
      assert (k = n) as -> by (destruct Hk as [Hk _]; congruence).
      destruct Hwhy as [Hseen|Hnot]; [exact Hseen | contradiction].
    + split; [apply NoDup_map_snoc; assumption|]. split.
      * apply Forall_app. split; [exact IF'|]. constructor; [|constructor].
        exists pre, row, [], brand, category. simpl.
        repeat split; try assumption || reflexivity.
        intros r Hr Hnames. apply Hnew. eauto.
      * intros r k Hr Hk. rewrite map_app. apply elem_of_app.
        apply elem_of_app in Hr as [Hr|Hr]; [left; eauto|].
        apply list_elem_of_singleton in Hr. subst r.
        assert (k = n) as -> by (destruct Hk as [Hk _]; congruence).
        right. left.
Qed.

Lemma integer_product_key_first_row_wins_witness :
  NoDup (map pd_ProductID [product_record 10 "Widget"])
  ∧ Forall (product_of_first [integer_row 1 10 20 "Widget";
                              integer_row 2 10 20 "Gadget"])
      [product_record 10 "Widget"]
  ∧ ∀ row n, row ∈ [integer_row 1 10 20 "Widget"; integer_row 2 10 20 "Gadget"] →
             names_product n row → n ∈ map pd_ProductID [product_record 10 "Widget"].
Proof.
  apply (integer_product_key_first_row_wins _ _
           [retailer_record 20] [date_record "2024-03-15" 2024 3 15]
           [sales_record 1 10 20 "2024-03-15" 1 float_5_5;
            sales_record 2 10 20 "2024-03-15" 1 float_5_5]).
  - repeat constructor; exists 10; by_evaluation.
  - by_evaluation.
Defined.

(** X21. When the rows carry integers in SaleID, the sales facts hold one
    fact per SaleID, built from the first row with that SaleID, and every
    SaleID of the input is there. *)
Theorem integer_sale_key_first_row_wins (rows : list (gmap string value))
    pd rd dd sf :
  Forall (λ row, ∃ n, row !! "SaleID" = Some (VInt n)) rows →
  transform_data rows = Ok (pd, rd, dd, sf) →
  NoDup (map sf_SaleID sf)
  ∧ Forall (sale_of_first rows) sf
  ∧ ∀ row n, row ∈ rows → row !! "SaleID" = Some (VInt n) → n ∈ map sf_SaleID sf.
Proof.
  intros Hint H. apply transform_data_tables in H.
  assert (Hinv := λ H0 Hstep, transform_loop_invariant
    (λ pre t,
       Forall (λ row, ∃ n, row !! "SaleID" = Some (VInt n)) pre →
       NoDup (map sf_SaleID (sales_fact t))
       ∧ Forall (sale_of_first pre) (sales_fact t)
       ∧ ∀ row n, row ∈ pre → row !! "SaleID" = Some (VInt n) →
                  n ∈ map sf_SaleID (sales_fact t))
    rows no_tables _ H0 Hstep H Hint).
  simpl in Hinv. apply Hinv; clear.
  - intros _. split; [constructor|]. split; [constructor|].
    intros row n Hrow. inversion Hrow.
  - intros pre row t1 t2 IH Hrow Hpre.
    apply Forall_app in Hpre as [Hpre Hlast].
    destruct (IH Hpre) as (IN & IF & IC). clear IH.
    apply Forall_cons in Hlast as [[n Hn] _].
    apply transform_row_steps in Hrow as (_ & _ & _ & Hs).
    assert (IF' : Forall (sale_of_first (pre ++ [row])%list) (sales_fact t1)).
    { eapply Forall_impl; [exact IF|].
      intros f (a & r & b & vp & vr & vq & -> & Hrest).
      exists a, r, (b ++ [row])%list, vp, vr, vq.
      split; [|exact Hrest]. rewrite <- app_assoc. reflexivity. }
    destruct (sales_step_int row n _ _ Hn Hs)
      as [[-> Hseen]|(Hnew & vp & vr & vq & date & price & p & r & q
                      & Hvp & Hp & Hvr & Hr & Hd & Hvq & Hq & Hpr & ->)].
    + split; [exact IN|]. split; [exact IF'|].
      intros x k Hx Hk. apply elem_of_app in Hx as [Hx|Hx]; [eauto|].
      apply list_elem_of_singleton in Hx. subst x.
      assert (k = n) as -> by congruence. exact Hseen.
    + split; [apply NoDup_map_snoc; assumption|]. split.
      * apply Forall_app. split; [exact IF'|]. constructor; [|constructor].
        exists pre, row, [], vp, vr, vq. simpl.
        repeat split; try assumption || reflexivity.
        intros x Hx Hk. apply Hnew. eauto.
      * intros x k Hx Hk. rewrite map_app. apply elem_of_app.
        apply elem_of_app in Hx as [Hx|Hx]; [left; eauto|].
        apply list_elem_of_singleton in Hx. subst x.
        assert (k = n) as -> by congruence. right. left.
Qed.

Lemma integer_sale_key_first_row_wins_witness :
  NoDup (map sf_SaleID [sales_record 1 10 20 "2024-03-15" 1 float_5_5])
  ∧ Forall (sale_of_first [integer_row 1 10 20 "Widget";
                           integer_row 1 11 20 "Gadget"])
      [sales_record 1 10 20 "2024-03-15" 1 float_5_5]
  ∧ ∀ row n, row ∈ [integer_row 1 10 20 "Widget"; integer_row 1 11 20 "Gadget"] →
             row !! "SaleID" = Some (VInt n) →
             n ∈ map sf_SaleID [sales_record 1 10 20 "2024-03-15" 1 float_5_5].
Proof.
  apply (integer_sale_key_first_row_wins _
           [product_record 10 "Widget"; product_record 11 "Gadget"]
           [retailer_record 20] [date_record "2024-03-15" 2024 3 15]).
  - repeat constructor; exists 1; by_evaluation.
  - by_evaluation.
Defined.

(** ** The publisher *)

Section PublisherFacts.

Context {error : Type}.
Variable outcome : list db_call → db_call → option error.
Variable env : gmap string string.

Lemma all_return_nil (log : list db_call) : all_return outcome log [].
Proof. intros [|b before] c after H; discriminate H. Qed.

Lemma all_return_cons (log : list db_call) (c : db_call) (cs : list db_call) :
  all_return outcome log (c :: cs)
  ↔ outcome log c = None ∧ all_return outcome (log ++ [c])%list cs.
Proof.
  split.
  - intros H. split.
    + rewrite <- (app_nil_r log). apply (H [] c cs). reflexivity.
    + intros before d after ->. rewrite <- app_assoc.
      apply (H (c :: before) d after). reflexivity.
  - intros [Hc Hcs] [|b before] d after Heq.
    + inversion Heq; subst. rewrite app_nil_r. exact Hc.
    + inversion Heq; subst.
      replace (log ++ b :: before)%list with ((log ++ [b]) ++ before)%list
        by (rewrite <- app_assoc; reflexivity).
      apply (Hcs before d after). reflexivity.
Qed.

Lemma all_return_app (log cs ds : list db_call) :
  all_return outcome log (cs ++ ds)%list
  ↔ all_return outcome log cs ∧ all_return outcome (log ++ cs)%list ds.
Proof.
  revert log. induction cs as [|c cs IH]; intros log.
  - simpl. rewrite app_nil_r. split; [intros H; split; [apply all_return_nil | exact H]|].
    intros [_ H]. exact H.
  - simpl. rewrite !all_return_cons, IH.
    replace ((log ++ [c]) ++ cs)%list with (log ++ c :: cs)%list
      by (rewrite <- app_assoc; reflexivity).
    tauto.
Qed.

Lemma for_each_map {A} (f : A → db_call) (rows : list A) (log : list db_call) :
  for_each (λ row, call outcome (f row)) rows log
  = for_each (call outcome) (map f rows) log.
Proof.
  revert log. induction rows as [|row rows IH]; intros log; [reflexivity|].
  simpl. unfold and_then. destruct (call outcome (f row) log) as [[e|] log'];
    [reflexivity | apply IH].
Qed.

Lemma for_each_app (cs ds : list db_call) (log : list db_call) :
  and_then (for_each (call outcome) cs) (for_each (call outcome) ds) log
  = for_each (call outcome) (cs ++ ds)%list log.
Proof.
  revert log. induction cs as [|c cs IH]; intros log; [reflexivity|].
  simpl. unfold and_then in *. destruct (call outcome c log) as [[e|] log'];
    [reflexivity|].
  apply IH.
Qed.

Lemma call_single (c : db_call) (log : list db_call) :
  call outcome c log = for_each (call outcome) [c] log.
Proof.
  simpl. unfold and_then, skip. destruct (call outcome c log) as [[e|] log'];
    reflexivity.
Qed.

(** The calls of a list, made in turn, either all return, or stop at the
    first one that raises. *)
Lemma for_each_call_spec (cs : list db_call) (log : list db_call) :
  (all_return outcome log cs
   ∧ for_each (call outcome) cs log = (None, (log ++ cs)%list))
  ∨ ∃ before c after e,
      cs = (before ++ c :: after)%list
      ∧ all_return outcome log before
      ∧ outcome (log ++ before)%list c = Some e
      ∧ for_each (call outcome) cs log = (Some e, (log ++ before ++ [c])%list).
Proof.
  revert log. induction cs as [|c cs IH]; intros log.
  - left. split; [apply all_return_nil|]. simpl. unfold skip. rewrite app_nil_r.
    reflexivity.
  - simpl. unfold and_then.
    change (call outcome c log) with (outcome log c, (log ++ [c])%list).
    destruct (outcome log c) as [e|] eqn:Hc.
    + right. exists [], c, cs, e. rewrite app_nil_r.
      split; [reflexivity|]. split; [apply all_return_nil|]. split; [exact Hc|].
      reflexivity.
    + destruct (IH (log ++ [c])%list)
        as [[Hall Hrun]|(before & d & after & e & -> & Hall & Hd & Hrun)].
      * left. split; [apply all_return_cons; split; assumption|].
        rewrite Hrun, <- app_assoc. reflexivity.
      * right. exists (c :: before), d, after, e.
        split; [reflexivity|].
        split; [apply all_return_cons; split; assumption|].
        rewrite <- app_assoc in Hd. split; [exact Hd|].
        rewrite Hrun, <- app_assoc. reflexivity.
Qed.

Lemma and_then_for_each {A} (f : A → db_call) (rows : list A)
    (rest : @action error) (cs : list db_call) (log : list db_call) :
  (∀ log', rest log' = for_each (call outcome) cs log') →
  and_then (for_each (λ row, call outcome (f row)) rows) rest log
  = for_each (call outcome) (map f rows ++ cs)%list log.
Proof.
  intros H. rewrite <- for_each_app. unfold and_then. rewrite for_each_map.
  destruct (for_each (call outcome) (map f rows) log) as [[e|] log'];
    [reflexivity | apply H].
Qed.

(** The loops and the commit of [publish_data] are the calls of
    [statements], then [Commit], made in turn. *)
Lemma publish_data_body (pd rd dd sf : list items) (log : list db_call) :
  and_then
    (for_each (λ row, call outcome (execute_row "product_dim" "ProductID" row)) pd)
    (and_then
       (for_each (λ row, call outcome (execute_row "retailer_dim" "RetailerID" row)) rd)
       (and_then
          (for_each (λ row, call outcome (execute_row "date_dim" "Date" row)) dd)
          (and_then
             (for_each (λ row, call outcome (execute_row "sales_fact" "SaleID" row)) sf)
             (call outcome Commit)))) log
  = for_each (call outcome) (statements pd rd dd sf ++ [Commit])%list log.
Proof.
  unfold statements. rewrite <- !app_assoc.
  apply and_then_for_each. intros log1.
  apply and_then_for_each. intros log2.
  apply and_then_for_each. intros log3.
  apply and_then_for_each. intros log4.
  apply call_single.
Qed.

Lemma call_run (c : db_call) (log : list db_call) :
  call outcome c log = (outcome log c, (log ++ [c])%list).
Proof. reflexivity. Qed.

(** The four ways a run of [publish_data] can go: the connection fails;
    the cursor cannot be opened; a statement or the commit raises; every
    statement and the commit return. *)
Lemma publish_data_shape (pd rd dd sf : list items) (r : option error)
    (log : list db_call) :
  publish_data outcome env pd rd dd sf [] = (r, log) →
  (outcome [] (Connect (connect_arguments env)) = r ∧ r ≠ None
   ∧ log = [Connect (connect_arguments env)])
  ∨ (outcome [] (Connect (connect_arguments env)) = None
     ∧ outcome [Connect (connect_arguments env)] Cursor ≠ None ∧ r ≠ None
     ∧ log = [Connect (connect_arguments env); Cursor; Close])
  ∨ (∃ before c after,
       (statements pd rd dd sf ++ [Commit])%list = (before ++ c :: after)%list
       ∧ all_return outcome [] ([Connect (connect_arguments env); Cursor] ++ before)%list
       ∧ outcome ([Connect (connect_arguments env); Cursor] ++ before)%list c ≠ None
       ∧ r ≠ None
       ∧ log = ([Connect (connect_arguments env); Cursor] ++ before
                ++ [c; CursorExit; Close])%list)
  ∨ (all_return outcome []
       ([Connect (connect_arguments env); Cursor]
        ++ statements pd rd dd sf ++ [Commit])%list
     ∧ log = complete_run env pd rd dd sf
     ∧ (r = None ↔ all_return outcome [] (complete_run env pd rd dd sf))).
Proof.
  unfold publish_data, database_connection.
  set (connect := Connect (connect_arguments env)).
  unfold and_then at 1. rewrite call_run. simpl app.
  destruct (outcome [] connect) as [e|] eqn:Hconnect.
  { intros H. inversion H; subst. left. repeat split. discriminate. }
  unfold finally at 1, and_then at 1. rewrite call_run. simpl app.
  destruct (outcome [connect] Cursor) as [e|] eqn:Hcursor.
  { rewrite call_run. simpl app. intros H. right. left.
    split; [reflexivity|]. split; [discriminate|].
    destruct (outcome [connect; Cursor] Close); inversion H; subst;
      split; [discriminate | reflexivity | discriminate | reflexivity]. }
  assert (Hstart : all_return outcome [] [connect; Cursor]).
  { apply all_return_cons. split; [exact Hconnect|].
    apply all_return_cons. split; [exact Hcursor | apply all_return_nil]. }
  unfold finally at 1. rewrite publish_data_body.
  destruct (for_each_call_spec (statements pd rd dd sf ++ [Commit])%list
              [connect; Cursor])
    as [[Hall Hrun]|(before & c & after & e & Heq & Hall & Hc & Hrun)];
    rewrite Hrun; cbv beta iota; rewrite call_run.
  - assert (Hbody : all_return outcome []
                      ([connect; Cursor] ++ statements pd rd dd sf ++ [Commit])%list).
    { apply all_return_app. split; assumption. }
    assert (Hiff : all_return outcome [] (complete_run env pd rd dd sf)
                   ↔ outcome ([connect; Cursor] ++ statements pd rd dd sf ++ [Commit])%list
                       CursorExit = None
                     ∧ outcome (([connect; Cursor] ++ statements pd rd dd sf ++ [Commit])
                                ++ [CursorExit])%list Close = None).
    { unfold complete_run. fold connect.
      replace ([connect; Cursor] ++ statements pd rd dd sf
               ++ [Commit; CursorExit; Close])%list
        with (([connect; Cursor] ++ statements pd rd dd sf ++ [Commit])
              ++ [CursorExit; Close])%list
        by (rewrite <- !app_assoc; reflexivity).
      rewrite all_return_app, !all_return_cons. simpl app.
      pose proof (all_return_nil
                    (((connect :: Cursor :: statements pd rd dd sf ++ [Commit])
                      ++ [CursorExit]) ++ [Close])%list).
      simpl app in Hbody. tauto. }
    assert (Hlog : complete_run env pd rd dd sf
                   = ((([connect; Cursor] ++ statements pd rd dd sf ++ [Commit])
                       ++ [CursorExit]) ++ [Close])%list).
    { unfold complete_run. rewrite <- !app_assoc. reflexivity. }
    rewrite Hiff, Hlog. clear Hiff Hlog.
    destruct (outcome _ CursorExit) as [e1|]; cbv beta iota; rewrite call_run;
      destruct (outcome _ Close) as [e2|]; intros H; inversion H; subst;
      right; right; right; (split; [exact Hbody|]); (split; [reflexivity|]);
      split; try discriminate; try (intros [? ?]; discriminate); auto.
  - assert (Hlog : ∀ l, (([connect; Cursor] ++ before ++ [c]) ++ l)%list
                        = ([connect; Cursor] ++ before ++ c :: l)%list).
    { intros l. rewrite <- !app_assoc. reflexivity. }
    destruct (outcome _ CursorExit) as [e1|]; cbv beta iota; rewrite call_run;
      destruct (outcome _ Close) as [e2|]; intros H; inversion H; subst;
      right; right; left; exists before, c, after;
      (split; [exact Heq|]);
      (split; [apply (all_return_app [] [connect; Cursor] before); split; assumption|]);
      (split; [simpl app in Hc |- *; rewrite Hc; discriminate|]);
      (split; [discriminate|]);
      simpl; rewrite <- !app_assoc; reflexivity.
Qed.

Lemma statements_execute (pd rd dd sf : list items) :
  Forall is_execute (statements pd rd dd sf).
Proof.
  unfold statements. rewrite !Forall_app, !Forall_forall.
  repeat split; intros c Hc; apply list_elem_of_In, in_map_iff in Hc as (row & <- & _);
    exact I.
Qed.

(** [Commit] is met in the calls of a load only at their end. *)
Lemma commit_is_last (stmts before after : list db_call) (c : db_call) :
  Forall is_execute stmts →
  (stmts ++ [Commit])%list = (before ++ c :: after)%list →
  Commit ∈ (before ++ [c])%list →
  before = stmts ∧ c = Commit ∧ after = [].
Proof.
  intros Hs. revert before. induction Hs as [|s stmts Hs _ IH]; intros before Heq Hin.
  - destruct before as [|b before]; simpl in Heq.
    + inversion Heq; subst. auto.
    + inversion Heq as [[Hb Hrest]]. destruct before; discriminate Hrest.
  - destruct before as [|b before]; simpl in Heq; inversion Heq; subst.
    + apply list_elem_of_singleton in Hin. rewrite <- Hin in Hs. destruct Hs.
    + simpl in Hin.
      apply elem_of_cons in Hin as [Hin|Hin]; [rewrite <- Hin in Hs; destruct Hs|].
      destruct (IH before H1 Hin) as (-> & -> & ->). auto.
Qed.

Lemma filter_execute_statements (stmts : list db_call) :
  Forall is_execute stmts → filter is_execute stmts = stmts.
Proof.
  induction 1 as [|s stmts Hs _ IH]; [reflexivity|].
  rewrite filter_cons_True by exact Hs. rewrite IH. reflexivity.
Qed.

(** X22. [publish_data] returns without an exception exactly when every
    call of the complete run returns: the connection, the cursor, one
    statement per row (products, retailers, dates, sales, in this order),
    the commit, the close of the cursor and the close of the connection;
    and these are then the calls it has made. *)
Theorem publish_data_returns_iff (pd rd dd sf : list items) :
  ((publish_data outcome env pd rd dd sf []).1 = None
   ↔ all_return outcome [] (complete_run env pd rd dd sf))
  ∧ ((publish_data outcome env pd rd dd sf []).1 = None →
     (publish_data outcome env pd rd dd sf []).2 = complete_run env pd rd dd sf).
Proof.
  destruct (publish_data outcome env pd rd dd sf []) as [r log] eqn:Hrun. simpl.
  destruct (publish_data_shape _ _ _ _ _ _ Hrun)
    as [(Hc & Hr & ->)|[(Hc & Hcur & Hr & ->)
        |[(before & c & after & Heq & Hall & Hc & Hr & ->)|(Hall & -> & Hiff)]]].
  - split; [|contradiction]. split; [contradiction|]. intros Hall. exfalso.
    unfold complete_run in Hall. simpl app in Hall.
    apply all_return_cons in Hall as [H1 _]. congruence.
  - split; [|contradiction]. split; [contradiction|]. intros Hall. exfalso.
    unfold complete_run in Hall. simpl app in Hall.
    apply all_return_cons in Hall as [_ Hall].
    apply all_return_cons in Hall as [H2 _]. contradiction.
  - split; [|contradiction]. split; [contradiction|]. intros Hall'. exfalso.
    unfold complete_run in Hall'.
    replace ([Connect (connect_arguments env); Cursor]
             ++ statements pd rd dd sf ++ [Commit; CursorExit; Close])%list
      with (([Connect (connect_arguments env); Cursor] ++ before)
            ++ c :: after ++ [CursorExit; Close])%list in Hall'.
    + apply all_return_app in Hall' as [_ Hall'].
      apply all_return_cons in Hall' as [Hc' _]. contradiction.
    + replace (statements pd rd dd sf ++ [Commit; CursorExit; Close])%list
        with ((statements pd rd dd sf ++ [Commit]) ++ [CursorExit; Close])%list
        by (rewrite <- app_assoc; reflexivity).
      rewrite Heq, <- !app_assoc. reflexivity.
  - split; [exact Hiff | reflexivity].
Qed.

(** X23. A commit is only asked for at the end of a complete load: when
    [Commit] is among the calls of a run, the connection and the cursor
    were opened and every statement of every table was executed and
    returned, and the calls of the run are those of the complete run. *)
Theorem publish_data_commits_complete_loads (pd rd dd sf : list items) :
  Commit ∈ (publish_data outcome env pd rd dd sf []).2 →
  all_return outcome []
    ([Connect (connect_arguments env); Cursor] ++ statements pd rd dd sf)%list
  ∧ (publish_data outcome env pd rd dd sf []).2 = complete_run env pd rd dd sf.
Proof.
  destruct (publish_data outcome env pd rd dd sf []) as [r log] eqn:Hrun. simpl.
  intros Hin.
  destruct (publish_data_shape _ _ _ _ _ _ Hrun)
    as [(Hc & Hr & ->)|[(Hc & Hcur & Hr & ->)
        |[(before & c & after & Heq & Hall & Hc & Hr & ->)|(Hall & -> & Hiff)]]].
  - apply list_elem_of_singleton in Hin. discriminate Hin.
  - repeat (apply elem_of_cons in Hin as [Hin|Hin]; [discriminate Hin|]).
    inversion Hin.
  - assert (Hin' : Commit ∈ (before ++ [c])%list).
    { simpl in Hin.
      repeat (apply elem_of_cons in Hin as [Hin|Hin]; [discriminate Hin|]).
      apply elem_of_app in Hin as [Hin|Hin]; apply elem_of_app; [left; exact Hin|].
      apply elem_of_cons in Hin as [Hin|Hin]; [right; subst c; left|].
      repeat (apply elem_of_cons in Hin as [Hin|Hin]; [discriminate Hin|]).
      inversion Hin. }
    destruct (commit_is_last _ _ _ _ (statements_execute pd rd dd sf) Heq Hin')
      as (-> & -> & ->).
    split; [exact Hall|]. unfold complete_run. reflexivity.
  - split; [|reflexivity].
    replace ([Connect (connect_arguments env); Cursor]
             ++ statements pd rd dd sf ++ [Commit])%list
      with (([Connect (connect_arguments env); Cursor] ++ statements pd rd dd sf)
            ++ [Commit])%list in Hall by (rewrite <- app_assoc; reflexivity).
    apply all_return_app in Hall as [Hall _]. exact Hall.
Qed.

(** X24. The connection is closed on every path: once [psycopg2.connect]
    has returned, the last call of the run is [connection.close()] and it
    is made once, whatever raised in between; when the connection cannot
    be opened, nothing else is called. *)
Theorem publish_data_closes_connection (pd rd dd sf : list items) :
  (outcome [] (Connect (connect_arguments env)) = None →
   ∃ calls, (publish_data outcome env pd rd dd sf []).2
            = (Connect (connect_arguments env) :: calls ++ [Close])%list
            ∧ Close ∉ calls)
  ∧ (outcome [] (Connect (connect_arguments env)) ≠ None →
     (publish_data outcome env pd rd dd sf []).2 = [Connect (connect_arguments env)]).
Proof.
  destruct (publish_data outcome env pd rd dd sf []) as [r log] eqn:Hrun. simpl.
  assert (Hstmts : ∀ l, l `prefix_of` (statements pd rd dd sf ++ [Commit])%list →
                        Close ∉ l).
  { intros l [k Hk] Hin.
    assert (Hin' : Close ∈ (statements pd rd dd sf ++ [Commit])%list)
      by (rewrite Hk; apply elem_of_app; left; exact Hin).
    apply elem_of_app in Hin' as [Hin'|Hin'].
    - pose proof (statements_execute pd rd dd sf) as Hall.
      rewrite Forall_forall in Hall. exact (Hall _ Hin').
    - apply list_elem_of_singleton in Hin'. discriminate Hin'. }
  destruct (publish_data_shape _ _ _ _ _ _ Hrun)
    as [(Hc & Hr & ->)|[(Hc & Hcur & Hr & ->)
        |[(before & c & after & Heq & Hall & Hc & Hr & ->)|(Hall & -> & Hiff)]]].
  - split; [|reflexivity]. intros Hret. rewrite Hret in Hc. subst r. contradiction.
  - split; [|intros Hne; contradiction]. intros _. exists [Cursor].
    split; [reflexivity|]. intros Hin. apply list_elem_of_singleton in Hin.
    discriminate Hin.
  - split; [|intros Hne; exfalso; apply Hne;
             rewrite <- (app_nil_r []);
             apply (Hall [] _ (Cursor :: before)); reflexivity].
    intros _. exists (Cursor :: (before ++ [c]) ++ [CursorExit])%list. split.
    + simpl. rewrite <- !app_assoc. reflexivity.
    + intros Hin. apply elem_of_cons in Hin as [Hin|Hin]; [discriminate Hin|].
      apply elem_of_app in Hin as [Hin|Hin].
      * apply (Hstmts (before ++ [c])%list); [|exact Hin].
        exists after. rewrite Heq, <- app_assoc. reflexivity.
      * apply list_elem_of_singleton in Hin. discriminate Hin.
  - split; [|intros Hne; exfalso; apply Hne;
             rewrite <- (app_nil_r []);
             apply (Hall [] _ (Cursor :: statements pd rd dd sf ++ [Commit])%list);
             reflexivity].
    intros _.
    exists (Cursor :: (statements pd rd dd sf ++ [Commit]) ++ [CursorExit])%list.
    split.
    + unfold complete_run. simpl. rewrite <- !app_assoc. reflexivity.
    + intros Hin. apply elem_of_cons in Hin as [Hin|Hin]; [discriminate Hin|].
      apply elem_of_app in Hin as [Hin|Hin].
      * apply (Hstmts (statements pd rd dd sf ++ [Commit])%list); [|exact Hin].
        exists []. rewrite app_nil_r. reflexivity.
      * apply list_elem_of_singleton in Hin. discriminate Hin.
Qed.

(** X25. The statements a run executes are the first ones of the complete
    load, in its order: no row is skipped, none is sent twice, and after a
    statement that raises no further statement is sent. *)
Theorem publish_data_executes_in_order (pd rd dd sf : list items) :
  filter is_execute (publish_data outcome env pd rd dd sf []).2
    `prefix_of` statements pd rd dd sf.
Proof.
  destruct (publish_data outcome env pd rd dd sf []) as [r log] eqn:Hrun. simpl.
  pose proof (statements_execute pd rd dd sf) as Hex.
  assert (Hpre : ∀ l, l `prefix_of` (statements pd rd dd sf ++ [Commit])%list →
                      filter is_execute l `prefix_of` statements pd rd dd sf).
  { intros l [k Hk]. exists (filter is_execute k).
    rewrite <- filter_app, <- Hk, filter_app, (filter_execute_statements _ Hex).
    rewrite filter_cons_False by (intros []). rewrite filter_nil, app_nil_r.
    reflexivity. }
  destruct (publish_data_shape _ _ _ _ _ _ Hrun)
    as [(Hc & Hr & ->)|[(Hc & Hcur & Hr & ->)
        |[(before & c & after & Heq & Hall & Hc & Hr & ->)|(Hall & -> & Hiff)]]].
  - rewrite filter_cons_False by (intros []). apply prefix_nil.
  - rewrite !filter_cons_False by (intros []). apply prefix_nil.
  - simpl app. rewrite !filter_cons_False by (intros []).
    replace (before ++ [c; CursorExit; Close])%list
      with ((before ++ [c]) ++ [CursorExit; Close])%list
      by (rewrite <- app_assoc; reflexivity).
    rewrite filter_app, !filter_cons_False by (intros []).
    rewrite filter_nil, app_nil_r. apply Hpre. exists after.
    rewrite Heq, <- app_assoc. reflexivity.
  - unfold complete_run. simpl app. rewrite !filter_cons_False by (intros []).
    replace (statements pd rd dd sf ++ [Commit; CursorExit; Close])%list
      with ((statements pd rd dd sf ++ [Commit]) ++ [CursorExit; Close])%list
      by (rewrite <- app_assoc; reflexivity).
    rewrite filter_app, !filter_cons_False by (intros []).
    rewrite filter_nil, app_nil_r. apply Hpre. reflexivity.
Qed.

End PublisherFacts.

Lemma publish_data_commits_complete_loads_witness :
  all_return never_fails []
    ([Connect (connect_arguments ∅); Cursor]
     ++ statements [product_items (product_record 10 "Widget")] [] []
          [sales_items (sales_record 1 10 20 "2024-03-15" 1 float_5_5)])%list
  ∧ (publish_data never_fails ∅ [product_items (product_record 10 "Widget")] [] []
       [sales_items (sales_record 1 10 20 "2024-03-15" 1 float_5_5)] []).2
    = complete_run ∅ [product_items (product_record 10 "Widget")] [] []
        [sales_items (sales_record 1 10 20 "2024-03-15" 1 float_5_5)].
Proof.
  apply (publish_data_commits_complete_loads never_fails ∅).
  by_evaluation.
Defined.

(** X26. The text of a statement is made of the table name and the column
    names only: two rows with the same keys give the same text, and the
    values travel as parameters.  For the records of [transform_data] the
    four texts are fixed, with one [%s] per column and the record's values
    as parameters in the order of its keys. *)
Theorem insert_query_text :
  (∀ table conflict row row',
     row_keys row = row_keys row' →
     insert_query table conflict row = insert_query table conflict row')
  ∧ (∀ p, execute_row "product_dim" "ProductID" (product_items p)
          = Execute
              ("INSERT INTO product_dim (ProductID, Name, Brand, Category) "
               ++ "VALUES (%s, %s, %s, %s) ON CONFLICT (ProductID) DO UPDATE SET "
               ++ "ProductID = EXCLUDED.ProductID, Name = EXCLUDED.Name, "
               ++ "Brand = EXCLUDED.Brand, Category = EXCLUDED.Category")
              [VInt (pd_ProductID p); pd_Name p; pd_Brand p; pd_Category p])
  ∧ (∀ r, execute_row "retailer_dim" "RetailerID" (retailer_items r)
          = Execute
              ("INSERT INTO retailer_dim (RetailerID, Name, Channel, Location) "
               ++ "VALUES (%s, %s, %s, %s) ON CONFLICT (RetailerID) DO UPDATE SET "
               ++ "RetailerID = EXCLUDED.RetailerID, Name = EXCLUDED.Name, "
               ++ "Channel = EXCLUDED.Channel, Location = EXCLUDED.Location")
              [VInt (rd_RetailerID r); rd_Name r; rd_Channel r; rd_Location r])
  ∧ (∀ d, execute_row "date_dim" "Date" (date_items d)
          = Execute
              ("INSERT INTO date_dim "
               ++ "(Date, Day, Month, Year, Quarter, DayOfWeek, WeekOfYear) "
               ++ "VALUES (%s, %s, %s, %s, %s, %s, %s) "
               ++ "ON CONFLICT (Date) DO UPDATE SET "
               ++ "Date = EXCLUDED.Date, Day = EXCLUDED.Day, "
               ++ "Month = EXCLUDED.Month, Year = EXCLUDED.Year, "
               ++ "Quarter = EXCLUDED.Quarter, DayOfWeek = EXCLUDED.DayOfWeek, "
               ++ "WeekOfYear = EXCLUDED.WeekOfYear")
              [dd_Date d; VInt (dd_Day d); VInt (dd_Month d); VInt (dd_Year d);
               VInt (dd_Quarter d); VStr (dd_DayOfWeek d); VInt (dd_WeekOfYear d)])
  ∧ (∀ f, execute_row "sales_fact" "SaleID" (sales_items f)
          = Execute
              ("INSERT INTO sales_fact "
               ++ "(SaleID, ProductID, RetailerID, Date, Quantity, Price) "
               ++ "VALUES (%s, %s, %s, %s, %s, %s) "
               ++ "ON CONFLICT (SaleID) DO UPDATE SET "
               ++ "SaleID = EXCLUDED.SaleID, ProductID = EXCLUDED.ProductID, "
               ++ "RetailerID = EXCLUDED.RetailerID, Date = EXCLUDED.Date, "
               ++ "Quantity = EXCLUDED.Quantity, Price = EXCLUDED.Price")
              [VInt (sf_SaleID f); VInt (sf_ProductID f); VInt (sf_RetailerID f);
               sf_Date f; VInt (sf_Quantity f); sf_Price f]).
Proof.
  split.
  - intros table conflict row row' Hkeys. unfold insert_query.
    assert (Hlen : length row = length row').
    { unfold row_keys in Hkeys. rewrite <- (length_map fst row), Hkeys.
      apply length_map. }
    rewrite Hkeys, Hlen. reflexivity.
  - repeat split; intros x; reflexivity.
Qed.
